(** * The transactional operator tree of [cthyb::impurity_trace]

    A shallow embedding of [c++/impurity_trace.hpp]: the pool of detached
    nodes, the trial insertion / deletion / substitution operations on the
    time-ordered tree, and the properties of these operations.

    Nodes of the tree live on the free store and are shared through raw
    pointers ([node = node_t*]): the tree links them, the pools hold them and
    [inserted_nodes] remembers parents.  The embedding therefore keeps an
    explicit store of node objects, and every operation is a computation
    over the whole object state. *)

From Stdlib Require Import ZArith List Bool Lia Reals.
From stdpp Require Import base gmap list strings.

Local Open Scope Z_scope.

(** ** Data *)

(** Modelled from the spec: [time_pt] (declared in a header that is not part
    of this file) is "a totally ordered value representing a position in
    imaginary time"; it is taken to be its integer grid position. *)
Definition time_pt := Z.

(** [double]: the tree operations only store and copy these values. *)
Definition double := R.
Definition matrix := list (list double).

(** Modelled from the spec: [op_desc] (declared in [configuration.hpp]) "tags
    whether the operator is a creation or annihilation operator, the index of
    the block-diagonal flavour it acts on"; the fields are the ones this
    header reads. *)
Record op_desc := mk_op_desc {
  block_index : Z;
  dagger : bool;
  linear_index : Z
}.

(** [op_desc{}] *)
Definition op_desc_default : op_desc := mk_op_desc 0 false 0.

Record bool_and_matrix := mk_bool_and_matrix {
  is_valid : bool;
  mat : matrix
}.

(** [struct cache_t] *)
Record cache_t := mk_cache {
  dtau_l : double;
  dtau_r : double;
  block_table : list Z;
  matrices : list matrix;
  matrix_lnorms : list double;
  matrix_norm_valid : list bool
}.

(** [cache_t(int n_blocks)]: every vector has [n_blocks] value-initialised
    entries. *)
Definition cache_new (n_blocks : Z) : cache_t :=
  let n := Z.to_nat n_blocks in
  mk_cache 0%R 0%R (replicate n 0) (replicate n []) (replicate n 0%R)
           (replicate n false).

(** Addresses of node objects; a [node] is a [node_t*], [None] is [nullptr]. *)
Definition addr := positive.
Definition node := option addr.

(** [rb_tree_t::node_t]: the [node_data_t] it derives from ([op], [cache])
    and the tree fields this header reads and writes. *)
Record node_t := mk_node {
  op : op_desc;
  cache : cache_t;
  key : time_pt;
  left : node;
  right : node;
  color : bool;
  N : Z;
  modified : bool;
  delete_flag : bool
}.

Definition set_op (v : op_desc) (x : node_t) : node_t :=
  mk_node v (cache x) (key x) (left x) (right x) (color x) (N x) (modified x) (delete_flag x).
Definition set_cache (v : cache_t) (x : node_t) : node_t :=
  mk_node (op x) v (key x) (left x) (right x) (color x) (N x) (modified x) (delete_flag x).
Definition set_key (v : time_pt) (x : node_t) : node_t :=
  mk_node (op x) (cache x) v (left x) (right x) (color x) (N x) (modified x) (delete_flag x).
Definition set_left (v : node) (x : node_t) : node_t :=
  mk_node (op x) (cache x) (key x) v (right x) (color x) (N x) (modified x) (delete_flag x).
Definition set_right (v : node) (x : node_t) : node_t :=
  mk_node (op x) (cache x) (key x) (left x) v (color x) (N x) (modified x) (delete_flag x).
Definition set_color (v : bool) (x : node_t) : node_t :=
  mk_node (op x) (cache x) (key x) (left x) (right x) v (N x) (modified x) (delete_flag x).
Definition set_N (v : Z) (x : node_t) : node_t :=
  mk_node (op x) (cache x) (key x) (left x) (right x) (color x) v (modified x) (delete_flag x).
Definition set_modified (v : bool) (x : node_t) : node_t :=
  mk_node (op x) (cache x) (key x) (left x) (right x) (color x) (N x) v (delete_flag x).
Definition set_delete_flag (v : bool) (x : node_t) : node_t :=
  mk_node (op x) (cache x) (key x) (left x) (right x) (color x) (N x) (modified x) v.

(** [child x true] is [x->left], [child x false] is [x->right]. *)
Definition child (x : node_t) (is_left : bool) : node :=
  if is_left then left x else right x.
Definition set_child (is_left : bool) (v : node) (x : node_t) : node_t :=
  if is_left then set_left v x else set_right v x.

(** Modelled from the spec: the constructor [node_t(key, value, color, N)] of
    [rbt.hpp] is not in this file; a new node is detached (no children), not
    flagged for deletion, and starts out modified (it has no cache yet). *)
Definition node_new (k : time_pt) (o : op_desc) (n_blocks : Z) (c : bool) (n : Z) : node_t :=
  mk_node o (cache_new n_blocks) k None None c n true false.

(** [std::greater<time_pt>], the comparator of [rb_tree_t]. *)
Definition comparator (a b : time_pt) : bool := b <? a.

(** ** The pool of detached nodes: [class nodes_storage] *)
Module nodes_storage.

Record t := mk {
  n_blocks : Z;
  nodes : list node;
  i : Z
}.

(** [nodes[j]]; [None] when [j] is outside the vector. *)
Definition at_ (p : t) (j : Z) : option node :=
  if j <? 0 then None else nodes p !! Z.to_nat j.

Definition index (p : t) : Z := i p.
Definition is_index_reset (p : t) : bool := i p =? -1.
Definition reset_index (p : t) : Z * t := (i p, mk (n_blocks p) (nodes p) (-1)).

(** [std::swap(n, nodes[++i]); return n;] *)
Definition swap_next (n : node) (p : t) : option (node * t) :=
  let j := i p + 1 in
  match at_ p j with
  | Some m => Some (m, mk (n_blocks p) (<[Z.to_nat j := n]> (nodes p)) j)
  | None => None
  end.

(** [std::swap(n, nodes[i--]); return n;] *)
Definition swap_prev (n : node) (p : t) : option (node * t) :=
  let j := i p in
  match at_ p j with
  | Some m => Some (m, mk (n_blocks p) (<[Z.to_nat j := n]> (nodes p)) (j - 1))
  | None => None
  end.

(** [return nodes[++i];] *)
Definition take_next (p : t) : option (node * t) :=
  let j := i p + 1 in
  match at_ p j with
  | Some m => Some (m, mk (n_blocks p) (nodes p) j)
  | None => None
  end.

(** [return nodes[i--];] *)
Definition take_prev (p : t) : option (node * t) :=
  let j := i p in
  match at_ p j with
  | Some m => Some (m, mk (n_blocks p) (nodes p) (j - 1))
  | None => None
  end.

Definition push_back (n : node) (p : t) : t :=
  mk (n_blocks p) (nodes p ++ [n]) (i p).

End nodes_storage.

(** ** The object state *)

(** [rb_tree_t]: the header only reaches the tree through its root. *)
Record rb_tree_t := mk_tree { root : node }.

Record impurity_trace := mk_state {
  (* the free store: the node objects, by address, and the next address [new] hands out *)
  store : gmap addr node_t;
  next_addr : addr;
  (* data members, in the order of the class *)
  use_norm_as_weight : bool;
  measure_density_matrix : bool;
  n_blocks : Z;
  density_matrix : list bool_and_matrix;
  atomic_rho : list bool_and_matrix;
  atomic_z : double;
  atomic_norm : double;
  tree : rb_tree_t;
  tree_size : Z;
  trial_nodes : nodes_storage.t;
  inserted_nodes : list (node * bool);
  removed_nodes : list node;
  removed_keys : list time_pt;
  backup_nodes : nodes_storage.t
}.

Definition set_store (v : gmap addr node_t) (s : impurity_trace) : impurity_trace :=
  mk_state v (next_addr s) (use_norm_as_weight s) (measure_density_matrix s) (n_blocks s)
    (density_matrix s) (atomic_rho s) (atomic_z s) (atomic_norm s) (tree s) (tree_size s)
    (trial_nodes s) (inserted_nodes s) (removed_nodes s) (removed_keys s) (backup_nodes s).
Definition set_next_addr (v : addr) (s : impurity_trace) : impurity_trace :=
  mk_state (store s) v (use_norm_as_weight s) (measure_density_matrix s) (n_blocks s)
    (density_matrix s) (atomic_rho s) (atomic_z s) (atomic_norm s) (tree s) (tree_size s)
    (trial_nodes s) (inserted_nodes s) (removed_nodes s) (removed_keys s) (backup_nodes s).
Definition set_density_matrix (v : list bool_and_matrix) (s : impurity_trace) : impurity_trace :=
  mk_state (store s) (next_addr s) (use_norm_as_weight s) (measure_density_matrix s) (n_blocks s)
    v (atomic_rho s) (atomic_z s) (atomic_norm s) (tree s) (tree_size s)
    (trial_nodes s) (inserted_nodes s) (removed_nodes s) (removed_keys s) (backup_nodes s).
Definition set_root (v : node) (s : impurity_trace) : impurity_trace :=
  mk_state (store s) (next_addr s) (use_norm_as_weight s) (measure_density_matrix s) (n_blocks s)
    (density_matrix s) (atomic_rho s) (atomic_z s) (atomic_norm s) (mk_tree v) (tree_size s)
    (trial_nodes s) (inserted_nodes s) (removed_nodes s) (removed_keys s) (backup_nodes s).
Definition set_tree_size (v : Z) (s : impurity_trace) : impurity_trace :=
  mk_state (store s) (next_addr s) (use_norm_as_weight s) (measure_density_matrix s) (n_blocks s)
    (density_matrix s) (atomic_rho s) (atomic_z s) (atomic_norm s) (tree s) v
    (trial_nodes s) (inserted_nodes s) (removed_nodes s) (removed_keys s) (backup_nodes s).
Definition set_trial_nodes (v : nodes_storage.t) (s : impurity_trace) : impurity_trace :=
  mk_state (store s) (next_addr s) (use_norm_as_weight s) (measure_density_matrix s) (n_blocks s)
    (density_matrix s) (atomic_rho s) (atomic_z s) (atomic_norm s) (tree s) (tree_size s)
    v (inserted_nodes s) (removed_nodes s) (removed_keys s) (backup_nodes s).
Definition set_inserted_nodes (v : list (node * bool)) (s : impurity_trace) : impurity_trace :=
  mk_state (store s) (next_addr s) (use_norm_as_weight s) (measure_density_matrix s) (n_blocks s)
    (density_matrix s) (atomic_rho s) (atomic_z s) (atomic_norm s) (tree s) (tree_size s)
    (trial_nodes s) v (removed_nodes s) (removed_keys s) (backup_nodes s).
Definition set_removed_nodes (v : list node) (s : impurity_trace) : impurity_trace :=
  mk_state (store s) (next_addr s) (use_norm_as_weight s) (measure_density_matrix s) (n_blocks s)
    (density_matrix s) (atomic_rho s) (atomic_z s) (atomic_norm s) (tree s) (tree_size s)
    (trial_nodes s) (inserted_nodes s) v (removed_keys s) (backup_nodes s).
Definition set_removed_keys (v : list time_pt) (s : impurity_trace) : impurity_trace :=
  mk_state (store s) (next_addr s) (use_norm_as_weight s) (measure_density_matrix s) (n_blocks s)
    (density_matrix s) (atomic_rho s) (atomic_z s) (atomic_norm s) (tree s) (tree_size s)
    (trial_nodes s) (inserted_nodes s) (removed_nodes s) v (backup_nodes s).
Definition set_backup_nodes (v : nodes_storage.t) (s : impurity_trace) : impurity_trace :=
  mk_state (store s) (next_addr s) (use_norm_as_weight s) (measure_density_matrix s) (n_blocks s)
    (density_matrix s) (atomic_rho s) (atomic_z s) (atomic_norm s) (tree s) (tree_size s)
    (trial_nodes s) (inserted_nodes s) (removed_nodes s) (removed_keys s) v.

(** ** Outcomes of a member function *)

Inductive exn :=
| rbt_insert_error
| runtime_error (msg : string).

(** What the C++ standard leaves undefined and this header can run into. *)
Inductive undefined_behaviour :=
| null_dereference
| dangling_pointer
| out_of_range.

(** A call returns normally with a value and the new state, leaves by an
    exception (the state is then the one at the [throw]), runs into undefined
    behaviour, calls [std::terminate] (an exception that reaches the boundary
    of a [noexcept] function), or exhausts the recursion budget of the
    embedding. *)
Inductive result (A : Type) :=
| Ok (a : A) (s : impurity_trace)
| Throw (e : exn) (s : impurity_trace)
| Undefined (u : undefined_behaviour)
| Terminate (e : exn)
| OutOfFuel.
Arguments Ok {A} a s.
Arguments Throw {A} e s.
Arguments Undefined {A} u.
Arguments Terminate {A} e.
Arguments OutOfFuel {A}.

Definition M (A : Type) : Type := impurity_trace -> result A.

Definition ret {A} (a : A) : M A := fun s => Ok a s.
Definition bind {A B} (m : M A) (k : A -> M B) : M B :=
  fun s =>
    match m s with
    | Ok a s' => k a s'
    | Throw e s' => Throw e s'
    | Undefined u => Undefined u
    | Terminate e => Terminate e
    | OutOfFuel => OutOfFuel
    end.
Definition throw {A} (e : exn) : M A := fun s => Throw e s.
Definition undefined {A} (u : undefined_behaviour) : M A := fun _ => Undefined u.
Definition out_of_fuel {A} : M A := fun _ => OutOfFuel.
Definition gets {A} (f : impurity_trace -> A) : M A := fun s => Ok (f s) s.
Definition modify (f : impurity_trace -> impurity_trace) : M unit := fun s => Ok tt (f s).

(** The boundary of a function declared [noexcept]. *)
Definition noexcept {A} (m : M A) : M A :=
  fun s =>
    match m s with
    | Throw e _ => Terminate e
    | r => r
    end.

Notation "x <- c ;; k" := (bind c (fun x => k))
  (at level 100, c at next level, right associativity).
Notation "c ;;; k" := (bind c (fun _ => k))
  (at level 100, right associativity).

(** [*p] for a pointer [p]. *)
Definition deref (p : node) : M node_t :=
  fun s =>
    match p with
    | None => Undefined null_dereference
    | Some a =>
      match store s !! a with
      | Some x => Ok x s
      | None => Undefined dangling_pointer
      end
    end.

(** [p->f], read. *)
Definition field {A} (f : node_t -> A) (p : node) : M A :=
  x <- deref p ;; ret (f x).

(** [p->f = v], as the update [upd] of the object [p] points to. *)
Definition assign (p : node) (upd : node_t -> node_t) : M unit :=
  x <- deref p ;;
  match p with
  | Some a => modify (fun s => set_store (<[a := upd x]> (store s)) s)
  | None => undefined null_dereference
  end.

(** [new node_t(...)] *)
Definition new_node (x : node_t) : M node :=
  fun s =>
    let a := next_addr s in
    Ok (Some a) (set_next_addr (Pos.succ a) (set_store (<[a := x]> (store s)) s)).

(** [for (int i = lo; i < lo + count; ++i) body(i);] *)
Fixpoint for_loop (count : nat) (lo : Z) (body : Z -> M unit) : M unit :=
  match count with
  | O => ret tt
  | S count => body lo ;;; for_loop count (lo + 1) body
  end.

(** Modelled from the spec: [node_t::reset(key, op)] of [rbt.hpp] is not in this
    file; "a node's key/operator are overwritten (reset) rather than
    reallocated when reused" ([node_data_t::reset] sets [op]). *)
Definition reset (n : node) (k : time_pt) (o : op_desc) : M unit :=
  assign n (fun x => set_op o (set_key k x)).

(** Modelled from the spec: [rb_tree::size()] of [rbt.hpp] is not in this file;
    "subtree size is maintained for diagnostics and size queries": the size
    of the tree is the subtree count [N] of its root, 0 for the empty tree. *)
Definition tree_size_query : M Z :=
  r <- gets (fun s => root (tree s)) ;;
  match r with
  | None => ret 0
  | Some _ => field N r
  end.

(** Modelled from the spec: [rb_tree::clear_modified()] of [rbt.hpp] is not in
    this file; cancel and confirm end by "clearing any transient flags": the
    walk clears the modified flag of every node of the tree. *)
Fixpoint clear_modified_impl (fuel : nat) (n : node) : M unit :=
  match fuel with
  | O => out_of_fuel
  | S fuel =>
    match n with
    | None => ret tt
    | Some _ =>
      l <- field left n ;;
      clear_modified_impl fuel l ;;;
      r <- field right n ;;
      clear_modified_impl fuel r ;;;
      assign n (set_modified false)
    end
  end.

Definition clear_modified (fuel : nat) : M unit :=
  r <- gets (fun s => root (tree s)) ;;
  clear_modified_impl fuel r.

(** Modelled from the spec: [check_cache_integrity] is only declared in this
    file; it is the "optional, cost-bearing self-check" whose discrepancies
    are assertion failures: it reads the caches and changes nothing. *)
Definition check_cache_integrity : M unit := ret tt.

(** [inserted_nodes[j]], read and write. *)
Definition inserted_nodes_at (j : Z) : M (node * bool) :=
  fun s =>
    match (if j <? 0 then None else inserted_nodes s !! Z.to_nat j) with
    | Some r => Ok r s
    | None => Undefined out_of_range
    end.

Definition inserted_nodes_set (j : Z) (r : node * bool) : M unit :=
  inserted_nodes_at j ;;;
  modify (fun s => set_inserted_nodes (<[Z.to_nat j := r]> (inserted_nodes s)) s).

Definition trial_index : M Z := gets (fun s => nodes_storage.index (trial_nodes s)).

(** A call of a [nodes_storage] member that indexes the vector. *)
Definition trial_call {A} (f : nodes_storage.t -> option (A * nodes_storage.t)) : M A :=
  fun s =>
    match f (trial_nodes s) with
    | Some (a, p) => Ok a (set_trial_nodes p s)
    | None => Undefined out_of_range
    end.

Definition backup_call {A} (f : nodes_storage.t -> option (A * nodes_storage.t)) : M A :=
  fun s =>
    match f (backup_nodes s) with
    | Some (a, p) => Ok a (set_backup_nodes p s)
    | None => Undefined out_of_range
    end.

(** ** Trial insertion *)

(** [try_insert_impl(h, n)]: ordinary binary-search-tree insertion of the
    detached node [n] below [h]. *)
Fixpoint try_insert_impl (fuel : nat) (h n : node) : M node :=
  match fuel with
  | O => out_of_fuel
  | S fuel =>
    match h with
    | None => ret n
    | Some _ =>
      hk <- field key h ;;
      nk <- field key n ;;
      if hk =? nk then throw rbt_insert_error
      else
        let smaller := comparator nk hk in
        c0 <- field (fun x => child x smaller) h ;;
        c <- try_insert_impl fuel c0 n ;;
        assign h (set_child smaller c) ;;;
        idx <- trial_index ;;
        r <- inserted_nodes_at idx ;;
        match fst r with
        | None => inserted_nodes_set idx (h, smaller)
        | Some _ => ret tt
        end ;;;
        assign h (set_modified true) ;;;
        ret h
    end
  end.

(** [cancel_insert_impl()]: unlink all glued trial nodes. *)
Definition cancel_insert_impl : M unit :=
  idx <- trial_index ;;
  for_loop (Z.to_nat (idx + 1)) 0 (fun i =>
    r <- inserted_nodes_at i ;;
    match fst r with
    | None => ret tt
    | Some _ => assign (fst r) (set_child (snd r) None)
    end) ;;;
  ts <- gets tree_size ;;
  idx' <- trial_index ;;
  if ts =? idx' + 1 then modify (set_root None) else ret tt.

(** [~impurity_trace()] *)
Definition destructor : M unit := cancel_insert_impl.

(** [try_insert(tau, op)] *)
Definition try_insert (fuel : nat) (tau : time_pt) (o : op_desc) : M unit :=
  idx <- trial_index ;;
  if 3 <? idx then throw (runtime_error "Error : more than 4 insertions ")
  else
    n <- trial_call nodes_storage.take_next ;;
    idx' <- trial_index ;;
    inserted_nodes_set idx' (None, false) ;;;
    reset n tau o ;;;
    r <- gets (fun s => root (tree s)) ;;
    r' <- try_insert_impl fuel r n ;;
    modify (set_root r') ;;;
    modify (fun s => set_tree_size (tree_size s + 1) s).

(** [cancel_insert()] *)
Definition cancel_insert (fuel : nat) : M unit :=
  cancel_insert_impl ;;;
  modify (fun s => set_trial_nodes (snd (nodes_storage.reset_index (trial_nodes s))) s) ;;;
  sz <- tree_size_query ;;
  modify (set_tree_size sz) ;;;
  clear_modified fuel ;;;
  check_cache_integrity.

(** ** Trees in the store *)

(** The shape of a linked tree: which node objects it is made of and how
    they hang together. *)
Inductive shape :=
| Leaf
| Br (l : shape) (a : addr) (r : shape).

Definition shape_root (t : shape) : node :=
  match t with
  | Leaf => None
  | Br _ a _ => Some a
  end.

(** The nodes of a tree, in in-order. *)
Fixpoint addrs (t : shape) : list addr :=
  match t with
  | Leaf => []
  | Br l a r => addrs l ++ a :: addrs r
  end.

Fixpoint height (t : shape) : nat :=
  match t with
  | Leaf => O
  | Br l _ r => S (Nat.max (height l) (height r))
  end.

(** [tree_at h t]: in the store [h] the node objects of [t] exist and their
    [left] and [right] pointers link them as [t] says. *)
Fixpoint tree_at (h : gmap addr node_t) (t : shape) : Prop :=
  match t with
  | Leaf => True
  | Br l a r =>
    (exists x, h !! a = Some x /\ left x = shape_root l /\ right x = shape_root r)
    /\ tree_at h l /\ tree_at h r
  end.

(** The sub-tree a descent continues in. *)
Definition sub (is_left : bool) (l r : shape) : shape := if is_left then l else r.

(** *** What [try_insert_impl] computes, as functions of the shape *)

Definition ins_root (t : shape) (na : addr) : node :=
  match t with
  | Leaf => Some na
  | Br _ a _ => Some a
  end.

(** The shape after the splice. *)
Fixpoint ins_shape (h : gmap addr node_t) (k : time_pt) (na : addr) (t : shape) : shape :=
  match t with
  | Leaf => Br Leaf na Leaf
  | Br l a r =>
    match h !! a with
    | None => t
    | Some x =>
      if comparator k (key x) then Br (ins_shape h k na l) a r
      else Br l a (ins_shape h k na r)
    end
  end.

(** The nodes the descent for key [k] goes through, root first. *)
Fixpoint descent (h : gmap addr node_t) (k : time_pt) (t : shape) : list addr :=
  match t with
  | Leaf => []
  | Br l a r =>
    match h !! a with
    | None => []
    | Some x => a :: descent h k (sub (comparator k (key x)) l r)
    end
  end.

(** The node that receives the new child, and on which side. *)
Fixpoint splice_point (h : gmap addr node_t) (k : time_pt) (t : shape) : option (addr * bool) :=
  match t with
  | Leaf => None
  | Br l a r =>
    match h !! a with
    | None => None
    | Some x =>
      let sm := comparator k (key x) in
      match sub sm l r with
      | Leaf => Some (a, sm)
      | Br _ _ _ => splice_point h k (sub sm l r)
      end
    end
  end.

(** The store after the splice. *)
Fixpoint ins_store (k : time_pt) (na : addr) (t : shape) (h : gmap addr node_t) : gmap addr node_t :=
  match t with
  | Leaf => h
  | Br l a r =>
    match h !! a with
    | None => h
    | Some x =>
      let sm := comparator k (key x) in
      <[a := set_modified true (set_child sm (ins_root (sub sm l r) na) x)]>
        (ins_store k na (sub sm l r) h)
    end
  end.

Definition ins_inserted_nodes (h : gmap addr node_t) (k : time_pt) (t : shape) (idx : Z)
    (rs : list (node * bool)) : list (node * bool) :=
  match splice_point h k t with
  | Some (a, sm) => <[Z.to_nat idx := (Some a, sm)]> rs
  | None => rs
  end.

(** Does the descent for [k] meet a node with key [k]? *)
Fixpoint descent_hits (h : gmap addr node_t) (k : time_pt) (t : shape) : bool :=
  match t with
  | Leaf => false
  | Br l a r =>
    match h !! a with
    | None => false
    | Some x => (key x =? k) || descent_hits h k (sub (comparator k (key x)) l r)
    end
  end.

(** A sequence of trial insertions. *)
Fixpoint try_inserts (fuel : nat) (ops : list (time_pt * op_desc)) : M unit :=
  match ops with
  | [] => ret tt
  | (tau, o) :: rest => try_insert fuel tau o ;;; try_inserts fuel rest
  end.

(** ** Clearing the modified flags *)
Fixpoint clear_store (t : shape) (h : gmap addr node_t) : gmap addr node_t :=
  match t with
  | Leaf => h
  | Br l a r =>
    let h2 := clear_store r (clear_store l h) in
    match h2 !! a with
    | Some x => <[a := set_modified false x]> h2
    | None => h2
    end
  end.

(** What a node carries besides its links and its modified flag. *)
Definition payload (x : node_t) : op_desc * cache_t * time_pt * bool * Z * bool :=
  (op x, cache x, key x, color x, N x, delete_flag x).

(** Entry [j], with [lo <= j < lo + c], of [inserted_nodes] names node [b] as
    a parent on side [sm]. *)
Definition recorded (rs : list (node * bool)) (lo c : nat) (b : addr) (sm : bool) : Prop :=
  exists j, (lo <= j < lo + c)%nat /\ rs !! j = Some (Some b, sm).

(** The members no insertion touches. *)
Definition rest (s : impurity_trace) :=
  (next_addr s, use_norm_as_weight s, measure_density_matrix s, n_blocks s,
   density_matrix s, atomic_rho s, atomic_z s, atomic_norm s,
   removed_nodes s, removed_keys s, backup_nodes s).

(** The pool holds distinct detached nodes, none of them in the tree. *)
Definition pool_detached (h : gmap addr node_t) (pool : list node) (t : shape) : Prop :=
  NoDup pool
  /\ forall n, n ∈ pool ->
       exists a x, n = Some a /\ h !! a = Some x /\ left x = None /\ right x = None
                   /\ a ∉ addrs t.

(** A state with no transaction pending: the tree [t] hangs at the root, no
    node of it is marked modified, [tree_size] is the size of the tree, and
    no trial node is in use. *)
Record quiescent (s : impurity_trace) (t : shape) : Prop := {
  q_root : root (tree s) = shape_root t;
  q_tree : tree_at (store s) t;
  q_nodup : NoDup (addrs t);
  q_clean : forall a x, a ∈ addrs t -> store s !! a = Some x -> modified x = false;
  q_size : tree_size s = Z.of_nat (length (addrs t));
  q_count : forall a x, shape_root t = Some a -> store s !! a = Some x ->
                        N x = Z.of_nat (length (addrs t));
  q_index : nodes_storage.index (trial_nodes s) = -1;
  q_pool : pool_detached (store s) (nodes_storage.nodes (trial_nodes s)) t
}.

(** The state [s] after [k] trial insertions into the quiescent state [s0]:
    the tree is [t], and the nodes of the original tree [t0] differ from
    what they were only by modified flags and by the links that
    [inserted_nodes] records. *)
Record pending (s0 : impurity_trace) (t0 : shape) (s : impurity_trace) (t : shape) (k : nat)
  : Prop := {
  p_pool : trial_nodes s
           = nodes_storage.mk (nodes_storage.n_blocks (trial_nodes s0))
               (nodes_storage.nodes (trial_nodes s0)) (Z.of_nat k - 1);
  p_root : root (tree s) = shape_root t;
  p_tree : tree_at (store s) t;
  p_nodup : NoDup (addrs t);
  p_addrs : forall b, b ∈ addrs t ->
      b ∈ addrs t0
      \/ exists j, (j < k)%nat /\ nodes_storage.nodes (trial_nodes s0) !! j = Some (Some b);
  p_root0 : shape_root t0 <> None -> shape_root t = shape_root t0;
  p_free : forall j n, (k <= j)%nat ->
      nodes_storage.nodes (trial_nodes s0) !! j = Some n ->
      exists a x, n = Some a /\ store s !! a = Some x /\ left x = None /\ right x = None;
  p_orig : forall b x0, b ∈ addrs t0 -> store s0 !! b = Some x0 ->
      exists x, store s !! b = Some x /\ payload x = payload x0
        /\ forall sm,
            (child x sm = child x0 sm /\ ~ recorded (inserted_nodes s) 0 k b sm)
            \/ (child x0 sm = None /\ recorded (inserted_nodes s) 0 k b sm);
  p_frame : forall b, b ∉ addrs t0 -> Some b ∉ nodes_storage.nodes (trial_nodes s0) ->
      store s !! b = store s0 !! b;
  p_rec : forall j, (j < k)%nat ->
      exists r, inserted_nodes s !! j = Some r
        /\ forall b, fst r = Some b ->
             is_Some (store s !! b)
             /\ (b ∈ addrs t0 \/ Some b ∈ nodes_storage.nodes (trial_nodes s0));
  p_size : tree_size s = tree_size s0 + Z.of_nat k;
  p_rest : rest s = rest s0
}.

(** ** Trial deletion *)

(** [for (auto& n : l) body(n);] *)
Fixpoint for_each {A} (l : list A) (body : A -> M unit) : M unit :=
  match l with
  | [] => ret tt
  | a :: l => body a ;;; for_each l body
  end.

(** Modelled from the spec: [find_if] of [rbt.hpp] is not in this file; the
    node is "found by an in-order walk with a matching predicate", "a single
    pass with early termination at the match".  The predicate is a closure:
    [C] is the type of what it captures by reference. *)
Fixpoint find_if_impl {C} (fuel : nat) (f : node -> C -> M (bool * C)) (n : node) (c : C)
  : M (node * C) :=
  match fuel with
  | O => out_of_fuel
  | S fuel =>
    match n with
    | None => ret (None, c)
    | Some _ =>
      l <- field left n ;;
      rl <- find_if_impl fuel f l c ;;
      match fst rl with
      | Some _ => ret rl
      | None =>
        rf <- f n (snd rl) ;;
        if fst rf then ret (n, snd rf)
        else
          r <- field right n ;;
          find_if_impl fuel f r (snd rf)
      end
    end
  end.

Definition find_if {C} (fuel : nat) (f : node -> C -> M (bool * C)) (c : C) : M (node * C) :=
  r <- gets (fun s => root (tree s)) ;;
  find_if_impl fuel f r c.

(** Modelled from the spec: [rb_tree::set_modified_from_root_to(key)] of
    [rbt.hpp] is not in this file; it marks "all nodes on path from node to
    root as modified": the search for [key] from the root marks every node
    it goes through, the node with that key included. *)
Fixpoint set_modified_impl (fuel : nat) (h : node) (k : time_pt) : M unit :=
  match fuel with
  | O => out_of_fuel
  | S fuel =>
    match h with
    | None => ret tt
    | Some _ =>
      assign h (set_modified true) ;;;
      hk <- field key h ;;
      if hk =? k then ret tt
      else
        c <- field (fun x => child x (comparator k hk)) h ;;
        set_modified_impl fuel c k
    end
  end.

Definition set_modified_from_root_to (fuel : nat) (k : time_pt) : M unit :=
  r <- gets (fun s => root (tree s)) ;;
  set_modified_impl fuel r k.

(** Does the operator of a node have the given dagger and block index? *)
Definition op_matches (block_idx : Z) (dag : bool) (o : op_desc) : bool :=
  Bool.eqb (dagger o) dag && (block_index o =? block_idx).

(** The closure of [try_delete]; it captures the counter [i] by reference:
    [if (no->op.dagger == dagger && no->op.block_index == block_index) ++i;
     return i == n + 1;] *)
Definition try_delete_pred (n : Z) (block_idx : Z) (dag : bool) (no : node) (i : Z)
  : M (bool * Z) :=
  o <- field op no ;;
  let i' := if op_matches block_idx dag o then i + 1 else i in
  ret (i' =? n + 1, i').

(** [try_delete(n, block_index, dagger)] *)
Definition try_delete (fuel : nat) (n : Z) (block_idx : Z) (dag : bool) : M time_pt :=
  noexcept (
    xi <- find_if fuel (try_delete_pred n block_idx dag) 0 ;;
    let x := fst xi in
    modify (fun s => set_removed_nodes (removed_nodes s ++ [x]) s) ;;;
    k <- field key x ;;
    modify (fun s => set_removed_keys (removed_keys s ++ [k]) s) ;;;
    k1 <- field key x ;;
    set_modified_from_root_to fuel k1 ;;;
    assign x (set_delete_flag true) ;;;
    modify (fun s => set_tree_size (tree_size s - 1) s) ;;;
    field key x).

(** [cancel_delete()] *)
Definition cancel_delete (fuel : nat) : M unit :=
  rn <- gets removed_nodes ;;
  for_each rn (fun n => assign n (set_delete_flag false)) ;;;
  modify (set_removed_nodes []) ;;;
  modify (set_removed_keys []) ;;;
  sz <- tree_size_query ;;
  modify (set_tree_size sz) ;;;
  clear_modified fuel ;;;
  check_cache_integrity.

(** [cancel_shift()] *)
Definition cancel_shift (fuel : nat) : M unit :=
  cancel_insert_impl ;;;
  modify (fun s => set_trial_nodes (snd (nodes_storage.reset_index (trial_nodes s))) s) ;;;
  rn <- gets removed_nodes ;;
  for_each rn (fun n => assign n (set_delete_flag false)) ;;;
  modify (set_removed_nodes []) ;;;
  modify (set_removed_keys []) ;;;
  sz <- tree_size_query ;;
  modify (set_tree_size sz) ;;;
  clear_modified fuel ;;;
  check_cache_integrity.

(** ** Replacement *)

(** [make_new_node()] of the pool: [new node_t(time_pt{}, node_data_t{{}, n_blocks}, false, 1)]. *)
Definition make_new_node (nb : Z) : M node :=
  new_node (node_new 0 op_desc_default nb false 1).

(** [backup_nodes.reserve(size)]; the pool grows to [size] nodes. *)
Definition backup_reserve (size : Z) : M unit :=
  len <- gets (fun s => Z.of_nat (length (nodes_storage.nodes (backup_nodes s)))) ;;
  if len <? size then
    for_loop (Z.to_nat (size - len)) len (fun _ =>
      nb <- gets (fun s => nodes_storage.n_blocks (backup_nodes s)) ;;
      n <- make_new_node nb ;;
      modify (fun s => set_backup_nodes (nodes_storage.push_back n (backup_nodes s)) s))
  else ret tt.

(** [v[j]] on a [std::vector]. *)
Definition vector_at {A} (v : list A) (j : Z) : M A :=
  match (if j <? 0 then None else v !! Z.to_nat j) with
  | Some a => ret a
  | None => undefined out_of_range
  end.

Definition node_eqb (a b : node) : bool := bool_decide (a = b).

(** [try_replace_impl(n, substitute_c, substitute_c_dag)] *)
Fixpoint try_replace_impl (fuel : nat) (n : node) (substitute_c substitute_c_dag : list op_desc)
  : M node :=
  match fuel with
  | O => out_of_fuel
  | S fuel =>
    nl <- field left n ;;
    new_left <- match nl with
                | Some _ => try_replace_impl fuel nl substitute_c substitute_c_dag
                | None => ret None
                end ;;
    nr <- field right n ;;
    new_right <- match nr with
                 | Some _ => try_replace_impl fuel nr substitute_c substitute_c_dag
                 | None => ret None
                 end ;;
    o <- field op n ;;
    new_op <- vector_at (if dagger o then substitute_c_dag else substitute_c) (linear_index o) ;;
    let op_changed := negb (linear_index new_op =? linear_index o) in
    nl' <- field left n ;;
    nr' <- field right n ;;
    if op_changed || negb (node_eqb new_left nl') || negb (node_eqb new_right nr') then
      k <- field key n ;;
      c <- field color n ;;
      sz <- field N n ;;
      new_node <- backup_call (nodes_storage.swap_next n) ;;
      (if op_changed then reset new_node k new_op else reset new_node k o) ;;;
      assign new_node (set_left new_left) ;;;
      assign new_node (set_right new_right) ;;;
      assign new_node (set_color c) ;;;
      assign new_node (set_N sz) ;;;
      assign new_node (set_modified true) ;;;
      ret new_node
    else ret n
  end.

(** [cancel_replace_impl(n)] *)
Fixpoint cancel_replace_impl (fuel : nat) (n : node) : M node :=
  match fuel with
  | O => out_of_fuel
  | S fuel =>
    let n_in_tree := n in
    m <- match n_in_tree with
         | Some _ => field modified n_in_tree
         | None => ret false
         end ;;
    n' <- (if m then backup_call (nodes_storage.swap_prev n) else ret n) ;;
    r <- field right n_in_tree ;;
    match r with
    | Some _ => cancel_replace_impl fuel r ;;; ret tt
    | None => ret tt
    end ;;;
    l <- field left n_in_tree ;;
    match l with
    | Some _ => cancel_replace_impl fuel l ;;; ret tt
    | None => ret tt
    end ;;;
    ret n'
  end.

(** [try_replace(substitute_c, substitute_c_dag)] *)
Definition try_replace (fuel : nat) (substitute_c substitute_c_dag : list op_desc) : M unit :=
  noexcept (
    ts <- gets tree_size ;;
    if ts =? 0 then ret tt
    else
      is_reset <- gets (fun s => nodes_storage.is_index_reset (backup_nodes s)) ;;
      if negb is_reset then throw (runtime_error "impurity_trace: improper use of try_replace()")
      else
        sz <- tree_size_query ;;
        backup_reserve sz ;;;
        r <- gets (fun s => root (tree s)) ;;
        r' <- try_replace_impl fuel r substitute_c substitute_c_dag ;;
        modify (set_root r')).

(** Modelled from the spec: [update_cache] is only declared in this file; the
    cache engine "recomputes, bottom-up, the cache entries of every node
    reachable from a modified marker", and "a node whose modified flag is
    clear ... must be skipped entirely".  What a recomputed entry holds is
    numerical and left as the parameter [recompute], a function of the
    node and of its two children. *)
Fixpoint update_cache_impl (recompute : option node_t -> node_t -> option node_t -> cache_t)
    (fuel : nat) (n : node) : M unit :=
  match fuel with
  | O => out_of_fuel
  | S fuel =>
    match n with
    | None => ret tt
    | Some _ =>
      m <- field modified n ;;
      if negb m then ret tt
      else
        l <- field left n ;;
        update_cache_impl recompute fuel l ;;;
        r <- field right n ;;
        update_cache_impl recompute fuel r ;;;
        xl <- match l with Some _ => x <- deref l ;; ret (Some x) | None => ret None end ;;
        xr <- match r with Some _ => x <- deref r ;; ret (Some x) | None => ret None end ;;
        x <- deref n ;;
        assign n (set_cache (recompute xl x xr))
    end
  end.

Definition update_cache (recompute : option node_t -> node_t -> option node_t -> cache_t)
    (fuel : nat) : M unit :=
  r <- gets (fun s => root (tree s)) ;;
  update_cache_impl recompute fuel r.

(** [confirm_replace()] *)
Definition confirm_replace (recompute : option node_t -> node_t -> option node_t -> cache_t)
    (fuel : nat) : M unit :=
  modify (fun s => set_backup_nodes (snd (nodes_storage.reset_index (backup_nodes s))) s) ;;;
  update_cache recompute fuel ;;;
  clear_modified fuel ;;;
  check_cache_integrity.

(** [cancel_replace()] *)
Definition cancel_replace (fuel : nat) : M unit :=
  ts <- gets tree_size ;;
  is_reset <- gets (fun s => nodes_storage.is_index_reset (backup_nodes s)) ;;
  if (ts =? 0) || is_reset then ret tt
  else
    r <- gets (fun s => root (tree s)) ;;
    r' <- cancel_replace_impl fuel r ;;
    modify (set_root r') ;;;
    check_cache_integrity.

(** ** A small configuration

    Three operators at times 30 > 20 > 10 (the comparator is [std::greater],
    so the larger time is to the left), four detached trial nodes and one
    detached backup node.  *)

Definition ex_node (k : time_pt) (o : op_desc) (l r : node) (n : Z) : node_t :=
  mk_node o (cache_new 1) k l r false n false false.

Definition ex_pool_node : node_t := node_new 0 op_desc_default 1 false 1.

Definition ex_store : gmap addr node_t :=
  <[1%positive := ex_node 20 (mk_op_desc 0 true 0) (Some 2%positive) (Some 3%positive) 3]>
    (<[2%positive := ex_node 30 (mk_op_desc 0 false 0) None None 1]>
       (<[3%positive := ex_node 10 (mk_op_desc 0 true 1) None None 1]>
          (<[11%positive := ex_pool_node]>
             (<[12%positive := ex_pool_node]>
                (<[13%positive := ex_pool_node]>
                   (<[14%positive := ex_pool_node]>
                      (<[21%positive := ex_pool_node]> ∅))))))).

Definition ex_shape : shape :=
  Br (Br Leaf 2%positive Leaf) 1%positive (Br Leaf 3%positive Leaf).

Definition ex_state : impurity_trace :=
  mk_state ex_store 100%positive false false 1 [] [] 0%R 0%R (mk_tree (Some 1%positive)) 3
    (nodes_storage.mk 1 [Some 11%positive; Some 12%positive; Some 13%positive; Some 14%positive]
       (-1))
    [(None, false); (None, false); (None, false); (None, false)] [] []
    (nodes_storage.mk 1 [Some 21%positive] (-1)).

(** The state a call leaves behind, whether it returned or threw. *)
Definition state_after {A} (r : result A) (dflt : impurity_trace) : impurity_trace :=
  match r with
  | Ok _ s => s
  | Throw _ s => s
  | _ => dflt
  end.

(** The small configuration with a deletion pending (first creation
    operator of block 0), and with four trial insertions pending. *)
Definition ex_pending_delete : impurity_trace :=
  state_after (try_delete 10 0 0 true ex_state) ex_state.

Definition ex_four_trials : impurity_trace :=
  state_after
    (try_inserts 10 [(25, mk_op_desc 0 true 0); (5, mk_op_desc 0 false 0);
                     (15, mk_op_desc 0 true 0); (35, mk_op_desc 0 false 0)] ex_state)
    ex_state.

(** ** Ordered trees, paths and in-order search, as functions of the shape *)

(** The tree is a search tree for the comparator [std::greater]: the keys to
    the left of a node are larger, the keys to its right are smaller. *)
Fixpoint bst (h : gmap addr node_t) (t : shape) : Prop :=
  match t with
  | Leaf => True
  | Br l a r =>
    (exists x, h !! a = Some x
       /\ (forall b y, b ∈ addrs l -> h !! b = Some y -> key x < key y)
       /\ (forall b y, b ∈ addrs r -> h !! b = Some y -> key y < key x))
    /\ bst h l /\ bst h r
  end.

(** The nodes on the path from the root of [t] to its node [b], both
    included; empty when [b] is not a node of [t]. *)
Fixpoint path_to (t : shape) (b : addr) : list addr :=
  match t with
  | Leaf => []
  | Br l a r =>
    if decide (b = a) then [a]
    else if decide (b ∈ addrs l) then a :: path_to l b
    else if decide (b ∈ addrs r) then a :: path_to r b
    else []
  end.

(** The nodes the search for key [k] goes through, the node with key [k]
    included when there is one. *)
Fixpoint search_path (h : gmap addr node_t) (k : time_pt) (t : shape) : list addr :=
  match t with
  | Leaf => []
  | Br l a r =>
    match h !! a with
    | None => []
    | Some x =>
      if key x =? k then [a]
      else a :: search_path h k (sub (comparator k (key x)) l r)
    end
  end.

(** The store after [set_modified_impl]. *)
Fixpoint mark_path (k : time_pt) (t : shape) (h : gmap addr node_t) : gmap addr node_t :=
  match t with
  | Leaf => h
  | Br l a r =>
    match h !! a with
    | None => h
    | Some x =>
      let h1 := <[a := set_modified true x]> h in
      if key x =? k then h1 else mark_path k (sub (comparator k (key x)) l r) h1
    end
  end.

(** An in-order scan with a predicate that threads a state, stopping at the
    first node the predicate accepts. *)
Fixpoint scan {C} (g : addr -> C -> bool * C) (l : list addr) (c : C) : node * C :=
  match l with
  | [] => (None, c)
  | a :: l =>
    let r := g a c in
    if fst r then (Some a, snd r) else scan g l (snd r)
  end.

Definition node_matches (h : gmap addr node_t) (block_idx : Z) (dag : bool) (a : addr) : bool :=
  match h !! a with
  | Some x => op_matches block_idx dag (op x)
  | None => false
  end.

(** The closure of [try_delete] on the nodes of the store [h]. *)
Definition delete_step (h : gmap addr node_t) (n block_idx : Z) (dag : bool) (a : addr) (i : Z)
  : bool * Z :=
  let i' := if node_matches h block_idx dag a then i + 1 else i in
  (i' =? n + 1, i').

(** A predicate that also logs the nodes it is called on. *)
Definition logged {C} (f : node -> C -> M (bool * C)) (no : node) (cl : C * list node)
  : M (bool * (C * list node)) :=
  r <- f no (fst cl) ;;
  ret (fst r, (snd r, snd cl ++ [no])).

Definition logged_step {C} (g : addr -> C -> bool * C) (a : addr) (cl : C * list node)
  : bool * (C * list node) :=
  let r := g a (fst cl) in
  (fst r, (snd r, snd cl ++ [Some a])).

(** ** The substitution pool during [try_replace_impl] *)

(** Node [b] sits in the pool [pool] at an index in [(i, i']]: a node taken
    out of the pool when the pool index moves from [i] to [i']. *)
Definition used (pool : list node) (i i' : Z) (b : addr) : Prop :=
  exists j, i < Z.of_nat j <= i' /\ pool !! j = Some (Some b).

(** Beyond index [i] the pool [pool] holds distinct nodes that exist in the
    store and are not among the nodes [old]. *)
Definition fresh_pool (old : list addr) (pool : list node) (i : Z) (h : gmap addr node_t) : Prop :=
  (forall j n, i < Z.of_nat j -> pool !! j = Some n ->
     exists p, n = Some p /\ (p ∉ old) /\ is_Some (h !! p))
  /\ (forall j1 j2 n, i < Z.of_nat j1 -> i < Z.of_nat j2 ->
        pool !! j1 = Some n -> pool !! j2 = Some n -> j1 = j2).

(** The backup pool of [s] still holds the nodes of [pool] beyond its index. *)
Definition pool_inv (pool : list node) (s : impurity_trace) : Prop :=
  -1 <= nodes_storage.index (backup_nodes s)
  /\ forall j, nodes_storage.index (backup_nodes s) < Z.of_nat j ->
       nodes_storage.nodes (backup_nodes s) !! j = pool !! j.

(** In the tree [t] every node that is not among the nodes [old] is marked
    modified, and below a node of [old] there are only nodes of [old]. *)
Fixpoint fresh_closed (old : list addr) (h : gmap addr node_t) (t : shape) : Prop :=
  match t with
  | Leaf => True
  | Br l a r =>
    if decide (a ∈ old) then forall b, b ∈ addrs t -> b ∈ old
    else (exists x, h !! a = Some x /\ modified x = true)
         /\ fresh_closed old h l /\ fresh_closed old h r
  end.

(** The members [try_replace_impl] does not touch. *)
Definition rest_replace (s : impurity_trace) :=
  (next_addr s, use_norm_as_weight s, measure_density_matrix s, n_blocks s,
   density_matrix s, atomic_rho s, atomic_z s, atomic_norm s, tree s, tree_size s,
   trial_nodes s, inserted_nodes s, removed_nodes s, removed_keys s,
   nodes_storage.n_blocks (backup_nodes s)).

(** The substitution tables map the operator [o] to an operator with the
    same linear index. *)
Definition keeps_index (substitute_c substitute_c_dag : list op_desc) (o : op_desc) : Prop :=
  0 <= linear_index o
  /\ exists o', (if dagger o then substitute_c_dag else substitute_c) !! Z.to_nat (linear_index o)
                = Some o'
                /\ linear_index o' = linear_index o.

(** What [try_replace_impl] makes of the operator [o] of a node: the entry
    of the table for its dagger at its linear index when that entry has
    another linear index, [o] itself when it has the same one; nothing when
    the table has no entry at that index. *)
Definition substitute (substitute_c substitute_c_dag : list op_desc) (o : op_desc)
  : option op_desc :=
  match (if linear_index o <? 0 then None
         else (if dagger o then substitute_c_dag else substitute_c)
                !! Z.to_nat (linear_index o)) with
  | Some new_op => Some (if negb (linear_index new_op =? linear_index o) then new_op else o)
  | None => None
  end.

(** The tree [t'] in the store [h'] is the tree [t] of the store [h] with its
    operators substituted: the same shape, node by node the same key, colour
    and subtree count, the operator [substitute] gives; a node of [t'] is
    the node of [t] at its place, or a node that is not among [old] and is
    marked modified. *)
Fixpoint relabelled (old : list addr) (c cd : list op_desc) (h h' : gmap addr node_t)
    (t t' : shape) : Prop :=
  match t, t' with
  | Leaf, Leaf => True
  | Br l a r, Br l' a' r' =>
    (exists x x', h !! a = Some x /\ h' !! a' = Some x'
       /\ key x' = key x /\ color x' = color x /\ N x' = N x
       /\ substitute c cd (op x) = Some (op x')
       /\ (a' = a \/ ((a' ∉ old) /\ modified x' = true)))
    /\ relabelled old c cd h h' l l' /\ relabelled old c cd h h' r r'
  | _, _ => False
  end.

(** The tables leave the operator of the node [b] as it is. *)
Definition unchanged (c cd : list op_desc) (h : gmap addr node_t) (b : addr) : Prop :=
  exists x, h !! b = Some x /\ substitute c cd (op x) = Some (op x).

(** The tree [t'] shares with [t] exactly the sub-trees in which no operator
    changes: a node of [t'] is the node of [t] at its place if and only if
    the tables leave every operator below and at that node as it is. *)
Fixpoint shares (c cd : list op_desc) (h : gmap addr node_t) (t t' : shape) : Prop :=
  match t, t' with
  | Leaf, Leaf => True
  | Br l a r, Br l' a' r' =>
    (a' = a <-> forall b, b ∈ addrs (Br l a r) -> unchanged c cd h b)
    /\ shares c cd h l l' /\ shares c cd h r r'
  | _, _ => False
  end.

(** The nodes of [t] that have a copy in [t'], each with its copy, in the
    order [try_replace_impl] makes the copies (children first). *)
Fixpoint copies (t t' : shape) : list (addr * addr) :=
  match t, t' with
  | Br l a r, Br l' a' r' =>
    copies l l' ++ copies r r' ++ (if decide (a' = a) then [] else [(a, a')])
  | _, _ => []
  end.

(** What a call of [try_replace_impl] on the tree [t] that returned the node
    [r] in the state [s'] has done: [r] is the root of a tree [t'] linked in
    the store of [s'], built from nodes of [t] left as they were and from
    nodes taken out of the pool, which are marked modified. *)
Record replace_post (old : list addr) (pool : list node) (c cd : list op_desc) (t : shape)
    (s : impurity_trace) (r : node) (s' : impurity_trace) (t' : shape) : Prop := {
  rp_root : r = shape_root t';
  rp_tree : tree_at (store s') t';
  rp_closed : fresh_closed old (store s') t';
  rp_addrs : forall b, b ∈ addrs t' ->
      b ∈ old
      \/ used pool (nodes_storage.index (backup_nodes s))
           (nodes_storage.index (backup_nodes s')) b;
  rp_frame : forall b,
      ~ used pool (nodes_storage.index (backup_nodes s))
          (nodes_storage.index (backup_nodes s')) b ->
      store s' !! b = store s !! b;
  rp_index : nodes_storage.index (backup_nodes s) <= nodes_storage.index (backup_nodes s');
  rp_pool : pool_inv pool s';
  rp_rest : rest_replace s' = rest_replace s;
  rp_same : r = shape_root t -> s' = s;
  rp_moved : r <> shape_root t ->
      nodes_storage.index (backup_nodes s) < nodes_storage.index (backup_nodes s');
  rp_eq : r = shape_root t -> t' = t;
  rp_rel : relabelled old c cd (store s) (store s') t t';
  rp_len : length (nodes_storage.nodes (backup_nodes s'))
           = length (nodes_storage.nodes (backup_nodes s));
  rp_count : nodes_storage.index (backup_nodes s')
             = nodes_storage.index (backup_nodes s) + Z.of_nat (length (copies t t'));
  rp_slots : forall k o cp, copies t t' !! k = Some (o, cp) ->
      nodes_storage.nodes (backup_nodes s')
        !! Z.to_nat (nodes_storage.index (backup_nodes s) + 1 + Z.of_nat k) = Some (Some o)
      /\ pool !! Z.to_nat (nodes_storage.index (backup_nodes s) + 1 + Z.of_nat k)
         = Some (Some cp);
  rp_below : forall j, Z.of_nat j <= nodes_storage.index (backup_nodes s) ->
      nodes_storage.nodes (backup_nodes s') !! j = nodes_storage.nodes (backup_nodes s) !! j;
  rp_shares : shares c cd (store s) t t'
}.

(** [new] hands out addresses that are not in use. *)
Definition alloc_ok (s : impurity_trace) : Prop :=
  forall b, is_Some (store s !! b) -> (b < next_addr s)%positive.

(** The members [reserve] does not touch. *)
Definition rest_reserve (s : impurity_trace) :=
  (use_norm_as_weight s, measure_density_matrix s, n_blocks s,
   density_matrix s, atomic_rho s, atomic_z s, atomic_norm s, tree s, tree_size s,
   trial_nodes s, inserted_nodes s, removed_nodes s, removed_keys s,
   nodes_storage.n_blocks (backup_nodes s), nodes_storage.index (backup_nodes s)).

(** ** The evaluator *)

(** The time-evolution scaling of the rows of a block. *)
Definition scale_rows (f : nat -> R) (m : matrix) : matrix :=
  imap (fun i row => map (fun v => (v * f i)%R) row) m.

Definition sum_list (l : list R) : R := fold_right Rplus 0%R l.

(** The sum of the diagonal of a block. *)
Definition diagonal_sum (m : matrix) : R :=
  sum_list (imap (fun i row => nth i row 0%R) m).

(** The sum of the squares of the entries of a block. *)
Definition sum_squares (m : matrix) : R :=
  sum_list (map (fun row => sum_list (map (fun v => (v * v)%R) row)) m).

(** The Frobenius norm of a collection of blocks. *)
Definition frobenius_norm (dm : list bool_and_matrix) : R :=
  sqrt (sum_list (map (fun bm => sum_squares (mat bm)) dm)).

(** The cache entry of the root, when there is a root. *)
Definition root_cache (s : impurity_trace) : option cache_t :=
  match root (tree s) with
  | Some a => cache <$> (store s !! a)
  | None => None
  end.

(** Modelled from the spec: the body of [compute] is not in this file.  A
    block "closes the cyclic trace only if its destination equals its
    origin"; a closing block contributes its cached matrix "weighted by the
    block's own time-evolution factor closing the cycle".  [closing_factor b
    i] is that factor for state [i] of block [b]; it comes from the
    eigenvalues of the block, which the accessor to the diagonalisation
    provides. *)
Definition closing_block (closing_factor : Z -> nat -> R) (c : cache_t) (b : nat)
  : bool_and_matrix :=
  match block_table c !! b, matrices c !! b with
  | Some dest, Some m =>
    if dest =? Z.of_nat b
    then mk_bool_and_matrix true (scale_rows (closing_factor (Z.of_nat b)) m)
    else mk_bool_and_matrix false []
  | _, _ => mk_bool_and_matrix false []
  end.

(** Modelled from the spec: the unnormalized density matrix, by block, that
    [compute] accumulates: it "walks every block available at the root,
    using the root cache entry for that block as origin". *)
Definition unnormalized_density_matrix (closing_factor : Z -> nat -> R) (s : impurity_trace)
  : list bool_and_matrix :=
  match root_cache s with
  | Some c => map (closing_block closing_factor c) (seq 0 (Z.to_nat (n_blocks s)))
  | None => []
  end.

(** Modelled from the spec: [compute()] with its default arguments
    ([p_yee < 0]: "the ordinary trace-based weight is always used"), over the
    real numbers.  It "returns a pair: the nonnegative sampling weight
    (either the Frobenius norm of the unnormalized density matrix or the
    absolute trace, selected by a persistent boolean configuration flag) and
    the signed scalar trace itself"; the trace is the sum of the diagonal
    contributions of the closing blocks. *)
Definition compute (closing_factor : Z -> nat -> R) : M (R * R) :=
  fun s =>
    let dm := unnormalized_density_matrix closing_factor s in
    let trace := sum_list (map (fun bm => diagonal_sum (mat bm)) dm) in
    let weight := if use_norm_as_weight s then frobenius_norm dm else Rabs trace in
    Ok (weight, trace) (set_density_matrix dm s).

(** ** The state a trial deletion leaves behind *)

(** The store after [try_delete] has found the node [x] of the tree [t]:
    the nodes the search for its key goes through are marked modified, and
    [x] is flagged for deletion. *)
Definition delete_store (t : shape) (x : addr) (h : gmap addr node_t) : gmap addr node_t :=
  match h !! x with
  | Some xn =>
    let h1 := mark_path (key xn) t h in
    match h1 !! x with
    | Some x1 => <[x := set_delete_flag true x1]> h1
    | None => h1
    end
  | None => h
  end.

Definition delete_post (t : shape) (x : addr) (k : time_pt) (s : impurity_trace)
  : impurity_trace :=
  set_tree_size (tree_size s - 1)
    (set_store (delete_store t x (store s))
       (set_removed_keys (removed_keys s ++ [k])
          (set_removed_nodes (removed_nodes s ++ [Some x]) s))).

(** A configuration with a single operator, at time 20. *)
Definition ex_single_store : gmap addr node_t :=
  <[1%positive := ex_node 20 (mk_op_desc 0 true 0) None None 1]>
    (<[11%positive := ex_pool_node]>
       (<[12%positive := ex_pool_node]>
          (<[13%positive := ex_pool_node]>
             (<[14%positive := ex_pool_node]>
                (<[21%positive := ex_pool_node]> ∅))))).

Definition ex_single_shape : shape := Br Leaf 1%positive Leaf.

Definition ex_single : impurity_trace :=
  mk_state ex_single_store 100%positive false false 1 [] [] 0%R 0%R
    (mk_tree (Some 1%positive)) 1
    (nodes_storage.mk 1 [Some 11%positive; Some 12%positive; Some 13%positive; Some 14%positive]
       (-1))
    [(None, false); (None, false); (None, false); (None, false)] [] []
    (nodes_storage.mk 1 [Some 21%positive] (-1)).

(** A sequence of trial deletions; the requests are [(n, block_index, dagger)]. *)
Fixpoint try_deletes (fuel : nat) (reqs : list (Z * Z * bool)) : M (list time_pt) :=
  match reqs with
  | [] => ret []
  | (n, block_idx, dag) :: reqs =>
    k <- try_delete fuel n block_idx dag ;;
    ks <- try_deletes fuel reqs ;;
    ret (k :: ks)
  end.

(** Two node objects that differ at most by their modified and delete flags. *)
Definition same_but_flags (y y0 : node_t) : Prop :=
  op y = op y0 /\ cache y = cache y0 /\ key y = key y0 /\ left y = left y0
  /\ right y = right y0 /\ color y = color y0 /\ N y = N y0.

(** The members no deletion touches. *)
Definition rest_delete (s : impurity_trace) :=
  (next_addr s, use_norm_as_weight s, measure_density_matrix s, n_blocks s,
   density_matrix s, atomic_rho s, atomic_z s, atomic_norm s, tree s,
   trial_nodes s, inserted_nodes s, backup_nodes s).

(** A state with no deletion pending: the search tree [t] hangs at the root,
    no node of it is marked modified or flagged for deletion, [tree_size]
    is the size the tree reports, and nothing is recorded as removed. *)
Record settled (s : impurity_trace) (t : shape) : Prop := {
  st_root : root (tree s) = shape_root t;
  st_tree : tree_at (store s) t;
  st_nodup : NoDup (addrs t);
  st_bst : bst (store s) t;
  st_flags : forall a x, a ∈ addrs t -> store s !! a = Some x ->
                         modified x = false /\ delete_flag x = false;
  st_size : tree_size_query s = Ok (tree_size s) s;
  st_removed_nodes : removed_nodes s = [];
  st_removed_keys : removed_keys s = []
}.

(** The state [s] after some trial deletions in the settled state [s0]: the
    nodes of the tree differ from what they were by flags only, and every
    flagged node is recorded in [removed_nodes]. *)
Record deleting (s0 : impurity_trace) (t : shape) (s : impurity_trace) : Prop := {
  dl_off : forall b, b ∉ addrs t -> store s !! b = store s0 !! b;
  dl_on : forall b y0, b ∈ addrs t -> store s0 !! b = Some y0 ->
      exists y, store s !! b = Some y /\ same_but_flags y y0
                /\ (delete_flag y = true -> Some b ∈ removed_nodes s);
  dl_removed : forall n, n ∈ removed_nodes s -> exists b, n = Some b /\ b ∈ addrs t;
  dl_rest : rest_delete s = rest_delete s0
}.

(** The store after the loop of [cancel_delete] over the removed nodes. *)
Fixpoint unflag_store (rn : list node) (h : gmap addr node_t) : gmap addr node_t :=
  match rn with
  | [] => h
  | n :: rn =>
    match n with
    | Some b =>
      match h !! b with
      | Some y => unflag_store rn (<[b := set_delete_flag false y]> h)
      | None => unflag_store rn h
      end
    | None => unflag_store rn h
    end
  end.

(** ** Undoing a replacement *)

(** In the tree [t'], the copy of [t], the nodes that are copies are marked
    modified and the nodes of [t] that were kept are not. *)
Fixpoint copy_marks (h : gmap addr node_t) (t t' : shape) : Prop :=
  match t, t' with
  | Leaf, Leaf => True
  | Br l a r, Br l' a' r' =>
    (exists x', h !! a' = Some x' /\ modified x' = negb (bool_decide (a' = a)))
    /\ copy_marks h l l' /\ copy_marks h r r'
  | _, _ => False
  end.

(** The vector [ns] of the pool is [ns0] with the copies [cs] put back at
    the places from [i0 + 1] on. *)
Definition undone (cs : list (addr * addr)) (i0 : Z) (ns0 ns : list node) : Prop :=
  length ns = length ns0
  /\ (forall k o cp, cs !! k = Some (o, cp) ->
        ns !! Z.to_nat (i0 + 1 + Z.of_nat k) = Some (Some cp))
  /\ (forall j, Z.of_nat j <= i0 \/ i0 + Z.of_nat (length cs) < Z.of_nat j ->
        ns !! j = ns0 !! j).

(** Substitution tables for the small configuration: the annihilation
    operator of index 0 becomes the one of index 1, the creation operators
    stay. *)
Definition ex_subst_c : list op_desc := [mk_op_desc 0 false 1].
Definition ex_subst_c_dag : list op_desc := [mk_op_desc 0 true 0; mk_op_desc 0 true 1].

(** The members neither a trial insertion nor a trial deletion touches. *)
Definition rest_shift (s : impurity_trace) :=
  (next_addr s, use_norm_as_weight s, measure_density_matrix s, n_blocks s,
   density_matrix s, atomic_rho s, atomic_z s, atomic_norm s, backup_nodes s).

(** A shift in the small configuration and in the configuration with a single
    operator: the first creation operator of block 0 is flagged, a trial
    node is put in at time 25. *)
Definition ex_shift (s : impurity_trace) : impurity_trace :=
  state_after
    (try_inserts 10 [(25, mk_op_desc 0 true 0)]
       (state_after (try_deletes 10 [(0, 0, true)] s) s))
    s.

(** The empty configuration. *)
Definition ex_empty : impurity_trace :=
  mk_state
    (<[11%positive := ex_pool_node]>
       (<[12%positive := ex_pool_node]>
          (<[13%positive := ex_pool_node]>
             (<[14%positive := ex_pool_node]>
                (<[21%positive := ex_pool_node]> ∅)))))
    100%positive false false 1 [] [] 0%R 0%R (mk_tree None) 0
    (nodes_storage.mk 1 [Some 11%positive; Some 12%positive; Some 13%positive; Some 14%positive]
       (-1))
    [(None, false); (None, false); (None, false); (None, false)] [] []
    (nodes_storage.mk 1 [Some 21%positive] (-1)).

(** * Properties *)

(** ** The monad *)
Lemma bind_Ok {A B} (m : M A) (k : A -> M B) s b s' :
  bind m k s = Ok b s' <-> exists a s1, m s = Ok a s1 /\ k a s1 = Ok b s'.
Proof.
  unfold bind. split.
  - destruct (m s) as [a s1| | | |]; try discriminate. eauto.
  - intros (a & s1 & -> & H). exact H.
Qed.

Lemma bind_eval {A B} (m : M A) (k : A -> M B) s a s1 :
  m s = Ok a s1 -> bind m k s = k a s1.
Proof. unfold bind. intros ->. reflexivity. Qed.

Lemma bind_gets {A B} (f : impurity_trace -> A) (k : A -> M B) s :
  bind (gets f) k s = k (f s) s.
Proof. reflexivity. Qed.

Lemma bind_modify {B} (f : impurity_trace -> impurity_trace) (k : unit -> M B) s :
  bind (modify f) k s = k tt (f s).
Proof. reflexivity. Qed.

Lemma bind_ret {A B} (a : A) (k : A -> M B) s : bind (ret a) k s = k a s.
Proof. reflexivity. Qed.

Lemma Ok_inj {A} (a b : A) s s' : Ok a s = Ok b s' -> a = b /\ s = s'.
Proof. intros H. split; congruence. Qed.

Lemma deref_Some s a x : store s !! a = Some x -> deref (Some a) s = Ok x s.
Proof. unfold deref. intros ->. reflexivity. Qed.

Lemma field_Some {A} (f : node_t -> A) s a x :
  store s !! a = Some x -> field f (Some a) s = Ok (f x) s.
Proof. intros H. unfold field. rewrite (bind_eval _ _ _ _ _ (deref_Some _ _ _ H)). reflexivity. Qed.

Lemma assign_Some upd s a x :
  store s !! a = Some x ->
  assign (Some a) upd s = Ok tt (set_store (<[a := upd x]> (store s)) s).
Proof. intros H. unfold assign. rewrite (bind_eval _ _ _ _ _ (deref_Some _ _ _ H)). reflexivity. Qed.

Lemma assign_run {B} upd (k : M B) s a x :
  store s !! a = Some x ->
  (assign (Some a) upd ;;; k) s = k (set_store (<[a := upd x]> (store s)) s).
Proof. intros H. rewrite (bind_eval _ _ _ _ _ (assign_Some _ _ _ _ H)). reflexivity. Qed.

Lemma set_child_same sm x : set_child sm (child x sm) x = x.
Proof. destruct x, sm; reflexivity. Qed.

Lemma child_set_child sm v x : child (set_child sm v x) sm = v.
Proof. destruct x, sm; reflexivity. Qed.

Lemma child_set_child_ne sm v x : child (set_child sm v x) (negb sm) = child x (negb sm).
Proof. destruct x, sm; reflexivity. Qed.

(** ** Shapes *)
Lemma shape_root_sub_child (h : gmap addr node_t) l a r x sm :
  h !! a = Some x -> left x = shape_root l -> right x = shape_root r ->
  child x sm = shape_root (sub sm l r).
Proof. intros _ Hl Hr. destruct sm; simpl; assumption. Qed.

Lemma tree_at_sub (h : gmap addr node_t) l r sm : tree_at h l -> tree_at h r -> tree_at h (sub sm l r).
Proof. destruct sm; simpl; auto. Qed.

Lemma addrs_sub_incl sm l r b : b ∈ addrs (sub sm l r) -> b ∈ (addrs l ++ addrs r).
Proof. destruct sm; simpl; set_solver. Qed.

Lemma NoDup_br l a r :
  NoDup (addrs (Br l a r)) ->
  NoDup (addrs l) /\ NoDup (addrs r) /\ (a ∉ addrs l) /\ (a ∉ addrs r)
  /\ (forall b, b ∈ addrs l -> b ∈ addrs r -> False).
Proof.
  simpl. intros H. apply NoDup_app in H as (Hl & Hd & Hr).
  apply NoDup_cons in Hr as (Har & Hr).
  repeat split; auto.
  - intros Hal. apply (Hd a Hal). set_solver.
  - intros b Hbl Hbr. apply (Hd b Hbl). set_solver.
Qed.

Lemma NoDup_sub sm l a r :
  NoDup (addrs (Br l a r)) -> NoDup (addrs (sub sm l r)) /\ (a ∉ addrs (sub sm l r)).
Proof. intros H. apply NoDup_br in H as (? & ? & ? & ? & ?). destruct sm; simpl; auto. Qed.

Lemma height_sub sm l r : (height (sub sm l r) <= Nat.max (height l) (height r))%nat.
Proof. destruct sm; simpl; lia. Qed.

(** A tree only depends on the links of its own nodes. *)
Lemma tree_at_links (h h' : gmap addr node_t) t :
  (forall b, b ∈ addrs t ->
     forall x, h !! b = Some x ->
     exists x', h' !! b = Some x' /\ left x' = left x /\ right x' = right x) ->
  tree_at h t -> tree_at h' t.
Proof.
  induction t as [|l IHl a r IHr]; simpl; [auto|].
  intros Hag ((x & Hx & Hxl & Hxr) & Hl & Hr).
  split; [|split].
  - destruct (Hag a ltac:(set_solver) x Hx) as (x' & Hx' & El & Er).
    exists x'. rewrite El, Er. auto.
  - apply IHl; [|exact Hl]. intros b Hb. apply Hag. set_solver.
  - apply IHr; [|exact Hr]. intros b Hb. apply Hag. set_solver.
Qed.

Lemma tree_at_frame (h h' : gmap addr node_t) t :
  (forall b, b ∈ addrs t -> h' !! b = h !! b) -> tree_at h t -> tree_at h' t.
Proof.
  intros Hag. apply tree_at_links. intros b Hb x Hx. exists x.
  rewrite (Hag b Hb). auto.
Qed.

Lemma tree_at_lookup (h : gmap addr node_t) t b : tree_at h t -> b ∈ addrs t -> is_Some (h !! b).
Proof.
  induction t as [|l IHl a r IHr]; simpl; [set_solver|].
  intros ((x & Hx & _) & Hl & Hr) Hb.
  apply elem_of_app in Hb as [Hb|Hb]; [auto|].
  apply elem_of_cons in Hb as [->|Hb]; [eauto|auto].
Qed.

(** ** State bookkeeping *)
Lemma state_eq s1 s2 :
  store s1 = store s2 -> next_addr s1 = next_addr s2 ->
  use_norm_as_weight s1 = use_norm_as_weight s2 ->
  measure_density_matrix s1 = measure_density_matrix s2 ->
  n_blocks s1 = n_blocks s2 -> density_matrix s1 = density_matrix s2 ->
  atomic_rho s1 = atomic_rho s2 -> atomic_z s1 = atomic_z s2 ->
  atomic_norm s1 = atomic_norm s2 -> tree s1 = tree s2 ->
  tree_size s1 = tree_size s2 -> trial_nodes s1 = trial_nodes s2 ->
  inserted_nodes s1 = inserted_nodes s2 -> removed_nodes s1 = removed_nodes s2 ->
  removed_keys s1 = removed_keys s2 -> backup_nodes s1 = backup_nodes s2 ->
  s1 = s2.
Proof. destruct s1, s2; simpl; intros; subst; reflexivity. Qed.

Ltac state_eq := apply state_eq; simpl; try reflexivity.

Lemma set_store_id s : set_store (store s) s = s.
Proof. destruct s; reflexivity. Qed.

Lemma set_inserted_nodes_id s : set_inserted_nodes (inserted_nodes s) s = s.
Proof. destruct s; reflexivity. Qed.

Lemma inserted_nodes_at_Some s j r :
  0 <= j -> inserted_nodes s !! Z.to_nat j = Some r -> inserted_nodes_at j s = Ok r s.
Proof.
  intros Hj H. unfold inserted_nodes_at.
  destruct (j <? 0) eqn:E; [lia|]. rewrite H. reflexivity.
Qed.

Lemma inserted_nodes_set_Some s j r0 r :
  0 <= j -> inserted_nodes s !! Z.to_nat j = Some r0 ->
  inserted_nodes_set j r s
  = Ok tt (set_inserted_nodes (<[Z.to_nat j := r]> (inserted_nodes s)) s).
Proof.
  intros Hj H. unfold inserted_nodes_set.
  rewrite (bind_eval _ _ _ _ _ (inserted_nodes_at_Some _ _ _ Hj H)). reflexivity.
Qed.

(** ** The splice of [try_insert_impl] *)
Lemma ins_store_frame k na t (h : gmap addr node_t) b :
  b ∉ addrs t -> ins_store k na t h !! b = h !! b.
Proof.
  induction t as [|l IHl a r IHr]; simpl; [reflexivity|].
  intros Hb. destruct (h !! a) as [x|] eqn:Hx; [|reflexivity].
  rewrite lookup_insert_ne by set_solver.
  destruct (comparator k (key x)); simpl; [apply IHl|apply IHr]; set_solver.
Qed.

Lemma splice_point_br (h : gmap addr node_t) k l a r :
  tree_at h (Br l a r) -> is_Some (splice_point h k (Br l a r)).
Proof.
  remember (Br l a r) as t eqn:Et. revert l a r Et.
  induction t as [|l' IHl a' r' IHr]; [discriminate|].
  intros l a r Et Ht. simpl in *.
  destruct Ht as ((x & Hx & _) & Hl & Hr). rewrite Hx.
  destruct (comparator k (key x)); simpl.
  - destruct l' as [|l1 a1 r1]; [eauto|]. eapply IHl; eauto.
  - destruct r' as [|l1 a1 r1]; [eauto|]. eapply IHr; eauto.
Qed.

Lemma splice_point_in (h : gmap addr node_t) k t a sm :
  splice_point h k t = Some (a, sm) -> a ∈ addrs t.
Proof.
  induction t as [|l IHl a' r IHr]; simpl; [discriminate|].
  destruct (h !! a') as [x|]; [|discriminate].
  destruct (comparator k (key x)); simpl.
  - destruct l; [intros [= -> _]; set_solver|]. intros H. apply IHl in H. set_solver.
  - destruct r; [intros [= -> _]; set_solver|]. intros H. apply IHr in H. set_solver.
Qed.

(** A call of [try_insert_impl] that returns has spliced the node in below
    the splice point, recorded the splice point and marked the descent. *)
Lemma try_insert_impl_Ok t :
  forall fuel s na xn bb r s',
    tree_at (store s) t -> NoDup (addrs t) -> na ∉ addrs t ->
    store s !! na = Some xn ->
    0 <= nodes_storage.index (trial_nodes s) ->
    inserted_nodes s !! Z.to_nat (nodes_storage.index (trial_nodes s)) = Some (None, bb) ->
    try_insert_impl fuel (shape_root t) (Some na) s = Ok r s' ->
    r = ins_root t na
    /\ s' = set_inserted_nodes
              (ins_inserted_nodes (store s) (key xn) t
                 (nodes_storage.index (trial_nodes s)) (inserted_nodes s))
              (set_store (ins_store (key xn) na t (store s)) s).
Proof.
  induction t as [|l IHl a r IHr]; intros fuel s na xn bb r0 s' Ht Hnd Hna Hxn Hidx Hent Hrun.
  - destruct fuel; [discriminate|]. simpl in Hrun. injection Hrun as <- <-.
    split; [reflexivity|]. unfold ins_inserted_nodes. simpl.
    rewrite set_store_id, set_inserted_nodes_id. reflexivity.
  - destruct fuel; [discriminate|].
    pose proof Ht as ((x & Hx & Hxl & Hxr) & Hl & Hr).
    simpl shape_root in Hrun. simpl try_insert_impl in Hrun.
    rewrite (bind_eval _ _ _ _ _ (field_Some key s a x Hx)) in Hrun.
    rewrite (bind_eval _ _ _ _ _ (field_Some key s na xn Hxn)) in Hrun.
    destruct (key x =? key xn) eqn:Ek; [discriminate|].
    set (sm := comparator (key xn) (key x)) in *.
    rewrite (bind_eval _ _ _ _ _ (field_Some (fun y => child y sm) s a x Hx)) in Hrun.
    rewrite (shape_root_sub_child _ l a r x sm Hx Hxl Hxr) in Hrun.
    apply bind_Ok in Hrun as (c & s1 & Hrec & Hrun).
    destruct (NoDup_sub sm _ _ _ Hnd) as (Hnds & Has).
    assert (Hnas : na ∉ addrs (sub sm l r)).
    { intros Hin. apply Hna. simpl. apply addrs_sub_incl in Hin. set_solver. }
    assert (IH : c = ins_root (sub sm l r) na
       /\ s1 = set_inserted_nodes
              (ins_inserted_nodes (store s) (key xn) (sub sm l r)
                 (nodes_storage.index (trial_nodes s)) (inserted_nodes s))
              (set_store (ins_store (key xn) na (sub sm l r) (store s)) s)).
    { destruct sm; simpl sub in *;
        [eapply IHl|eapply IHr]; eauto. }
    destruct IH as (-> & Es1). clear Hrec.
    assert (Hx1 : store s1 !! a = Some x).
    { rewrite Es1. simpl. rewrite ins_store_frame; auto. }
    assert (Hi1 : nodes_storage.index (trial_nodes s1) = nodes_storage.index (trial_nodes s)).
    { rewrite Es1. reflexivity. }
    rewrite (bind_eval _ _ _ _ _ (assign_Some _ s1 a x Hx1)) in Hrun.
    unfold trial_index in Hrun. rewrite bind_gets in Hrun.
    simpl nodes_storage.index in Hrun. rewrite Hi1 in Hrun.
    unfold ins_inserted_nodes in *. simpl splice_point. simpl ins_store. simpl ins_root.
    rewrite Hx. fold sm.
    set (idx := nodes_storage.index (trial_nodes s)) in *.
    destruct (sub sm l r) as [|l1 a1 r1] eqn:Esub.
    + simpl in Es1. rewrite set_store_id, set_inserted_nodes_id in Es1. subst s1.
      rewrite (bind_eval _ _ _ _ _
                 (inserted_nodes_at_Some (set_store _ s) _ _ Hidx Hent)) in Hrun.
      simpl fst in Hrun. cbv beta iota in Hrun.
      rewrite (bind_eval _ _ _ _ _
                 (inserted_nodes_set_Some (set_store _ s) _ _ _ Hidx Hent)) in Hrun.
      rewrite (assign_run _ _ _ a (set_child sm (Some na) x)) in Hrun
        by (simpl; apply lookup_insert_eq).
      injection Hrun as <- <-.
      split; [reflexivity|].
      state_eq. rewrite insert_insert_eq. reflexivity.
    + assert (Hsp : is_Some (splice_point (store s) (key xn) (Br l1 a1 r1))).
      { apply splice_point_br. rewrite <- Esub. apply tree_at_sub; assumption. }
      destruct Hsp as ((b & smb) & Hsp). rewrite Hsp in *.
      assert (Hent' : inserted_nodes (set_store (<[a:=set_child sm (Some a1) x]> (store s1)) s1)
                        !! Z.to_nat idx = Some (Some b, smb)).
      { rewrite Es1. simpl. apply list_lookup_insert_eq.
        apply lookup_lt_Some in Hent. exact Hent. }
      rewrite (bind_eval _ _ _ _ _ (inserted_nodes_at_Some _ _ _ Hidx Hent')) in Hrun.
      simpl fst in Hrun. cbv beta iota in Hrun. rewrite bind_ret in Hrun.
      rewrite (assign_run _ _ _ a (set_child sm (Some a1) x)) in Hrun
        by (simpl; apply lookup_insert_eq).
      injection Hrun as <- <-.
      split; [reflexivity|].
      rewrite Es1. state_eq. rewrite insert_insert_eq. reflexivity.
Qed.

Lemma node_eq x y :
  payload x = payload y -> left x = left y -> right x = right y ->
  modified x = modified y -> x = y.
Proof.
  destruct x, y; unfold payload; simpl. intros [= -> -> -> -> -> ->] -> -> ->. reflexivity.
Qed.

Lemma child_eq_links x y :
  (forall sm, child x sm = child y sm) -> left x = left y /\ right x = right y.
Proof. intros H. split; [apply (H true)|apply (H false)]. Qed.

Lemma splice_point_sub (h : gmap addr node_t) k l a r x :
  h !! a = Some x ->
  splice_point h k (Br l a r)
  = match sub (comparator k (key x)) l r with
    | Leaf => Some (a, comparator k (key x))
    | Br _ _ _ => splice_point h k (sub (comparator k (key x)) l r)
    end.
Proof. intros Hx. simpl. rewrite Hx. reflexivity. Qed.

(** The nodes of the tree after the splice: same payload, and the only link
    that changed is the one at the splice point. *)
Lemma ins_store_lookup k na t (h : gmap addr node_t) :
  tree_at h t -> NoDup (addrs t) ->
  forall b x, b ∈ addrs t -> h !! b = Some x ->
  exists x', ins_store k na t h !! b = Some x'
    /\ payload x' = payload x
    /\ forall sm,
        (splice_point h k t = Some (b, sm) -> child x sm = None /\ child x' sm = Some na)
        /\ (splice_point h k t <> Some (b, sm) -> child x' sm = child x sm).
Proof.
  induction t as [|l IHl a r IHr]; [simpl; set_solver|].
  intros Ht Hnd b x Hb Hx.
  pose proof Ht as ((x0 & Hx0 & Hxl & Hxr) & Hl & Hr).
  rewrite (splice_point_sub _ _ _ _ _ _ Hx0). simpl ins_store. rewrite Hx0.
  set (sm0 := comparator k (key x0)).
  destruct (NoDup_sub sm0 _ _ _ Hnd) as (Hnds & Has).
  pose proof (tree_at_sub _ _ _ sm0 Hl Hr) as Hts.
  pose proof (shape_root_sub_child _ _ _ _ _ sm0 Hx0 Hxl Hxr) as Hch.
  assert (IH : forall b x, b ∈ addrs (sub sm0 l r) -> h !! b = Some x ->
      exists x', ins_store k na (sub sm0 l r) h !! b = Some x'
        /\ payload x' = payload x
        /\ forall sm,
           (splice_point h k (sub sm0 l r) = Some (b, sm)
              -> child x sm = None /\ child x' sm = Some na)
           /\ (splice_point h k (sub sm0 l r) <> Some (b, sm) -> child x' sm = child x sm)).
  { destruct sm0; simpl in *; [apply IHl|apply IHr]; auto. }
  clear IHl IHr.
  destruct (decide (b = a)) as [->|Hne].
  - rewrite Hx0 in Hx. injection Hx as <-. rewrite lookup_insert_eq.
    eexists. split; [reflexivity|]. split; [destruct x0, sm0; reflexivity|].
    intros sm. destruct (sub sm0 l r) as [|l1 a1 r1] eqn:Esub.
    + simpl ins_root. simpl in Hch. split.
      * intros [= <-]. rewrite Hch. destruct x0, sm0; simpl; auto.
      * intros Hsp. destruct sm, sm0; try (exfalso; apply Hsp; reflexivity);
          destruct x0; reflexivity.
    + simpl ins_root. split.
      * intros Hsp. apply splice_point_in in Hsp. contradiction.
      * intros _. simpl in Hch. destruct x0, sm, sm0; simpl in *; congruence.
  - rewrite lookup_insert_ne by congruence.
    destruct (decide (b ∈ addrs (sub sm0 l r))) as [Hin|Hnin].
    + destruct (IH b x Hin Hx) as (x' & Hx' & Hp & Hc).
      exists x'. split; [exact Hx'|]. split; [exact Hp|].
      destruct (sub sm0 l r) as [|l1 a1 r1] eqn:Esub; [simpl in Hin; set_solver|].
      exact Hc.
    + rewrite ins_store_frame by assumption.
      exists x. split; [exact Hx|]. split; [reflexivity|].
      intros sm. split; [|reflexivity].
      destruct (sub sm0 l r) as [|l1 a1 r1] eqn:Esub.
      * intros [= E]. congruence.
      * intros Hsp. apply splice_point_in in Hsp. contradiction.
Qed.

(** The descent is marked modified; nothing else is touched. *)
Lemma ins_store_descent k na t (h : gmap addr node_t) :
  tree_at h t -> NoDup (addrs t) ->
  forall b, b ∈ descent h k t ->
  exists x', ins_store k na t h !! b = Some x' /\ modified x' = true.
Proof.
  induction t as [|l IHl a r IHr]; [simpl; set_solver|].
  intros Ht Hnd b Hb.
  pose proof Ht as ((x0 & Hx0 & Hxl & Hxr) & Hl & Hr).
  simpl in Hb |- *. rewrite Hx0 in Hb |- *.
  set (sm0 := comparator k (key x0)) in *.
  destruct (NoDup_sub sm0 _ _ _ Hnd) as (Hnds & Has).
  destruct (decide (b = a)) as [->|Hne].
  - rewrite lookup_insert_eq. eexists. split; [reflexivity|].
    destruct x0, sm0; reflexivity.
  - rewrite lookup_insert_ne by congruence.
    apply elem_of_cons in Hb as [Hb|Hb]; [congruence|].
    destruct sm0; simpl in *; [apply IHl|apply IHr]; auto.
Qed.

Lemma descent_in (h : gmap addr node_t) k t b : b ∈ descent h k t -> b ∈ addrs t.
Proof.
  induction t as [|l IHl a r IHr]; simpl; [set_solver|].
  destruct (h !! a) as [x|]; [|set_solver].
  intros Hb. apply elem_of_cons in Hb as [->|Hb]; [set_solver|].
  destruct (comparator k (key x)); simpl in Hb; [apply IHl in Hb|apply IHr in Hb]; set_solver.
Qed.

Lemma ins_store_off_descent k na t (h : gmap addr node_t) b :
  b ∉ descent h k t -> ins_store k na t h !! b = h !! b.
Proof.
  induction t as [|l IHl a r IHr]; simpl; [reflexivity|].
  destruct (h !! a) as [x|] eqn:Hx; [|reflexivity].
  intros Hb. rewrite lookup_insert_ne by set_solver.
  destruct (comparator k (key x)); simpl in *; [apply IHl|apply IHr]; set_solver.
Qed.

(** The shape after the splice is linked in the store after the splice. *)
Lemma ins_shape_root (h : gmap addr node_t) k na t :
  tree_at h t -> shape_root (ins_shape h k na t) = ins_root t na.
Proof.
  destruct t as [|l a r]; simpl; [reflexivity|].
  intros ((x & Hx & _) & _). rewrite Hx. destruct (comparator k (key x)); reflexivity.
Qed.

Lemma ins_shape_addrs (h : gmap addr node_t) k na t b :
  tree_at h t -> b ∈ addrs (ins_shape h k na t) <-> b = na \/ b ∈ addrs t.
Proof.
  induction t as [|l IHl a r IHr]; simpl; [set_solver|].
  intros ((x & Hx & _) & Hl & Hr). rewrite Hx.
  destruct (comparator k (key x)); simpl;
    rewrite !elem_of_app, !elem_of_cons; [rewrite (IHl Hl)|rewrite (IHr Hr)]; tauto.
Qed.

Lemma ins_shape_NoDup (h : gmap addr node_t) k na t :
  tree_at h t -> NoDup (addrs t) -> na ∉ addrs t -> NoDup (addrs (ins_shape h k na t)).
Proof.
  induction t as [|l IHl a r IHr]; simpl.
  - intros _ _ _. apply NoDup_singleton.
  - intros ((x & Hx & _) & Hl & Hr) Hnd Hna. rewrite Hx.
    apply NoDup_app in Hnd as (Hndl & Hd & Hndr).
    apply NoDup_cons in Hndr as (Har & Hndr).
    destruct (comparator k (key x)); simpl.
    + apply NoDup_app. split; [apply IHl; auto; set_solver|]. split.
      * intros b Hb. apply (ins_shape_addrs h k na l b Hl) in Hb as [->|Hb]; [set_solver|auto].
      * apply NoDup_cons. auto.
    + apply NoDup_app. split; [exact Hndl|]. split.
      * intros b Hb Hb'. apply elem_of_cons in Hb' as [->|Hb'].
        { apply (Hd a Hb). set_solver. }
        apply (ins_shape_addrs h k na r b Hr) in Hb' as [->|Hb']; [set_solver|].
        apply (Hd b Hb). set_solver.
      * apply NoDup_cons. split; [|apply IHr; auto; set_solver].
        intros Hb. apply (ins_shape_addrs h k na r a Hr) in Hb as [->|Hb]; set_solver.
Qed.

Lemma ins_shape_tree_at k na t (h : gmap addr node_t) xn :
  tree_at h t -> NoDup (addrs t) -> na ∉ addrs t ->
  h !! na = Some xn -> left xn = None -> right xn = None ->
  tree_at (ins_store k na t h) (ins_shape h k na t).
Proof.
  induction t as [|l IHl a r IHr]; intros Ht Hnd Hna Hxn Hnl Hnr.
  - simpl. split; [|auto]. exists xn. auto.
  - pose proof Ht as ((x & Hx & Hxl & Hxr) & Hl & Hr).
    pose proof (NoDup_br _ _ _ Hnd) as (Hndl & Hndr & Hal & Har & Hdisj).
    simpl. rewrite Hx.
    destruct (comparator k (key x)) eqn:Ec; simpl.
    + split; [|split].
      * eexists. rewrite lookup_insert_eq. split; [reflexivity|].
        rewrite (ins_shape_root h k na l Hl). destruct x; simpl in *. auto.
      * eapply tree_at_frame; [|apply IHl; eauto; set_solver].
        intros b Hb. apply lookup_insert_ne. intros <-.
        apply (ins_shape_addrs h k na l a Hl) in Hb as [->|Hb]; set_solver.
      * eapply tree_at_frame; [|exact Hr].
        intros b Hb. rewrite lookup_insert_ne by set_solver.
        apply ins_store_frame. intros Hbl. exact (Hdisj b Hbl Hb).
    + split; [|split].
      * eexists. rewrite lookup_insert_eq. split; [reflexivity|].
        rewrite (ins_shape_root h k na r Hr). destruct x; simpl in *. auto.
      * eapply tree_at_frame; [|exact Hl].
        intros b Hb. rewrite lookup_insert_ne by set_solver.
        apply ins_store_frame. intros Hbr. exact (Hdisj b Hb Hbr).
      * eapply tree_at_frame; [|apply IHr; eauto; set_solver].
        intros b Hb. apply lookup_insert_ne. intros <-.
        apply (ins_shape_addrs h k na r a Hr) in Hb as [->|Hb]; set_solver.
Qed.

Lemma clear_store_lookup t (h : gmap addr node_t) b :
  clear_store t h !! b
  = if decide (b ∈ addrs t) then set_modified false <$> (h !! b) else h !! b.
Proof.
  revert h b. induction t as [|l IHl a r IHr]; intros h b; simpl.
  - destruct (decide (b ∈ [])) as [Hin|_]; [set_solver|reflexivity].
  - assert (E : forall y : option node_t,
               set_modified false <$> (set_modified false <$> y) = set_modified false <$> y).
    { intros [y|]; reflexivity. }
    set (h2 := clear_store r (clear_store l h)).
    assert (H2 : forall c, set_modified false <$> (h2 !! c) = set_modified false <$> (h !! c)).
    { intros c. unfold h2. rewrite IHr, IHl.
      destruct (decide (c ∈ addrs r)), (decide (c ∈ addrs l)); rewrite ?E; reflexivity. }
    destruct (decide (b = a)) as [->|Hne].
    + destruct (decide (a ∈ addrs l ++ a :: addrs r)) as [_|Hn]; [|set_solver].
      rewrite <- H2. destruct (h2 !! a) as [x|] eqn:Hx.
      * rewrite lookup_insert_eq. reflexivity.
      * rewrite Hx. reflexivity.
    + assert (Hb : (match h2 !! a with
                    | Some x => <[a:=set_modified false x]> h2
                    | None => h2
                    end) !! b = h2 !! b).
      { destruct (h2 !! a); [apply lookup_insert_ne; congruence|reflexivity]. }
      rewrite Hb. unfold h2. rewrite IHr, IHl.
      destruct (decide (b ∈ addrs r)), (decide (b ∈ addrs l)),
        (decide (b ∈ addrs l ++ a :: addrs r)); rewrite ?E; try reflexivity; set_solver.
Qed.

Lemma clear_store_tree_at t t' (h : gmap addr node_t) :
  tree_at h t' -> tree_at (clear_store t h) t'.
Proof.
  apply tree_at_links. intros b _ x Hx. rewrite clear_store_lookup, Hx.
  destruct (decide _); simpl; eexists; split; try reflexivity; destruct x; auto.
Qed.

Lemma set_store_set_store h1 h2 s : set_store h2 (set_store h1 s) = set_store h2 s.
Proof. reflexivity. Qed.

Lemma clear_modified_impl_run t :
  forall fuel s,
    tree_at (store s) t -> (height t < fuel)%nat ->
    clear_modified_impl fuel (shape_root t) s
    = Ok tt (set_store (clear_store t (store s)) s).
Proof.
  induction t as [|l IHl a r IHr]; intros fuel s Ht Hf.
  - destruct fuel; [simpl in Hf; lia|]. simpl. rewrite set_store_id. reflexivity.
  - destruct fuel; [simpl in Hf; lia|]. simpl in Hf.
    pose proof Ht as ((x & Hx & Hxl & Hxr) & Hl & Hr).
    simpl shape_root. simpl clear_modified_impl.
    rewrite (bind_eval _ _ _ _ _ (field_Some left s a x Hx)). rewrite Hxl.
    rewrite (bind_eval _ _ _ _ _ (IHl fuel s Hl ltac:(lia))).
    assert (Hx1 : exists x1, clear_store l (store s) !! a = Some x1 /\ right x1 = right x).
    { rewrite clear_store_lookup, Hx. destruct (decide _); simpl; eexists; split;
        try reflexivity; destruct x; reflexivity. }
    destruct Hx1 as (x1 & Hx1 & Hr1).
    rewrite (bind_eval _ _ _ _ _ (field_Some right (set_store _ s) a x1 Hx1)).
    rewrite Hr1, Hxr.
    rewrite (bind_eval _ _ _ _ _
               (IHr fuel (set_store _ s) (clear_store_tree_at l r _ Hr) ltac:(lia))).
    simpl store. rewrite set_store_set_store.
    assert (Hx2 : is_Some (clear_store r (clear_store l (store s)) !! a)).
    { rewrite clear_store_lookup. destruct (decide _); rewrite Hx1; simpl; eauto. }
    destruct Hx2 as (x2 & Hx2).
    rewrite (assign_Some _ (set_store _ s) a x2 Hx2).
    simpl. rewrite Hx2. reflexivity.
Qed.

(** ** Unlinking the trial nodes *)

Lemma recorded_dec rs lo c b sm : recorded rs lo c b sm \/ ~ recorded rs lo c b sm.
Proof.
  induction c as [|c [IH|IH]].
  - right. intros (j & Hj & _). lia.
  - left. destruct IH as (j & Hj & Hr). exists j. split; [lia|exact Hr].
  - destruct (decide (rs !! (lo + c)%nat = Some (Some b, sm))) as [E|E].
    + left. exists (lo + c)%nat. split; [lia|exact E].
    + right. intros (j & Hj & Hr). destruct (decide (j = (lo + c)%nat)) as [->|Hne].
      * contradiction.
      * apply IH. exists j. split; [lia|exact Hr].
Qed.

Lemma unlink_loop c :
  forall lo s,
    (forall j, (lo <= j < lo + c)%nat ->
       exists r, inserted_nodes s !! j = Some r
                 /\ forall b, fst r = Some b -> is_Some (store s !! b)) ->
    exists h',
      for_loop c (Z.of_nat lo) (fun i =>
        r <- inserted_nodes_at i ;;
        match fst r with
        | None => ret tt
        | Some _ => assign (fst r) (set_child (snd r) None)
        end) s = Ok tt (set_store h' s)
      /\ forall b,
          (store s !! b = None -> h' !! b = None)
          /\ (forall x, store s !! b = Some x ->
                exists x', h' !! b = Some x'
                  /\ payload x' = payload x /\ modified x' = modified x
                  /\ forall sm,
                      (recorded (inserted_nodes s) lo c b sm -> child x' sm = None)
                      /\ (~ recorded (inserted_nodes s) lo c b sm ->
                          child x' sm = child x sm)).
Proof.
  induction c as [|c IH]; intros lo s Hent.
  - exists (store s). simpl. rewrite set_store_id. split; [reflexivity|].
    intros b. split; [auto|]. intros x Hx. exists x. repeat split; auto.
    intros (j & Hj & _). lia.
  - destruct (Hent lo ltac:(lia)) as (r & Hr & Halloc).
    simpl for_loop.
    assert (Hat : inserted_nodes_at (Z.of_nat lo) s = Ok r s).
    { apply inserted_nodes_at_Some; [lia|]. rewrite Nat2Z.id. exact Hr. }
    replace (Z.of_nat lo + 1) with (Z.of_nat (S lo)) by lia.
    destruct r as [[b0|] sm0].
    + destruct (Halloc b0 eq_refl) as (x0 & Hx0).
      set (s1 := set_store (<[b0 := set_child sm0 None x0]> (store s)) s).
      assert (Hbody : (r <- inserted_nodes_at (Z.of_nat lo) ;;
                       match fst r with
                       | None => ret tt
                       | Some _ => assign (fst r) (set_child (snd r) None)
                       end) s = Ok tt s1).
      { rewrite (bind_eval _ _ _ _ _ Hat). simpl. apply assign_Some. exact Hx0. }
      rewrite (bind_eval _ _ _ _ _ Hbody).
      destruct (IH (S lo) s1) as (h' & Hrun & Hh').
      { intros j Hj. destruct (Hent j ltac:(lia)) as (r & Hr' & Ha).
        exists r. split; [exact Hr'|]. intros b Hb. simpl.
        apply lookup_insert_is_Some'. right. auto. }
      exists h'. split; [rewrite Hrun; reflexivity|].
      intros b. destruct (Hh' b) as (HN & HS). simpl in HN, HS. split.
      * intros Hb. apply HN. rewrite lookup_insert_ne; [exact Hb|]. congruence.
      * intros x Hx.
        destruct (decide (b = b0)) as [->|Hne].
        -- rewrite Hx0 in Hx. injection Hx as <-.
           destruct (HS _ (lookup_insert_eq _ _ _)) as (x' & Hx' & Hp & Hm & Hc).
           exists x'. split; [exact Hx'|].
           split; [rewrite Hp; destruct x0, sm0; reflexivity|].
           split; [rewrite Hm; destruct x0, sm0; reflexivity|].
           intros sm. destruct (Hc sm) as (Hc1 & Hc2). split.
           ++ intros (j & Hj & Hrec).
              destruct (decide (j = lo)) as [->|Hjl].
              ** rewrite Hr in Hrec. injection Hrec as <-.
                 destruct (recorded_dec (inserted_nodes s) (S lo) c b0 sm0)
                   as [Hd|Hd]; [auto|].
                 rewrite (Hc2 Hd). apply child_set_child.
              ** apply Hc1. exists j. split; [lia|exact Hrec].
           ++ intros Hn. rewrite Hc2.
              ** destruct sm, sm0; try (exfalso; apply Hn; exists lo; split; [lia|exact Hr]);
                   destruct x0; reflexivity.
              ** intros (j & Hj & Hrec). apply Hn. exists j. split; [lia|exact Hrec].
        -- destruct (HS x) as (x' & Hx' & Hp & Hm & Hc).
           { rewrite lookup_insert_ne by congruence. exact Hx. }
           exists x'. repeat split; auto.
           ++ intros (j & Hj & Hrec). apply Hc.
              destruct (decide (j = lo)) as [->|Hjl]; [congruence|].
              exists j. split; [lia|exact Hrec].
           ++ intros Hn. apply Hc. intros (j & Hj & Hrec). apply Hn.
              exists j. split; [lia|exact Hrec].
    + assert (Hbody : (r <- inserted_nodes_at (Z.of_nat lo) ;;
                       match fst r with
                       | None => ret tt
                       | Some _ => assign (fst r) (set_child (snd r) None)
                       end) s = Ok tt s).
      { rewrite (bind_eval _ _ _ _ _ Hat). reflexivity. }
      rewrite (bind_eval _ _ _ _ _ Hbody).
      destruct (IH (S lo) s) as (h' & Hrun & Hh').
      { intros j Hj. apply Hent. lia. }
      exists h'. split; [exact Hrun|].
      intros b. destruct (Hh' b) as (HN & HS). split; [exact HN|].
      intros x Hx. destruct (HS x Hx) as (x' & Hx' & Hp & Hm & Hc).
      exists x'. repeat split; auto.
      * intros (j & Hj & Hrec). apply Hc.
        destruct (decide (j = lo)) as [->|Hjl]; [congruence|].
        exists j. split; [lia|exact Hrec].
      * intros Hn. apply Hc. intros (j & Hj & Hrec). apply Hn.
        exists j. split; [lia|exact Hrec].
Qed.

(** ** Trial insertions followed by [cancel_insert] *)

Lemma quiescent_pending s0 t0 : quiescent s0 t0 -> pending s0 t0 s0 t0 0.
Proof.
  intros Q. destruct (q_pool _ _ Q) as (Hnd & Hp). split; try reflexivity.
  - pose proof (q_index _ _ Q) as Hi. destruct (trial_nodes s0) as [nb ns i0].
    simpl in *. subst i0. reflexivity.
  - apply (q_root _ _ Q).
  - apply (q_tree _ _ Q).
  - apply (q_nodup _ _ Q).
  - auto.
  - intros j n _ Hj. destruct (Hp n) as (a & x & -> & Hx & Hl & Hr & _).
    { apply list_elem_of_lookup. eauto. }
    eauto 10.
  - intros b x0 Hb Hx0. exists x0. split; [exact Hx0|]. split; [reflexivity|].
    intros sm. left. split; [reflexivity|]. intros (j & Hj & _). lia.
  - intros j Hj. lia.
  - lia.
Qed.

Lemma ins_store_is_Some k na t (h : gmap addr node_t) b :
  is_Some (h !! b) -> is_Some (ins_store k na t h !! b).
Proof.
  induction t as [|l IHl a r IHr]; simpl; [auto|].
  intros Hb. destruct (h !! a) as [x|]; [|exact Hb].
  apply lookup_insert_is_Some'. right.
  destruct (comparator k (key x)); simpl; auto.
Qed.

(** How the records grow with one insertion. *)
Lemma recorded_step (rs : list (node * bool)) (h : gmap addr node_t) tau t k r0 b sm :
  rs !! k = Some r0 ->
  recorded (ins_inserted_nodes h tau t (Z.of_nat k) (<[k := (None, false)]> rs)) 0 (S k) b sm
  <-> recorded rs 0 k b sm \/ splice_point h tau t = Some (b, sm).
Proof.
  intros Hk. pose proof (lookup_lt_Some _ _ _ Hk) as Hlt.
  unfold ins_inserted_nodes. rewrite Nat2Z.id.
  assert (Hold : forall (rs' : list (node * bool)) j v, (j < k)%nat ->
             <[k := v]> (<[k := (None, false)]> rs) !! j = rs !! j
             /\ <[k := (None, false)]> rs !! j = rs !! j).
  { intros rs' j v Hj. rewrite !list_lookup_insert_ne by lia. auto. }
  split.
  - intros (j & Hj & Hr). destruct (decide (j = k)) as [->|Hne].
    + right. destruct (splice_point h tau t) as [[bs sms]|].
      * rewrite list_lookup_insert_eq in Hr; [|rewrite length_insert; exact Hlt]. congruence.
      * rewrite list_lookup_insert_eq in Hr; [|exact Hlt]. discriminate.
    + left. exists j. split; [lia|].
      destruct (splice_point h tau t) as [[bs sms]|];
        rewrite ?list_lookup_insert_ne in Hr by lia; exact Hr.
  - intros [(j & Hj & Hr)|Hsp].
    + exists j. split; [lia|].
      destruct (splice_point h tau t) as [[bs sms]|];
        rewrite ?list_lookup_insert_ne by lia; exact Hr.
    + exists k. split; [lia|]. rewrite Hsp.
      apply list_lookup_insert_eq. rewrite length_insert. exact Hlt.
Qed.

Lemma pool_index_inj (pool : list node) j1 j2 n :
  NoDup pool -> pool !! j1 = Some n -> pool !! j2 = Some n -> j1 = j2.
Proof. intros Hnd H1 H2. eapply NoDup_lookup; eauto. Qed.

(** One more trial insertion. *)
Lemma try_insert_pending_gen fuel tau o s0 t0 s t k s' :
  pool_detached (store s0) (nodes_storage.nodes (trial_nodes s0)) t0 ->
  pending s0 t0 s t k ->
  try_insert fuel tau o s = Ok tt s' ->
  exists t', pending s0 t0 s' t' (S k).
Proof.
  intros (Hpnd & Hpool) P Hrun.
  pose proof (p_pool _ _ _ _ _ P) as Htn.
  set (pool := nodes_storage.nodes (trial_nodes s0)) in *.
  set (nb := nodes_storage.n_blocks (trial_nodes s0)) in *.
  unfold try_insert, trial_index in Hrun. rewrite bind_gets in Hrun.
  rewrite Htn in Hrun. unfold nodes_storage.index in Hrun.
  cbn [nodes_storage.i] in Hrun.
  destruct (3 <? Z.of_nat k - 1); [discriminate|].
  apply bind_Ok in Hrun as (n & s1 & Htake & Hrun).
  unfold trial_call in Htake. rewrite Htn in Htake.
  unfold nodes_storage.take_next, nodes_storage.at_ in Htake. simpl in Htake.
  replace (Z.of_nat k - 1 + 1) with (Z.of_nat k) in Htake by lia.
  destruct (Z.of_nat k <? 0) eqn:E; [apply Z.ltb_lt in E; lia|]. rewrite Nat2Z.id in Htake.
  destruct (pool !! k) as [n'|] eqn:Hn; [|discriminate]. injection Htake as <- <-.
  destruct (p_free _ _ _ _ _ P k n' (Nat.le_refl _) Hn) as (a & xa & -> & Hxa & Hal & Har).
  rewrite bind_gets in Hrun.
  cbn [nodes_storage.i trial_nodes set_trial_nodes] in Hrun.
  apply bind_Ok in Hrun as ([] & s2 & Hset & Hrun).
  unfold inserted_nodes_set in Hset.
  apply bind_Ok in Hset as (r0 & s2' & Hat & Hset).
  unfold inserted_nodes_at in Hat. rewrite E, Nat2Z.id in Hat. simpl in Hat.
  destruct (inserted_nodes s !! k) as [r0'|] eqn:Hr0; [|discriminate].
  injection Hat as <- <-. injection Hset as <-.
  rewrite Nat2Z.id in Hrun.
  (* the trial node is not in the tree *)
  assert (Hfresh : forall j b, (k <= j)%nat -> pool !! j = Some (Some b) -> b ∉ addrs t).
  { intros j b Hj Hb Hin. destruct (p_addrs _ _ _ _ _ P b Hin) as [Hin0|(j' & Hj' & Hb')].
    - destruct (Hpool (Some b)) as (a' & x' & [= <-] & _ & _ & _ & Hn0).
      { apply list_elem_of_lookup. eauto. }
      contradiction.
    - assert (j' = j) by (eapply pool_index_inj; eauto). lia. }
  pose proof (Hfresh k a (Nat.le_refl _) Hn) as Hat.
  unfold reset in Hrun.
  rewrite (assign_run _ _ _ a xa) in Hrun by exact Hxa.
  rewrite bind_gets in Hrun. cbn [root tree set_store set_inserted_nodes set_trial_nodes] in Hrun.
  rewrite (p_root _ _ _ _ _ P) in Hrun.
  cbn [store set_store set_inserted_nodes set_trial_nodes] in Hrun.
  remember (set_op o (set_key tau xa)) as xn eqn:Exn.
  assert (Ekey : key xn = tau) by (subst xn; destruct xa; reflexivity).
  assert (Hnl : left xn = None) by (subst xn; destruct xa; exact Hal).
  assert (Hnr : right xn = None) by (subst xn; destruct xa; exact Har).
  clear Exn.
  remember (<[a := xn]> (store s)) as h3 eqn:Eh3.
  assert (Hh3a : h3 !! a = Some xn) by (subst h3; apply lookup_insert_eq).
  assert (Hh3 : forall b, b <> a -> h3 !! b = store s !! b).
  { intros b Hb. subst h3. apply lookup_insert_ne. congruence. }
  clear Eh3.
  apply bind_Ok in Hrun as (r' & s4 & Himpl & Hrun).
  assert (Ht3 : tree_at h3 t).
  { eapply tree_at_frame; [|apply (p_tree _ _ _ _ _ P)].
    intros b Hb. apply Hh3. intros ->. contradiction. }
  eapply (try_insert_impl_Ok t fuel _ a xn false) in Himpl;
    [| exact Ht3 | apply (p_nodup _ _ _ _ _ P) | exact Hat
     | exact Hh3a | simpl; lia
     | simpl; rewrite Nat2Z.id; apply list_lookup_insert_eq; eapply lookup_lt_Some; eauto ].
  destruct Himpl as (-> & ->).
  rewrite !bind_modify in Hrun. apply Ok_inj in Hrun as [_ <-].
  cbn [store inserted_nodes trial_nodes nodes_storage.index nodes_storage.i
       set_store set_inserted_nodes set_trial_nodes].
  rewrite Ekey.
  exists (ins_shape h3 tau a t).
  split; simpl.
  - f_equal. lia.
  - symmetry. apply ins_shape_root. exact Ht3.
  - eapply ins_shape_tree_at; eauto. apply (p_nodup _ _ _ _ _ P).
  - apply ins_shape_NoDup; auto. apply (p_nodup _ _ _ _ _ P).
  - intros b Hb. apply (ins_shape_addrs h3 tau a t b Ht3) in Hb as [->|Hb].
    + right. exists k. split; [lia|exact Hn].
    + destruct (p_addrs _ _ _ _ _ P b Hb) as [?|(j & Hj & Hb')]; [auto|].
      right. exists j. split; [lia|exact Hb'].
  - intros H0. rewrite (ins_shape_root h3 tau a t Ht3).
    pose proof (p_root0 _ _ _ _ _ P H0) as Hr. rewrite <- Hr.
    destruct t; [simpl in Hr; congruence|reflexivity].
  - intros j n Hj Hjn.
    destruct (p_free _ _ _ _ _ P j n ltac:(lia) Hjn) as (a' & x' & -> & Hx' & Hl' & Hr').
    exists a', x'. split; [reflexivity|]. split; [|auto].
    rewrite ins_store_frame by (eapply Hfresh; [|exact Hjn]; lia).
    rewrite Hh3; [exact Hx'|].
    intros ->. assert (k = j) by (eapply pool_index_inj; eauto). lia.
  - intros b x0 Hb Hx0.
    destruct (p_orig _ _ _ _ _ P b x0 Hb Hx0) as (x & Hx & Hp & Hc).
    assert (Hba : b <> a).
    { intros ->. destruct (Hpool (Some a)) as (a' & x' & [= <-] & _ & _ & _ & Hn0).
      - apply list_elem_of_lookup. eauto.
      - contradiction. }
    assert (Hx3 : h3 !! b = Some x).
    { rewrite Hh3 by congruence. exact Hx. }
    assert (Hx' : exists x', ins_store tau a t h3 !! b = Some x'
              /\ payload x' = payload x
              /\ forall sm,
                  (splice_point h3 tau t = Some (b, sm)
                     -> child x sm = None /\ child x' sm = Some a)
                  /\ (splice_point h3 tau t <> Some (b, sm) -> child x' sm = child x sm)).
    { destruct (decide (b ∈ addrs t)) as [Hin|Hnin].
      - apply ins_store_lookup; auto. apply (p_nodup _ _ _ _ _ P).
      - exists x. rewrite ins_store_frame by exact Hnin.
        split; [exact Hx3|]. split; [reflexivity|].
        intros sm. split; [|reflexivity].
        intros Hsp. apply splice_point_in in Hsp. contradiction. }
    destruct Hx' as (x' & Hx' & Hp' & Hc').
    exists x'. split; [exact Hx'|]. split; [congruence|].
    intros sm. rewrite (recorded_step _ h3 tau t k r0' b sm Hr0).
    destruct (Hc' sm) as (Hc1 & Hc2).
    destruct (decide (splice_point h3 tau t = Some (b, sm))) as [Hsp|Hsp].
    + right. destruct (Hc1 Hsp) as (Hnone & _).
      split; [|auto]. destruct (Hc sm) as [(E1 & _)|(E1 & _)]; congruence.
    + destruct (Hc sm) as [(E1 & Hnrec)|(E1 & Hrec)].
      * left. split; [rewrite (Hc2 Hsp); exact E1|]. intros [?|?]; contradiction.
      * right. auto.
  - intros b Hb Hbp.
    rewrite ins_store_frame.
    + rewrite Hh3.
      * apply (p_frame _ _ _ _ _ P); assumption.
      * intros ->. apply Hbp. apply list_elem_of_lookup. eauto.
    + intros Hin. destruct (p_addrs _ _ _ _ _ P b Hin) as [?|(j & _ & Hj)]; [contradiction|].
      apply Hbp. apply list_elem_of_lookup. eauto.
  - intros j Hj.
    assert (Hmono : forall b, is_Some (store s !! b) -> is_Some (ins_store tau a t h3 !! b)).
    { intros b Hb. apply ins_store_is_Some.
      destruct (decide (b = a)) as [->|Hne]; [rewrite Hh3a; eauto|].
      rewrite Hh3 by exact Hne. exact Hb. }
    unfold ins_inserted_nodes. rewrite Nat2Z.id.
    destruct (decide (j = k)) as [->|Hne].
    + destruct (splice_point h3 tau t) as [[bs sms]|] eqn:Hsp.
      * eexists. split.
        { apply list_lookup_insert_eq. rewrite length_insert. eapply lookup_lt_Some; eauto. }
        simpl. intros b [= <-]. pose proof (splice_point_in _ _ _ _ _ Hsp) as Hin. split.
        -- apply Hmono. apply (tree_at_lookup _ t); [apply (p_tree _ _ _ _ _ P)|exact Hin].
        -- destruct (p_addrs _ _ _ _ _ P bs Hin) as [?|(j & _ & Hj')]; [auto|].
           right. apply list_elem_of_lookup. eauto.
      * eexists. split.
        { apply list_lookup_insert_eq. eapply lookup_lt_Some; eauto. }
        simpl. discriminate.
    + destruct (p_rec _ _ _ _ _ P j ltac:(lia)) as (r & Hr & Ha).
      exists r. split.
      * destruct (splice_point h3 tau t) as [[bs sms]|];
          rewrite ?list_lookup_insert_ne by lia; exact Hr.
      * intros b Hb. destruct (Ha b Hb). split; auto.
  - rewrite (p_size _ _ _ _ _ P). lia.
  - apply (p_rest _ _ _ _ _ P).
Qed.

Lemma try_insert_pending fuel tau o s0 t0 s t k s' :
  quiescent s0 t0 -> pending s0 t0 s t k ->
  try_insert fuel tau o s = Ok tt s' ->
  exists t', pending s0 t0 s' t' (S k).
Proof. intros Q. apply try_insert_pending_gen. apply (q_pool _ _ Q). Qed.

Lemma try_inserts_pending_gen fuel ops :
  forall s0 t0 s t k s',
    pool_detached (store s0) (nodes_storage.nodes (trial_nodes s0)) t0 ->
    pending s0 t0 s t k ->
    try_inserts fuel ops s = Ok tt s' ->
    exists t' k', pending s0 t0 s' t' k'.
Proof.
  induction ops as [|[tau o] ops IH]; intros s0 t0 s t k s' Q P Hrun.
  - apply Ok_inj in Hrun as [_ <-]. eauto.
  - simpl in Hrun. apply bind_Ok in Hrun as ([] & s1 & H1 & Hrun).
    destruct (try_insert_pending_gen _ _ _ _ _ _ _ _ _ Q P H1) as (t1 & P1).
    eapply IH; eauto.
Qed.

Lemma try_inserts_pending fuel ops :
  forall s0 t0 s t k s',
    quiescent s0 t0 -> pending s0 t0 s t k ->
    try_inserts fuel ops s = Ok tt s' ->
    exists t' k', pending s0 t0 s' t' k'.
Proof.
  induction ops as [|[tau o] ops IH]; intros s0 t0 s t k s' Q P Hrun.
  - injection Hrun as <-. eauto.
  - simpl in Hrun. apply bind_Ok in Hrun as ([] & s1 & H1 & Hrun).
    destruct (try_insert_pending _ _ _ _ _ _ _ _ _ Q P H1) as (t1 & P1).
    eapply IH; eauto.
Qed.

Lemma payload_set_modified v x : payload (set_modified v x) = payload x.
Proof. destruct x; reflexivity. Qed.

Lemma length_addrs_br l a r : (0 < length (addrs (Br l a r)))%nat.
Proof. simpl. rewrite length_app. simpl. lia. Qed.

(** [cancel_insert] from a state with pending trial insertions. *)
Lemma cancel_insert_pending fuel s0 t0 s t k :
  quiescent s0 t0 -> pending s0 t0 s t k -> (height t0 < fuel)%nat ->
  exists s2, cancel_insert fuel s = Ok tt s2
    /\ root (tree s2) = root (tree s0)
    /\ (forall b, Some b ∉ nodes_storage.nodes (trial_nodes s0) ->
          store s2 !! b = store s0 !! b)
    /\ tree_size s2 = tree_size s0
    /\ trial_nodes s2 = trial_nodes s0
    /\ rest s2 = rest s0.
Proof.
  intros Q P Hfuel.
  destruct (q_pool _ _ Q) as (Hpnd & Hpool).
  pose proof (p_pool _ _ _ _ _ P) as Htn.
  (* the loop *)
  destruct (unlink_loop k O s) as (h' & Hloop & Hh').
  { intros j Hj. destruct (p_rec _ _ _ _ _ P j ltac:(lia)) as (r & Hr & Ha).
    exists r. split; [exact Hr|]. intros b Hb. apply (Ha b Hb). }
  change (Z.of_nat 0) with 0 in Hloop.
  (* the nodes of the original tree after the loop *)
  assert (Horig : forall b x0, b ∈ addrs t0 -> store s0 !! b = Some x0 ->
            exists x', h' !! b = Some x' /\ payload x' = payload x0
                       /\ left x' = left x0 /\ right x' = right x0).
  { intros b x0 Hb Hx0.
    destruct (p_orig _ _ _ _ _ P b x0 Hb Hx0) as (x & Hx & Hp & Hc).
    destruct (Hh' b) as (_ & HS). destruct (HS x Hx) as (x' & Hx' & Hp' & _ & Hc').
    exists x'. split; [exact Hx'|]. split; [congruence|].
    apply child_eq_links. intros sm. destruct (Hc' sm) as (Hc1 & Hc2).
    destruct (Hc sm) as [(E & Hn)|(E & Hr)].
    - rewrite (Hc2 Hn). exact E.
    - rewrite (Hc1 Hr). symmetry. exact E. }
  assert (Ht' : tree_at h' t0).
  { eapply tree_at_links; [|apply (q_tree _ _ Q)].
    intros b Hb x0 Hx0. destruct (Horig b x0 Hb Hx0) as (x' & Hx' & _ & Hl & Hr). eauto. }
  (* the root after [cancel_insert_impl] *)
  remember (if tree_size s =? Z.of_nat k - 1 + 1 then None else root (tree s)) as rc eqn:Erc.
  assert (Hrc : rc = shape_root t0).
  { rewrite Erc. clear Erc. rewrite (p_size _ _ _ _ _ P), (q_size _ _ Q).
    destruct t0 as [|l0 a0 r0].
    - destruct (Z.of_nat (length (addrs Leaf)) + _ =? _) eqn:E; [reflexivity|].
      apply Z.eqb_neq in E. simpl in E. lia.
    - pose proof (length_addrs_br l0 a0 r0).
      destruct (Z.of_nat (length (addrs (Br l0 a0 r0))) + _ =? _) eqn:E;
        [apply Z.eqb_eq in E; lia|].
      rewrite (p_root _ _ _ _ _ P). apply (p_root0 _ _ _ _ _ P). discriminate. }
  assert (Himpl : cancel_insert_impl s = Ok tt (set_root rc (set_store h' s))).
  { unfold cancel_insert_impl, trial_index. rewrite bind_gets. rewrite Htn.
    unfold nodes_storage.index. cbn [nodes_storage.i].
    replace (Z.to_nat (Z.of_nat k - 1 + 1)) with k by lia.
    rewrite (bind_eval _ _ _ _ _ Hloop). rewrite !bind_gets.
    cbn [tree_size set_store trial_nodes]. rewrite Htn. cbn [nodes_storage.i].
    rewrite Erc. destruct (tree_size s =? Z.of_nat k - 1 + 1).
    - reflexivity.
    - unfold ret. f_equal. state_eq. destruct (tree s); reflexivity. }
  (* the size of the tree *)
  assert (Hsz : forall s', store s' = h' -> root (tree s') = rc ->
            tree_size_query s' = Ok (tree_size s0) s').
  { intros s' Hs' Hr'. unfold tree_size_query. rewrite bind_gets, Hr', Hrc.
    destruct t0 as [|l0 a0 r0]; simpl.
    - unfold ret. rewrite (q_size _ _ Q). reflexivity.
    - destruct (q_tree _ _ Q) as ((x0 & Hx0 & _) & _).
      destruct (Horig a0 x0 ltac:(simpl; set_solver) Hx0) as (x' & Hx' & Hp & _).
      rewrite <- Hs' in Hx'. rewrite (field_Some N s' a0 x' Hx').
      f_equal. rewrite (q_size _ _ Q), <- (q_count _ _ Q a0 x0 eq_refl Hx0).
      unfold payload in Hp. congruence. }
  pose (sr := set_trial_nodes
                (snd (nodes_storage.reset_index (trial_nodes (set_root rc (set_store h' s)))))
                (set_root rc (set_store h' s))).
  assert (Hcl : clear_modified fuel (set_tree_size (tree_size s0) sr)
                = Ok tt (set_store (clear_store t0 h') (set_tree_size (tree_size s0) sr))).
  { unfold clear_modified. rewrite bind_gets.
    change (root (tree (set_tree_size (tree_size s0) sr))) with rc. rewrite Hrc.
    apply (clear_modified_impl_run t0 fuel (set_tree_size (tree_size s0) sr) Ht' Hfuel). }
  eexists. split.
  { unfold cancel_insert. rewrite (bind_eval _ _ _ _ _ Himpl). rewrite bind_modify.
    rewrite (bind_eval _ _ _ _ _ (Hsz sr eq_refl eq_refl)). rewrite bind_modify.
    rewrite (bind_eval _ _ _ _ _ Hcl). reflexivity. }
  unfold sr.
  cbn [root tree store tree_size trial_nodes set_store set_tree_size set_trial_nodes set_root].
  split; [rewrite Hrc; symmetry; apply (q_root _ _ Q)|].
  split; [|split; [reflexivity|split]].
  - intros b Hb. rewrite clear_store_lookup.
    destruct (decide (b ∈ addrs t0)) as [Hin|Hnin].
    + destruct (tree_at_lookup _ _ _ (q_tree _ _ Q) Hin) as (x0 & Hx0).
      destruct (Horig b x0 Hin Hx0) as (x' & Hx' & Hp & Hl & Hr).
      rewrite Hx', Hx0. simpl. f_equal. apply node_eq.
      * rewrite payload_set_modified. exact Hp.
      * destruct x'; exact Hl.
      * destruct x'; exact Hr.
      * rewrite (q_clean _ _ Q b x0 Hin Hx0). destruct x'; reflexivity.
    + rewrite <- (p_frame _ _ _ _ _ P b Hnin Hb).
      destruct (Hh' b) as (HN & HS).
      destruct (store s !! b) as [x|] eqn:Hx; [|auto].
      destruct (HS x eq_refl) as (x' & Hx' & Hp & Hm & Hc).
      rewrite Hx'. f_equal.
      assert (Hnr : forall sm, ~ recorded (inserted_nodes s) 0 k b sm).
      { intros sm (j & Hj & Hr).
        destruct (p_rec _ _ _ _ _ P j ltac:(lia)) as (r & Hr' & Ha).
        rewrite Hr in Hr'. injection Hr' as <-.
        destruct (Ha b eq_refl) as (_ & [?|?]); contradiction. }
      apply node_eq; auto.
      * apply (proj2 (Hc true) (Hnr true)).
      * apply (proj2 (Hc false) (Hnr false)).
  - pose proof (q_index _ _ Q) as Hi. rewrite Htn.
    destruct (trial_nodes s0) as [nb0 ns0 i0]. simpl in *. subst i0. reflexivity.
  - apply (p_rest _ _ _ _ _ P).
Qed.



(** ** The small configuration *)

Lemma ex_state_quiescent : quiescent ex_state ex_shape.
Proof.
  split.
  - reflexivity.
  - simpl. repeat split; eexists; (split; [vm_compute; reflexivity|split; reflexivity]).
  - simpl. repeat constructor; set_solver.
  - intros a x Ha Hx. simpl in Ha. set_unfold in Ha.
    destruct Ha as [->|[->|[->|[]]]]; vm_compute in Hx; injection Hx as <-; reflexivity.
  - reflexivity.
  - intros a x [= <-] Hx. vm_compute in Hx. injection Hx as <-. reflexivity.
  - reflexivity.
  - split.
    + simpl. repeat constructor; set_solver.
    + intros n Hn. simpl in Hn. set_unfold in Hn.
      destruct Hn as [->|[->|[->|[->|[]]]]]; eexists _, _;
        (split; [reflexivity|]); (split; [vm_compute; reflexivity|]);
        (split; [reflexivity|]); (split; [reflexivity|]); simpl; set_solver.
Qed.

Example ex_try_inserts :
  exists s1, try_inserts 10 [(25, mk_op_desc 0 true 0); (5, mk_op_desc 0 false 0)] ex_state = Ok tt s1
    /\ root (tree s1) = Some 1%positive /\ tree_size s1 = 5.
Proof. eexists. split; [vm_compute; reflexivity|]. split; reflexivity. Qed.

(** ** C1: trial insertions followed by [cancel_insert] *)

(** C1, as amended.  From a state with no transaction pending (the tree is
    well formed, none of its nodes is marked modified, [tree_size] is the
    size of the tree, no trial node is in use and the trial pool holds
    distinct detached nodes), after any sequence of [try_insert] calls that
    all return, [cancel_insert] returns and leaves the root, every node
    object of the tree (links, flags, operator, key and cache entries),
    every other node object outside the trial pool, [tree_size], the atomic
    partition function, the density matrix and all other members except the
    scratch vector [inserted_nodes] exactly as they were before the first
    [try_insert]. *)
Theorem cancel_insert_restores fuel ops s0 t0 s1 :
  quiescent s0 t0 -> (height t0 < fuel)%nat ->
  try_inserts fuel ops s0 = Ok tt s1 ->
  exists s2, cancel_insert fuel s1 = Ok tt s2
    /\ root (tree s2) = root (tree s0)
    /\ (forall b, b ∈ addrs t0 -> store s2 !! b = store s0 !! b)
    /\ (forall b, Some b ∉ nodes_storage.nodes (trial_nodes s0) ->
          store s2 !! b = store s0 !! b)
    /\ tree_size s2 = tree_size s0
    /\ atomic_z s2 = atomic_z s0
    /\ density_matrix s2 = density_matrix s0
    /\ trial_nodes s2 = trial_nodes s0
    /\ rest s2 = rest s0.
Proof.
  intros Q Hfuel Hrun.
  destruct (try_inserts_pending fuel ops s0 t0 s0 t0 0 s1 Q (quiescent_pending _ _ Q) Hrun)
    as (t1 & k1 & P).
  destruct (cancel_insert_pending fuel s0 t0 s1 t1 k1 Q P Hfuel)
    as (s2 & Hc & Hroot & Hstore & Hsize & Htrial & Hrest).
  exists s2. split; [exact Hc|]. split; [exact Hroot|]. split; [|split; [exact Hstore|]].
  - intros b Hb. apply Hstore. intros Hin.
    destruct (q_pool _ _ Q) as (_ & Hp).
    destruct (Hp (Some b) Hin) as (a & x & [= <-] & _ & _ & _ & Hn). contradiction.
  - split; [exact Hsize|]. pose proof Hrest as Hrest'. unfold rest in Hrest'.
    injection Hrest' as _ _ _ _ Hdm _ Hz _ _ _ _.
    repeat split; auto.
Qed.

Lemma cancel_insert_restores_witness :
  quiescent ex_state ex_shape
  /\ (height ex_shape < 10)%nat
  /\ try_inserts 10 [(25, mk_op_desc 0 true 0); (5, mk_op_desc 0 false 0)] ex_state
     = Ok tt (state_after
                (try_inserts 10 [(25, mk_op_desc 0 true 0); (5, mk_op_desc 0 false 0)] ex_state)
                ex_state)
  /\ exists s2,
       cancel_insert 10
         (state_after
            (try_inserts 10 [(25, mk_op_desc 0 true 0); (5, mk_op_desc 0 false 0)] ex_state)
            ex_state) = Ok tt s2
       /\ root (tree s2) = root (tree ex_state)
       /\ (forall b, b ∈ addrs ex_shape -> store s2 !! b = store ex_state !! b)
       /\ (forall b, Some b ∉ nodes_storage.nodes (trial_nodes ex_state) ->
             store s2 !! b = store ex_state !! b)
       /\ tree_size s2 = tree_size ex_state
       /\ atomic_z s2 = atomic_z ex_state
       /\ density_matrix s2 = density_matrix ex_state
       /\ trial_nodes s2 = trial_nodes ex_state
       /\ rest s2 = rest ex_state.
Proof.
  assert (H1 : quiescent ex_state ex_shape) by exact ex_state_quiescent.
  assert (H2 : (height ex_shape < 10)%nat) by (simpl; lia).
  assert (H3 : try_inserts 10 [(25, mk_op_desc 0 true 0); (5, mk_op_desc 0 false 0)] ex_state
               = Ok tt (state_after
                          (try_inserts 10 [(25, mk_op_desc 0 true 0); (5, mk_op_desc 0 false 0)]
                             ex_state) ex_state)) by (vm_compute; reflexivity).
  split; [exact H1|]. split; [exact H2|]. split; [exact H3|].
  exact (cancel_insert_restores 10 _ ex_state ex_shape _ H1 H2 H3).
Defined.

(** The claim C1 as stated, "for every tree state", fails in a state with a
    deletion pending: [cancel_insert] sets [tree_size] back to the size of
    the tree and clears every modified flag, so neither is what it was
    before the [try_insert]. *)
Lemma cancel_insert_counterexample :
  exists k s1 s2,
    try_delete 10 0 0 true ex_state = Ok k ex_pending_delete
    /\ try_inserts 10 [(25, mk_op_desc 0 true 0)] ex_pending_delete = Ok tt s1
    /\ cancel_insert 10 s1 = Ok tt s2
    /\ tree_size ex_pending_delete = 2 /\ tree_size s2 = 3
    /\ modified <$> (store ex_pending_delete !! 1%positive) = Some true
    /\ modified <$> (store s2 !! 1%positive) = Some false.
Proof.
  eexists _, _, _.
  split; [vm_compute; reflexivity|].
  split; [vm_compute; reflexivity|].
  split; [vm_compute; reflexivity|].
  repeat split; vm_compute; reflexivity.
Qed.

(** ** C3: the fifth trial insertion *)

(** C3.  With four trial insertions pending the index of the pool is 3; the
    guard [index() > 3] of [try_insert] does not fire, and [take_next] reads
    [nodes[4]] of a vector of four nodes: the fifth call does not raise the
    usage error, it runs into undefined behaviour. *)
Theorem try_insert_fifth_out_of_range fuel tau o s :
  nodes_storage.index (trial_nodes s) = 3 ->
  length (nodes_storage.nodes (trial_nodes s)) = 4%nat ->
  try_insert fuel tau o s = Undefined out_of_range.
Proof.
  intros Hi Hlen. unfold try_insert, trial_index. rewrite bind_gets, Hi.
  change (3 <? 3) with false. cbv beta iota.
  unfold bind, trial_call, nodes_storage.take_next, nodes_storage.at_.
  unfold nodes_storage.index in Hi. rewrite Hi.
  change (3 + 1 <? 0) with false. cbv beta iota.
  rewrite lookup_ge_None_2; [reflexivity|]. rewrite Hlen. simpl. lia.
Qed.

Lemma try_insert_fifth_out_of_range_witness :
  nodes_storage.index (trial_nodes ex_four_trials) = 3
  /\ length (nodes_storage.nodes (trial_nodes ex_four_trials)) = 4%nat
  /\ try_insert 10 40 (mk_op_desc 0 true 0) ex_four_trials = Undefined out_of_range.
Proof.
  assert (H1 : nodes_storage.index (trial_nodes ex_four_trials) = 3) by (vm_compute; reflexivity).
  assert (H2 : length (nodes_storage.nodes (trial_nodes ex_four_trials)) = 4%nat)
    by (vm_compute; reflexivity).
  split; [exact H1|]. split; [exact H2|].
  exact (try_insert_fifth_out_of_range 10 40 (mk_op_desc 0 true 0) ex_four_trials H1 H2).
Defined.

(** ** C4: a trial insertion at a time that is already a key *)

Lemma bst_sub (h : gmap addr node_t) l r sm : bst h l -> bst h r -> bst h (sub sm l r).
Proof. destruct sm; simpl; auto. Qed.

Lemma bst_descent_hits (h : gmap addr node_t) k t b y :
  bst h t -> b ∈ addrs t -> h !! b = Some y -> key y = k ->
  descent_hits h k t = true.
Proof.
  induction t as [|l IHl a r IHr]; simpl; [set_solver|].
  intros ((x & Hx & Hlt & Hgt) & Hl & Hr) Hb Hy Hk. rewrite Hx.
  apply elem_of_app in Hb as [Hb|Hb]; [|apply elem_of_cons in Hb as [->|Hb]].
  - pose proof (Hlt b y Hb Hy) as Hc. apply orb_true_iff. right.
    unfold comparator. replace (key x <? k) with true by (symmetry; apply Z.ltb_lt; lia).
    simpl. auto.
  - rewrite Hx in Hy. injection Hy as <-. apply orb_true_iff. left. apply Z.eqb_eq. exact Hk.
  - pose proof (Hgt b y Hb Hy) as Hc. apply orb_true_iff. right.
    unfold comparator. replace (key x <? k) with false by (symmetry; apply Z.ltb_ge; lia).
    simpl. auto.
Qed.

Lemma bst_frame (h h' : gmap addr node_t) t :
  (forall b, b ∈ addrs t -> h' !! b = h !! b) -> bst h t -> bst h' t.
Proof.
  induction t as [|l IHl a r IHr]; simpl; [auto|].
  intros Hfr ((x & Hx & Hlt & Hgt) & Hl & Hr). split; [|split].
  - exists x. split; [rewrite Hfr; [exact Hx|set_solver]|]. split.
    + intros c z Hc Hz. rewrite Hfr in Hz by set_solver. eauto.
    + intros c z Hc Hz. rewrite Hfr in Hz by set_solver. eauto.
  - apply IHl; auto. intros c Hc. apply Hfr. set_solver.
  - apply IHr; auto. intros c Hc. apply Hfr. set_solver.
Qed.

(** When the descent meets the key, [try_insert_impl] throws before it has
    written anything. *)
Lemma try_insert_impl_Throw t :
  forall fuel s na xn,
    tree_at (store s) t -> store s !! na = Some xn ->
    descent_hits (store s) (key xn) t = true -> (height t < fuel)%nat ->
    try_insert_impl fuel (shape_root t) (Some na) s = Throw rbt_insert_error s.
Proof.
  induction t as [|l IHl a r IHr]; intros fuel s na xn Ht Hxn Hhit Hfuel.
  - discriminate.
  - destruct fuel; [simpl in Hfuel; lia|]. simpl in Hfuel.
    pose proof Ht as ((x & Hx & Hxl & Hxr) & Hl & Hr).
    simpl in Hhit. rewrite Hx in Hhit.
    simpl shape_root. simpl try_insert_impl.
    rewrite (bind_eval _ _ _ _ _ (field_Some key s a x Hx)).
    rewrite (bind_eval _ _ _ _ _ (field_Some key s na xn Hxn)).
    destruct (key x =? key xn) eqn:Ek; [reflexivity|].
    simpl in Hhit.
    set (sm := comparator (key xn) (key x)) in *.
    rewrite (bind_eval _ _ _ _ _ (field_Some (fun y => child y sm) s a x Hx)).
    rewrite (shape_root_sub_child _ l a r x sm Hx Hxl Hxr).
    assert (IH : try_insert_impl fuel (shape_root (sub sm l r)) (Some na) s
                 = Throw rbt_insert_error s).
    { pose proof (height_sub sm l r).
      destruct sm; simpl in *; [apply (IHl fuel s na xn)|apply (IHr fuel s na xn)]; auto; lia. }
    unfold bind at 1. rewrite IH. reflexivity.
Qed.

(** C4.  In a search tree with a node of key [tau] linked in (persistent,
    flagged for deletion or trial alike), and with a free node left in the
    trial pool, [try_insert(tau, op)] throws [rbt_insert_error]; the node is
    not inserted: the root and every node object of the tree are as they
    were, and [tree_size] is unchanged. *)
Theorem try_insert_duplicate_key fuel tau o s t b y na xa r0 :
  root (tree s) = shape_root t -> tree_at (store s) t -> bst (store s) t ->
  (height t < fuel)%nat ->
  b ∈ addrs t -> store s !! b = Some y -> key y = tau ->
  -1 <= nodes_storage.index (trial_nodes s) < 3 ->
  nodes_storage.nodes (trial_nodes s) !! Z.to_nat (nodes_storage.index (trial_nodes s) + 1)
    = Some (Some na) ->
  store s !! na = Some xa -> na ∉ addrs t ->
  inserted_nodes s !! Z.to_nat (nodes_storage.index (trial_nodes s) + 1) = Some r0 ->
  exists s', try_insert fuel tau o s = Throw rbt_insert_error s'
    /\ root (tree s') = root (tree s)
    /\ tree_at (store s') t
    /\ (forall c, c ∈ addrs t -> store s' !! c = store s !! c)
    /\ tree_size s' = tree_size s.
Proof.
  intros Hroot Ht Hbst Hfuel Hb Hy Hk Hidx Hslot Hxa Hna Hr0.
  set (idx := nodes_storage.index (trial_nodes s)) in *.
  set (s1 := set_trial_nodes
               (nodes_storage.mk (nodes_storage.n_blocks (trial_nodes s))
                  (nodes_storage.nodes (trial_nodes s)) (idx + 1)) s).
  set (s2 := set_inserted_nodes (<[Z.to_nat (idx + 1) := (None, false)]> (inserted_nodes s)) s1).
  set (xn := set_op o (set_key tau xa)).
  set (s3 := set_store (<[na := xn]> (store s)) s2).
  assert (Hframe : forall c, c ∈ addrs t -> store s3 !! c = store s !! c).
  { intros c Hc. simpl. apply lookup_insert_ne. intros <-. contradiction. }
  assert (Ht3 : tree_at (store s3) t) by (eapply tree_at_frame; eauto).
  assert (Hy3 : store s3 !! b = Some y) by (rewrite Hframe; auto).
  assert (Hbst3 : bst (store s3) t) by (eapply bst_frame; eauto).
  assert (Hkn : key xn = tau) by (subst xn; destruct xa; reflexivity).
  assert (Hhit : descent_hits (store s3) (key xn) t = true).
  { apply (bst_descent_hits _ _ t b y Hbst3 Hb Hy3). congruence. }
  exists s3. split.
  - unfold try_insert, trial_index. rewrite bind_gets. fold idx.
    replace (3 <? idx) with false by (symmetry; apply Z.ltb_ge; lia).
    assert (Htake : trial_call nodes_storage.take_next s = Ok (Some na) s1).
    { unfold trial_call, nodes_storage.take_next, nodes_storage.at_.
      change (nodes_storage.i (trial_nodes s)) with idx.
      replace (idx + 1 <? 0) with false by (symmetry; apply Z.ltb_ge; lia).
      unfold node in *. rewrite Hslot. reflexivity. }
    rewrite (bind_eval _ _ _ _ _ Htake). rewrite bind_gets.
    change (nodes_storage.index (trial_nodes s1)) with (idx + 1).
    rewrite (bind_eval _ _ _ _ _
               (inserted_nodes_set_Some s1 (idx + 1) r0 (None, false) ltac:(lia) Hr0)).
    unfold reset. rewrite (assign_run _ _ _ na xa) by exact Hxa.
    rewrite bind_gets. change (root (tree _)) with (root (tree s)). rewrite Hroot.
    unfold bind at 1.
    change (try_insert_impl fuel (shape_root t) (Some na) (set_store _ _))
      with (try_insert_impl fuel (shape_root t) (Some na) s3).
    rewrite (try_insert_impl_Throw t fuel s3 na xn Ht3 (lookup_insert_eq _ _ _) Hhit Hfuel).
    reflexivity.
  - split; [reflexivity|]. split; [exact Ht3|]. split; [exact Hframe|reflexivity].
Qed.

(** ** The in-order search of [try_delete] *)

Lemma scan_app {C} (g : addr -> C -> bool * C) l1 l2 c :
  scan g (l1 ++ l2) c
  = match fst (scan g l1 c) with
    | Some _ => scan g l1 c
    | None => scan g l2 (snd (scan g l1 c))
    end.
Proof.
  revert c. induction l1 as [|a l1 IH]; intros c; simpl; [reflexivity|].
  destruct (fst (g a c)); [reflexivity|]. apply IH.
Qed.

(** [find_if] with a predicate that behaves on the nodes of the tree as the
    function [g] is the scan of the in-order sequence with [g]. *)
Lemma find_if_impl_run {C} (f : node -> C -> M (bool * C)) (g : addr -> C -> bool * C) t :
  forall fuel c s,
    tree_at (store s) t -> (height t < fuel)%nat ->
    (forall a c, a ∈ addrs t -> f (Some a) c s = Ok (g a c) s) ->
    find_if_impl fuel f (shape_root t) c s = Ok (scan g (addrs t) c) s.
Proof.
  induction t as [|l IHl a r IHr]; intros fuel c s Ht Hfuel Hf.
  - destruct fuel; [simpl in Hfuel; lia|]. reflexivity.
  - destruct fuel; [simpl in Hfuel; lia|]. simpl in Hfuel.
    pose proof Ht as ((x & Hx & Hxl & Hxr) & Hl & Hr).
    simpl shape_root. simpl find_if_impl.
    rewrite (bind_eval _ _ _ _ _ (field_Some left s a x Hx)). rewrite Hxl.
    rewrite (bind_eval _ _ _ _ _ (IHl fuel c s Hl ltac:(lia)
               (fun b c' Hb => Hf b c' ltac:(simpl; set_solver)))).
    simpl addrs. rewrite scan_app.
    destruct (fst (scan g (addrs l) c)) as [m|] eqn:Em.
    + destruct (scan g (addrs l) c); reflexivity.
    + rewrite (bind_eval _ _ _ _ _ (Hf a _ ltac:(simpl; set_solver))).
      simpl scan. destruct (fst (g a (snd (scan g (addrs l) c)))).
      * reflexivity.
      * rewrite (bind_eval _ _ _ _ _ (field_Some right s a x Hx)). rewrite Hxr.
        apply IHr; [exact Hr|lia|]. intros b c' Hb. apply Hf. simpl. set_solver.
Qed.

Lemma try_delete_pred_run n block_idx dag s a x i :
  store s !! a = Some x ->
  try_delete_pred n block_idx dag (Some a) i s
  = Ok (delete_step (store s) n block_idx dag a i) s.
Proof.
  intros Hx. unfold try_delete_pred, delete_step, node_matches.
  rewrite (bind_eval _ _ _ _ _ (field_Some op s a x Hx)). rewrite Hx. reflexivity.
Qed.

Lemma logged_run {C} (f : node -> C -> M (bool * C)) (g : addr -> C -> bool * C) s a cl :
  f (Some a) (fst cl) s = Ok (g a (fst cl)) s ->
  logged f (Some a) cl s = Ok (logged_step g a cl) s.
Proof. intros Hf. unfold logged. rewrite (bind_eval _ _ _ _ _ Hf). reflexivity. Qed.

Lemma delete_step_eq (h : gmap addr node_t) n block_idx dag a i :
  delete_step h n block_idx dag a i
  = ((if node_matches h block_idx dag a then i + 1 else i) =? n + 1,
     if node_matches h block_idx dag a then i + 1 else i).
Proof. reflexivity. Qed.

Lemma scan_cons {C} (g : addr -> C -> bool * C) a l c :
  scan g (a :: l) c = if fst (g a c) then (Some a, snd (g a c)) else scan g l (snd (g a c)).
Proof. reflexivity. Qed.

Lemma logged_step_eq {C} (g : addr -> C -> bool * C) a c log :
  logged_step g a (c, log) = (fst (g a c), (snd (g a c), log ++ [Some a])).
Proof. reflexivity. Qed.

(** The scan of [try_delete] stops at the [(n+1)]-th matching node, having
    called the predicate on the nodes before it and on the node itself. *)
Lemma scan_delete_found (h : gmap addr node_t) n block_idx dag x :
  forall l i,
    i <= n ->
    List.filter (node_matches h block_idx dag) l !! Z.to_nat (n - i) = Some x ->
    exists pre post,
      l = pre ++ x :: post
      /\ scan (delete_step h n block_idx dag) l i = (Some x, n + 1)
      /\ forall log,
           scan (logged_step (delete_step h n block_idx dag)) l (i, log)
           = (Some x, (n + 1, log ++ map Some (pre ++ [x]))).
Proof.
  induction l as [|a l IH]; intros i Hi Hnth; [discriminate|].
  simpl in Hnth.
  assert (Hlogged : forall log,
            scan (logged_step (delete_step h n block_idx dag)) (a :: l) (i, log)
            = if fst (delete_step h n block_idx dag a i)
              then (Some a, (snd (delete_step h n block_idx dag a i), log ++ [Some a]))
              else scan (logged_step (delete_step h n block_idx dag)) l
                     (snd (delete_step h n block_idx dag a i), log ++ [Some a])).
  { intros log. rewrite scan_cons, logged_step_eq. reflexivity. }
  rewrite scan_cons. setoid_rewrite Hlogged. clear Hlogged.
  rewrite delete_step_eq. cbn [fst snd].
  destruct (node_matches h block_idx dag a) eqn:Hm.
  - destruct (Z.eq_dec i n) as [->|Hne].
    + replace (Z.to_nat (n - n)) with O in Hnth by lia. injection Hnth as <-.
      exists [], l. rewrite Z.eqb_refl. simpl. auto.
    + replace (Z.to_nat (n - i)) with (S (Z.to_nat (n - (i + 1)))) in Hnth by lia.
      simpl in Hnth.
      destruct (IH (i + 1) ltac:(lia) Hnth) as (pre & post & -> & Hs & Hlog).
      exists (a :: pre), post.
      replace (i + 1 =? n + 1) with false by (symmetry; apply Z.eqb_neq; lia).
      split; [reflexivity|]. split; [exact Hs|].
      intros log. rewrite Hlog. rewrite <- app_assoc. reflexivity.
  - destruct (IH i Hi Hnth) as (pre & post & -> & Hs & Hlog).
    exists (a :: pre), post.
    replace (i =? n + 1) with false by (symmetry; apply Z.eqb_neq; lia).
    split; [reflexivity|]. split; [exact Hs|].
    intros log. rewrite Hlog. rewrite <- app_assoc. reflexivity.
Qed.

(** With fewer than [n + 1 - i] matching nodes the scan finds nothing. *)
Lemma scan_delete_none (h : gmap addr node_t) n block_idx dag :
  forall l i,
    i <= n ->
    Z.of_nat (length (List.filter (node_matches h block_idx dag) l)) < n + 1 - i ->
    fst (scan (delete_step h n block_idx dag) l i) = None.
Proof.
  induction l as [|a l IH]; intros i Hi Hlen; [reflexivity|].
  simpl in Hlen. rewrite scan_cons, delete_step_eq. cbn [fst snd].
  destruct (node_matches h block_idx dag a) eqn:Hm.
  - simpl in Hlen.
    replace (i + 1 =? n + 1) with false by (symmetry; apply Z.eqb_neq; lia).
    apply IH; lia.
  - replace (i =? n + 1) with false by (symmetry; apply Z.eqb_neq; lia).
    apply IH; lia.
Qed.

(** ** Marking the path to a key *)

Lemma search_path_in (h : gmap addr node_t) k t b : b ∈ search_path h k t -> b ∈ addrs t.
Proof.
  induction t as [|l IHl a r IHr]; simpl; [set_solver|].
  destruct (h !! a) as [x|]; [|set_solver].
  destruct (key x =? k); [set_solver|].
  intros Hb. apply elem_of_cons in Hb as [->|Hb]; [set_solver|].
  destruct (comparator k (key x)); simpl in Hb; [apply IHl in Hb|apply IHr in Hb]; set_solver.
Qed.

Lemma search_path_frame (h h' : gmap addr node_t) k t :
  (forall b, b ∈ addrs t -> h' !! b = h !! b) -> search_path h' k t = search_path h k t.
Proof.
  induction t as [|l IHl a r IHr]; simpl; [reflexivity|].
  intros Hfr. rewrite (Hfr a) by set_solver.
  destruct (h !! a) as [x|]; [|reflexivity].
  destruct (key x =? k); [reflexivity|]. f_equal.
  destruct (comparator k (key x)); simpl; [apply IHl|apply IHr]; intros b Hb; apply Hfr;
    set_solver.
Qed.

Lemma mark_path_lookup k t :
  forall (h : gmap addr node_t) b,
    tree_at h t -> NoDup (addrs t) ->
    mark_path k t h !! b
    = if decide (b ∈ search_path h k t) then set_modified true <$> (h !! b) else h !! b.
Proof.
  induction t as [|l IHl a r IHr]; intros h b Ht Hnd.
  - simpl. destruct (decide (b ∈ [])); [set_solver|reflexivity].
  - pose proof Ht as ((x & Hx & Hxl & Hxr) & Hl & Hr).
    simpl. rewrite Hx.
    destruct (key x =? k) eqn:Ek.
    + destruct (decide (b = a)) as [->|Hne].
      * rewrite lookup_insert_eq, Hx. destruct (decide (a ∈ [a])); [reflexivity|set_solver].
      * rewrite lookup_insert_ne by congruence.
        destruct (decide (b ∈ [a])); [set_solver|reflexivity].
    + set (sm := comparator k (key x)).
      destruct (NoDup_sub sm _ _ _ Hnd) as (Hnds & Has).
      set (h1 := <[a := set_modified true x]> h).
      assert (Hfr : forall c, c ∈ addrs (sub sm l r) -> h1 !! c = h !! c).
      { intros c Hc. unfold h1. apply lookup_insert_ne. intros <-. contradiction. }
      assert (IH : mark_path k (sub sm l r) h1 !! b
                   = if decide (b ∈ search_path h1 k (sub sm l r))
                     then set_modified true <$> (h1 !! b) else h1 !! b).
      { destruct sm; simpl; [apply IHl|apply IHr]; auto;
          eapply tree_at_frame; eauto. }
      rewrite IH, (search_path_frame h h1 k _ Hfr).
      destruct (decide (b = a)) as [->|Hne].
      * destruct (decide (a ∈ search_path h k (sub sm l r))) as [Hin|_].
        { apply search_path_in in Hin. contradiction. }
        unfold h1. rewrite lookup_insert_eq, Hx.
        destruct (decide (a ∈ a :: search_path h k (sub sm l r))); [reflexivity|set_solver].
      * unfold h1. rewrite lookup_insert_ne by congruence.
        destruct (decide (b ∈ search_path h k (sub sm l r))),
          (decide (b ∈ a :: search_path h k (sub sm l r))); try reflexivity; set_solver.
Qed.

Lemma set_modified_impl_run k t :
  forall fuel s,
    tree_at (store s) t -> NoDup (addrs t) -> (height t < fuel)%nat ->
    set_modified_impl fuel (shape_root t) k s
    = Ok tt (set_store (mark_path k t (store s)) s).
Proof.
  induction t as [|l IHl a r IHr]; intros fuel s Ht Hnd Hfuel.
  - destruct fuel; [simpl in Hfuel; lia|]. simpl. rewrite set_store_id. reflexivity.
  - destruct fuel; [simpl in Hfuel; lia|]. simpl in Hfuel.
    pose proof Ht as ((x & Hx & Hxl & Hxr) & Hl & Hr).
    simpl shape_root. simpl set_modified_impl. simpl mark_path. rewrite Hx.
    rewrite (assign_run _ _ _ a x Hx).
    set (s1 := set_store (<[a := set_modified true x]> (store s)) s).
    assert (Hx1 : store s1 !! a = Some (set_modified true x)) by apply lookup_insert_eq.
    rewrite (bind_eval _ _ _ _ _ (field_Some key s1 a _ Hx1)).
    replace (key (set_modified true x)) with (key x) by (destruct x; reflexivity).
    destruct (key x =? k); [reflexivity|].
    set (sm := comparator k (key x)).
    rewrite (bind_eval _ _ _ _ _ (field_Some (fun y => child y sm) s1 a _ Hx1)).
    replace (child (set_modified true x) sm) with (shape_root (sub sm l r)).
    2:{ rewrite <- (shape_root_sub_child _ l a r x sm Hx Hxl Hxr). destruct x, sm; reflexivity. }
    destruct (NoDup_sub sm _ _ _ Hnd) as (Hnds & Has).
    assert (Ht1 : tree_at (store s1) (sub sm l r)).
    { eapply tree_at_frame; [|apply tree_at_sub; eauto].
      intros c Hc. simpl. apply lookup_insert_ne. intros <-. contradiction. }
    pose proof (height_sub sm l r).
    assert (IH : set_modified_impl fuel (shape_root (sub sm l r)) k s1
                 = Ok tt (set_store (mark_path k (sub sm l r) (store s1)) s1)).
    { destruct sm; simpl in *; [apply IHl|apply IHr]; auto; lia. }
    rewrite IH. reflexivity.
Qed.

Lemma path_to_self t x : x ∈ addrs t -> x ∈ path_to t x.
Proof.
  induction t as [|l IHl a r IHr]; simpl; [set_solver|].
  intros Hx. destruct (decide (x = a)); [set_solver|].
  destruct (decide (x ∈ addrs l)); [set_solver|].
  destruct (decide (x ∈ addrs r)); set_solver.
Qed.

Lemma path_to_in t x b : b ∈ path_to t x -> b ∈ addrs t.
Proof.
  induction t as [|l IHl a r IHr]; simpl; [set_solver|].
  destruct (decide (x = a)); [set_solver|].
  destruct (decide (x ∈ addrs l)); [set_solver|].
  destruct (decide (x ∈ addrs r)); set_solver.
Qed.

(** In a search tree the search for the key of a node goes down the path to
    that node. *)
Lemma search_path_path_to (h : gmap addr node_t) t x y :
  tree_at h t -> NoDup (addrs t) -> bst h t ->
  x ∈ addrs t -> h !! x = Some y ->
  search_path h (key y) t = path_to t x.
Proof.
  induction t as [|l IHl a r IHr]; simpl; [set_solver|].
  intros ((x0 & Hx0 & _) & Htl & Htr) Hnd ((x0' & Hx0' & Hlt & Hgt) & Hbl & Hbr) Hx Hy.
  rewrite Hx0 in Hx0'. injection Hx0' as <-. rewrite Hx0.
  change (NoDup (addrs (Br l a r))) in Hnd.
  destruct (NoDup_br _ _ _ Hnd) as (Hndl & Hndr & Hal & Har & Hdisj).
  destruct (decide (x = a)) as [->|Hne].
  - rewrite Hx0 in Hy. injection Hy as <-. rewrite Z.eqb_refl. reflexivity.
  - destruct (decide (x ∈ addrs l)) as [Hin|Hnin].
    + pose proof (Hlt x y Hin Hy).
      replace (key x0 =? key y) with false by (symmetry; apply Z.eqb_neq; lia).
      unfold comparator. replace (key x0 <? key y) with true by (symmetry; apply Z.ltb_lt; lia).
      simpl. f_equal. apply IHl; auto.
    + assert (Hinr : x ∈ addrs r) by set_solver.
      destruct (decide (x ∈ addrs r)); [|contradiction].
      pose proof (Hgt x y Hinr Hy).
      replace (key x0 =? key y) with false by (symmetry; apply Z.eqb_neq; lia).
      unfold comparator. replace (key x0 <? key y) with false by (symmetry; apply Z.ltb_ge; lia).
      simpl. f_equal. apply IHr; auto.
Qed.

(** ** C7 and C10: [try_delete] *)

Lemma find_if_delete_run fuel n block_idx dag s t i :
  root (tree s) = shape_root t -> tree_at (store s) t -> (height t < fuel)%nat ->
  find_if fuel (try_delete_pred n block_idx dag) i s
  = Ok (scan (delete_step (store s) n block_idx dag) (addrs t) i) s.
Proof.
  intros Hroot Ht Hfuel. unfold find_if. rewrite bind_gets, Hroot.
  apply find_if_impl_run; auto.
  intros a c Ha. destruct (tree_at_lookup _ _ _ Ht Ha) as (x & Hx).
  eapply try_delete_pred_run; eauto.
Qed.

Lemma find_if_logged_delete_run fuel n block_idx dag s t cl :
  root (tree s) = shape_root t -> tree_at (store s) t -> (height t < fuel)%nat ->
  find_if fuel (logged (try_delete_pred n block_idx dag)) cl s
  = Ok (scan (logged_step (delete_step (store s) n block_idx dag)) (addrs t) cl) s.
Proof.
  intros Hroot Ht Hfuel. unfold find_if. rewrite bind_gets, Hroot.
  apply find_if_impl_run; auto.
  intros a c Ha. destruct (tree_at_lookup _ _ _ Ht Ha) as (x & Hx).
  apply logged_run. eapply try_delete_pred_run; eauto.
Qed.

(** C7.  In a search tree whose [(n+1)]-th node, in in-order, with the given
    dagger and block index is [x], [try_delete(n, block_index, dagger)]
    returns the key of [x]; the search called the predicate once on each
    node before [x] and on [x], in in-order, and on no node after [x]; the
    delete flag of [x] is set, the tree is linked as before, the nodes on
    the path from the root to [x] are marked modified and no other node
    object is touched; [tree_size] is one less. *)
Theorem try_delete_nth fuel n block_idx dag s t x xn :
  root (tree s) = shape_root t -> tree_at (store s) t -> NoDup (addrs t) ->
  bst (store s) t -> (height t < fuel)%nat -> 0 <= n ->
  List.filter (node_matches (store s) block_idx dag) (addrs t) !! Z.to_nat n = Some x ->
  store s !! x = Some xn ->
  exists s' pre post,
    try_delete fuel n block_idx dag s = Ok (key xn) s'
    /\ addrs t = pre ++ x :: post
    /\ find_if fuel (logged (try_delete_pred n block_idx dag)) (0, []) s
       = Ok (Some x, (n + 1, map Some (pre ++ [x]))) s
    /\ root (tree s') = root (tree s)
    /\ tree_at (store s') t
    /\ (exists x', store s' !! x = Some x' /\ delete_flag x' = true)
    /\ (forall b, b ∈ path_to t x -> exists y, store s' !! b = Some y /\ modified y = true)
    /\ (forall b, b ∉ path_to t x -> store s' !! b = store s !! b)
    /\ tree_size s' = tree_size s - 1
    /\ removed_nodes s' = removed_nodes s ++ [Some x]
    /\ removed_keys s' = removed_keys s ++ [key xn].
Proof.
  intros Hroot Ht Hnd Hbst Hfuel Hn Hnth Hx.
  replace (Z.to_nat n) with (Z.to_nat (n - 0)) in Hnth by (f_equal; lia).
  destruct (scan_delete_found (store s) n block_idx dag x (addrs t) 0 Hn Hnth)
    as (pre & post & Hsplit & Hscan & Hlog).
  assert (Hin : x ∈ addrs t) by (rewrite Hsplit; set_solver).
  pose proof (search_path_path_to _ _ _ _ Ht Hnd Hbst Hin Hx) as Hsp.
  set (s1 := set_removed_nodes (removed_nodes s ++ [Some x]) s).
  set (s2 := set_removed_keys (removed_keys s ++ [key xn]) s1).
  set (h3 := mark_path (key xn) t (store s)).
  set (s3 := set_store h3 s2).
  assert (Hx3 : h3 !! x = Some (set_modified true xn)).
  { unfold h3. rewrite mark_path_lookup by assumption. rewrite Hsp.
    destruct (decide (x ∈ path_to t x)) as [_|Hn']; [rewrite Hx; reflexivity|].
    exfalso. apply Hn'. apply path_to_self. exact Hin. }
  set (x' := set_delete_flag true (set_modified true xn)).
  set (s4 := set_store (<[x := x']> h3) s3).
  set (s5 := set_tree_size (tree_size s - 1) s4).
  exists s5, pre, post. split.
  { unfold try_delete, noexcept.
    rewrite (bind_eval _ _ _ _ _ (find_if_delete_run fuel n block_idx dag s t 0 Hroot Ht Hfuel)).
    rewrite Hscan. cbn [fst]. rewrite bind_modify. fold s1.
    rewrite (bind_eval _ _ _ _ _ (field_Some key s1 x xn Hx)).
    rewrite bind_modify. fold s2.
    rewrite (bind_eval _ _ _ _ _ (field_Some key s2 x xn Hx)).
    assert (Hmark : set_modified_from_root_to fuel (key xn) s2 = Ok tt s3).
    { unfold set_modified_from_root_to. rewrite bind_gets.
      change (root (tree s2)) with (root (tree s)). rewrite Hroot.
      apply (set_modified_impl_run (key xn) t fuel s2 Ht Hnd Hfuel). }
    rewrite (bind_eval _ _ _ _ _ Hmark).
    rewrite (assign_run _ _ _ x (set_modified true xn)) by exact Hx3.
    rewrite bind_modify.
    change (set_tree_size _ _) with s5.
    rewrite (field_Some key s5 x x') by apply lookup_insert_eq.
    reflexivity. }
  split; [exact Hsplit|].
  split.
  { rewrite (find_if_logged_delete_run fuel n block_idx dag s t _ Hroot Ht Hfuel).
    rewrite Hlog. reflexivity. }
  split; [reflexivity|].
  assert (Hlk : forall b, store s5 !! b
                 = if decide (b = x) then Some x'
                   else if decide (b ∈ path_to t x) then set_modified true <$> (store s !! b)
                        else store s !! b).
  { intros b. simpl. destruct (decide (b = x)) as [->|Hne].
    - apply lookup_insert_eq.
    - rewrite lookup_insert_ne by congruence. unfold h3.
      rewrite mark_path_lookup by assumption. rewrite Hsp. reflexivity. }
  split.
  { eapply tree_at_links; [|exact Ht]. intros b Hb y Hy. rewrite Hlk.
    destruct (decide (b = x)) as [->|Hne].
    - rewrite Hx in Hy. injection Hy as <-. exists x'. split; [reflexivity|].
      destruct xn; auto.
    - destruct (decide (b ∈ path_to t x)); rewrite Hy; simpl; eexists; split;
        try reflexivity; destruct y; auto. }
  split.
  { exists x'. split; [rewrite Hlk; destruct (decide (x = x)); [reflexivity|congruence]|].
    destruct xn; reflexivity. }
  split.
  { intros b Hb. rewrite Hlk. destruct (decide (b = x)) as [->|Hne].
    - exists x'. split; [reflexivity|]. destruct xn; reflexivity.
    - destruct (decide (b ∈ path_to t x)); [|contradiction].
      destruct (tree_at_lookup _ _ _ Ht (path_to_in _ _ _ Hb)) as (y & Hy).
      rewrite Hy. simpl. eexists. split; [reflexivity|]. destruct y; reflexivity. }
  split.
  { intros b Hb. rewrite Hlk. destruct (decide (b = x)) as [->|Hne].
    - exfalso. apply Hb. apply path_to_self. exact Hin.
    - destruct (decide (b ∈ path_to t x)); [contradiction|reflexivity]. }
  repeat split.
Qed.

(** C10.  [try_delete] has no branch for a failed search: in a tree with
    fewer than [n + 1] nodes of the given dagger and block index [find_if]
    returns [nullptr], and [x->key] dereferences it. *)
Theorem try_delete_null_dereference fuel n block_idx dag s t :
  root (tree s) = shape_root t -> tree_at (store s) t -> (height t < fuel)%nat ->
  0 <= n ->
  Z.of_nat (length (List.filter (node_matches (store s) block_idx dag) (addrs t))) < n + 1 ->
  try_delete fuel n block_idx dag s = Undefined null_dereference.
Proof.
  intros Hroot Ht Hfuel Hn Hcount.
  unfold try_delete, noexcept.
  rewrite (bind_eval _ _ _ _ _ (find_if_delete_run fuel n block_idx dag s t 0 Hroot Ht Hfuel)).
  rewrite (scan_delete_none (store s) n block_idx dag (addrs t) 0 Hn) by lia.
  reflexivity.
Qed.

(** ** [try_replace_impl] *)

Lemma vector_at_Some {A} (v : list A) j a s :
  0 <= j -> v !! Z.to_nat j = Some a -> vector_at v j s = Ok a s.
Proof.
  intros Hj Hv. unfold vector_at.
  destruct (j <? 0) eqn:E; [apply Z.ltb_lt in E; lia|]. rewrite Hv. reflexivity.
Qed.

Lemma node_eqb_refl n : node_eqb n n = true.
Proof. unfold node_eqb. apply bool_decide_eq_true. reflexivity. Qed.

(** With tables that keep every linear index of the tree, nothing is
    copied: [try_replace_impl] returns the node it was called on and
    leaves the state as it is. *)
Lemma try_replace_impl_identity c cd t :
  forall fuel s,
    t <> Leaf -> tree_at (store s) t -> (height t <= fuel)%nat ->
    (forall b x, b ∈ addrs t -> store s !! b = Some x -> keeps_index c cd (op x)) ->
    try_replace_impl fuel (shape_root t) c cd s = Ok (shape_root t) s.
Proof.
  induction t as [|l IHl a r IHr]; intros fuel s Hne Ht Hfuel Hid; [congruence|].
  destruct fuel; [simpl in Hfuel; lia|]. simpl in Hfuel.
  pose proof Ht as ((x & Hx & Hxl & Hxr) & Hl & Hr).
  simpl shape_root. simpl try_replace_impl.
  rewrite (bind_eval _ _ _ _ _ (field_Some left s a x Hx)). rewrite Hxl.
  assert (H1 : match shape_root l with
               | Some _ => try_replace_impl fuel (shape_root l) c cd
               | None => ret None
               end s = Ok (shape_root l) s).
  { destruct l as [|l1 a1 r1]; [reflexivity|].
    apply IHl; [discriminate|exact Hl|simpl in *; lia|].
    intros b y Hb. apply Hid. simpl. set_solver. }
  rewrite (bind_eval _ _ _ _ _ H1).
  rewrite (bind_eval _ _ _ _ _ (field_Some right s a x Hx)). rewrite Hxr.
  assert (H2 : match shape_root r with
               | Some _ => try_replace_impl fuel (shape_root r) c cd
               | None => ret None
               end s = Ok (shape_root r) s).
  { destruct r as [|l1 a1 r1]; [reflexivity|].
    apply IHr; [discriminate|exact Hr|simpl in *; lia|].
    intros b y Hb. apply Hid. simpl. set_solver. }
  rewrite (bind_eval _ _ _ _ _ H2).
  rewrite (bind_eval _ _ _ _ _ (field_Some op s a x Hx)).
  destruct (Hid a x ltac:(simpl; set_solver) Hx) as (Hli & o' & Ho' & Hsame).
  rewrite (bind_eval _ _ _ _ _ (vector_at_Some _ _ o' s Hli Ho')).
  rewrite (bind_eval _ _ _ _ _ (field_Some left s a x Hx)).
  rewrite (bind_eval _ _ _ _ _ (field_Some right s a x Hx)).
  rewrite Hsame, Z.eqb_refl, Hxl, Hxr, !node_eqb_refl. reflexivity.
Qed.

Lemma used_fresh old pool i i' (h : gmap addr node_t) b :
  fresh_pool old pool i h -> used pool i i' b -> (b ∉ old) /\ is_Some (h !! b).
Proof.
  intros (Hf & _) (j & Hj & Hb). destruct (Hf j (Some b) ltac:(lia) Hb) as (p & [= <-] & ? & ?).
  auto.
Qed.

Lemma used_disjoint old pool i i' i'' (h : gmap addr node_t) b :
  fresh_pool old pool i h -> i <= i' ->
  used pool i i' b -> used pool i' i'' b -> False.
Proof.
  intros (_ & Hinj) Hi (j1 & Hj1 & Hb1) (j2 & Hj2 & Hb2).
  assert (j1 = j2) by (eapply (Hinj j1 j2); eauto; lia). lia.
Qed.

Lemma used_weaken pool i1 i2 i1' i2' b :
  i1' <= i1 -> i2 <= i2' -> used pool i1 i2 b -> used pool i1' i2' b.
Proof. intros H1 H2 (j & Hj & Hb). exists j. split; [lia|exact Hb]. Qed.

Lemma fresh_pool_mono old pool i i' (h h' : gmap addr node_t) :
  fresh_pool old pool i h -> i <= i' ->
  (forall b, ~ used pool i i' b -> h' !! b = h !! b) ->
  fresh_pool old pool i' h'.
Proof.
  intros Hfp Hi Hfr. pose proof Hfp as (Hf & Hinj). split.
  - intros j n Hj Hn. destruct (Hf j n ltac:(lia) Hn) as (p & -> & Hp & Hs).
    exists p. split; [reflexivity|]. split; [exact Hp|]. rewrite Hfr; [exact Hs|].
    intros (j' & Hj' & Hb'). assert (j' = j) by (eapply (Hinj j' j); eauto; lia). lia.
  - intros j1 j2 n H1 H2. apply Hinj; lia.
Qed.

Lemma fresh_closed_frame old (h h' : gmap addr node_t) t :
  (forall b, b ∈ addrs t -> h' !! b = h !! b) ->
  fresh_closed old h t -> fresh_closed old h' t.
Proof.
  induction t as [|l IHl a r IHr]; [auto|].
  intros Hfr. simpl. destruct (decide (a ∈ old)); [auto|].
  intros ((x & Hx & Hm) & Hl & Hr). split; [|split].
  - exists x. rewrite Hfr by (simpl; set_solver). auto.
  - apply IHl; auto. intros b Hb. apply Hfr. simpl. set_solver.
  - apply IHr; auto. intros b Hb. apply Hfr. simpl. set_solver.
Qed.

Lemma fresh_closed_old old (h : gmap addr node_t) t :
  (forall b, b ∈ addrs t -> b ∈ old) -> fresh_closed old h t.
Proof.
  destruct t as [|l a r]; [simpl; auto|].
  intros Hold. simpl. destruct (decide (a ∈ old)) as [_|Hn]; [exact Hold|].
  exfalso. apply Hn. apply Hold. simpl. set_solver.
Qed.

(** Nothing happens at a null child. *)
Lemma replace_post_leaf old pool c cd s :
  pool_inv pool s -> replace_post old pool c cd Leaf s None s Leaf.
Proof.
  intros Hp. split; simpl; auto; try reflexivity; try lia; try congruence.
  - intros b Hb. set_solver.
  - intros k o cp H. discriminate.
Qed.

Lemma copies_same t : copies t t = [].
Proof.
  induction t as [|l IHl a r IHr]; [reflexivity|]. simpl. rewrite IHl, IHr.
  destruct (decide (a = a)); [reflexivity|congruence].
Qed.

Lemma relabelled_frame old c cd (h1 h1' h2 h2' : gmap addr node_t) t :
  forall t',
    (forall b, b ∈ addrs t -> h2 !! b = h1 !! b) ->
    (forall b, b ∈ addrs t' -> h2' !! b = h1' !! b) ->
    relabelled old c cd h1 h1' t t' -> relabelled old c cd h2 h2' t t'.
Proof.
  induction t as [|l IHl a r IHr]; intros [|l' a' r']; simpl; auto.
  intros H1 H2 ((x & x' & Hx & Hx' & R) & Hl & Hr). split; [|split].
  - exists x, x'. rewrite H1, H2 by set_solver. auto.
  - apply IHl; auto; intros b Hb; [apply H1|apply H2]; set_solver.
  - apply IHr; auto; intros b Hb; [apply H1|apply H2]; set_solver.
Qed.

(** A sub-tree that is left alone. *)
Lemma shares_frame c cd (h1 h2 : gmap addr node_t) t :
  forall t',
    (forall b, b ∈ addrs t -> h2 !! b = h1 !! b) ->
    shares c cd h1 t t' -> shares c cd h2 t t'.
Proof.
  induction t as [|l IHl a r IHr]; intros [|l' a' r']; simpl; auto.
  intros Hf (Hiff & Hl & Hr). split; [|split].
  - rewrite Hiff. split; intros H b Hb; destruct (H b Hb) as (x & Hx & Hs); exists x;
      (split; [|exact Hs]); [rewrite Hf by exact Hb|rewrite <- Hf by exact Hb]; exact Hx.
  - apply IHl; auto. intros b Hb. apply Hf. set_solver.
  - apply IHr; auto. intros b Hb. apply Hf. set_solver.
Qed.

(** In a shared sub-tree no operator changes. *)
Lemma shares_same c cd (h : gmap addr node_t) t :
  shares c cd h t t -> forall b, b ∈ addrs t -> unchanged c cd h b.
Proof.
  destruct t as [|l a r]; [intros _ b Hb; simpl in Hb; set_solver|].
  intros (Hiff & _). apply Hiff. reflexivity.
Qed.

Lemma replace_post_same old pool c cd t s :
  tree_at (store s) t -> (forall b, b ∈ addrs t -> b ∈ old) -> pool_inv pool s ->
  relabelled old c cd (store s) (store s) t t ->
  shares c cd (store s) t t ->
  replace_post old pool c cd t s (shape_root t) s t.
Proof.
  intros Ht Hold Hp Hrel Hsh. split; auto; try reflexivity; try lia; try congruence.
  - apply fresh_closed_old. exact Hold.
  - rewrite copies_same. simpl. lia.
  - rewrite copies_same. intros k o cp H. discriminate.
Qed.

(** The recursive call on a child: a null child is skipped. *)
Lemma try_replace_child old pool c cd fuel t :
  (t <> Leaf ->
   forall s r s',
     tree_at (store s) t -> (forall b, b ∈ addrs t -> b ∈ old) ->
     pool_inv pool s ->
     fresh_pool old pool (nodes_storage.index (backup_nodes s)) (store s) ->
     try_replace_impl fuel (shape_root t) c cd s = Ok r s' ->
     exists t', replace_post old pool c cd t s r s' t') ->
  forall s r s',
    tree_at (store s) t -> (forall b, b ∈ addrs t -> b ∈ old) ->
    pool_inv pool s ->
    fresh_pool old pool (nodes_storage.index (backup_nodes s)) (store s) ->
    match shape_root t with
    | Some _ => try_replace_impl fuel (shape_root t) c cd
    | None => ret None
    end s = Ok r s' ->
    exists t', replace_post old pool c cd t s r s' t'.
Proof.
  intros IH s r s' Ht Hold Hp Hfp Hrun.
  destruct t as [|l a r0].
  - simpl in Hrun. injection Hrun as <- <-. exists Leaf. apply replace_post_leaf. exact Hp.
  - apply (IH ltac:(discriminate) s r s'); auto.
Qed.

(** What [try_replace_impl] has done when it returns. *)
Lemma try_replace_impl_spec old pool c cd t :
  forall fuel s r s',
    t <> Leaf -> tree_at (store s) t -> (forall b, b ∈ addrs t -> b ∈ old) ->
    pool_inv pool s ->
    fresh_pool old pool (nodes_storage.index (backup_nodes s)) (store s) ->
    try_replace_impl fuel (shape_root t) c cd s = Ok r s' ->
    exists t', replace_post old pool c cd t s r s' t'.
Proof.
  induction t as [|l IHl a r IHr]; intros fuel s r0 s' Hne Ht Hold Hp Hfp Hrun; [congruence|].
  destruct fuel; [discriminate|].
  pose proof Ht as ((x & Hx & Hxl & Hxr) & Hl & Hr).
  simpl shape_root in Hrun. simpl try_replace_impl in Hrun.
  set (i0 := nodes_storage.index (backup_nodes s)) in *.
  assert (Hi0 : -1 <= i0) by apply Hp.
  (* left child *)
  rewrite (bind_eval _ _ _ _ _ (field_Some left s a x Hx)) in Hrun. rewrite Hxl in Hrun.
  apply bind_Ok in Hrun as (new_left & s1 & Hrl & Hrun).
  destruct (try_replace_child old pool c cd fuel l
              (fun Hn s0 r1 s0' H1 H2 H3 H4 H5 => IHl fuel s0 r1 s0' Hn H1 H2 H3 H4 H5)
              s new_left s1)
    as (l' & Pl); auto.
  { intros b Hb. apply Hold. simpl. set_solver. }
  clear Hrl.
  set (i1 := nodes_storage.index (backup_nodes s1)) in *.
  pose proof (rp_index _ _ _ _ _ _ _ _ _ Pl) as Hi01. fold i0 i1 in Hi01.
  pose proof (fresh_pool_mono _ _ _ _ _ _ Hfp Hi01 (rp_frame _ _ _ _ _ _ _ _ _ Pl)) as Hfp1.
  assert (Hold_keep1 : forall b, b ∈ old -> store s1 !! b = store s !! b).
  { intros b Hb. apply (rp_frame _ _ _ _ _ _ _ _ _ Pl). intros Hu.
    destruct (used_fresh _ _ _ _ _ _ Hfp Hu). contradiction. }
  (* right child *)
  assert (Hx1 : store s1 !! a = Some x).
  { rewrite Hold_keep1; [exact Hx|]. apply Hold. simpl. set_solver. }
  rewrite (bind_eval _ _ _ _ _ (field_Some right s1 a x Hx1)) in Hrun. rewrite Hxr in Hrun.
  apply bind_Ok in Hrun as (new_right & s2 & Hrr & Hrun).
  assert (Hr1 : tree_at (store s1) r).
  { eapply tree_at_frame; [|exact Hr]. intros b Hb. apply Hold_keep1. apply Hold.
    simpl. set_solver. }
  destruct (try_replace_child old pool c cd fuel r
              (fun Hn s0 r1 s0' H1 H2 H3 H4 H5 => IHr fuel s0 r1 s0' Hn H1 H2 H3 H4 H5)
              s1 new_right s2)
    as (r' & Pr); auto.
  { intros b Hb. apply Hold. simpl. set_solver. }
  { apply (rp_pool _ _ _ _ _ _ _ _ _ Pl). }
  clear Hrr.
  set (i2 := nodes_storage.index (backup_nodes s2)) in *.
  pose proof (rp_index _ _ _ _ _ _ _ _ _ Pr) as Hi12. fold i1 i2 in Hi12.
  pose proof (fresh_pool_mono _ _ _ _ _ _ Hfp1 Hi12 (rp_frame _ _ _ _ _ _ _ _ _ Pr)) as Hfp2.
  assert (Hold_keep2 : forall b, b ∈ old -> store s2 !! b = store s !! b).
  { intros b Hb. rewrite <- Hold_keep1 by exact Hb.
    apply (rp_frame _ _ _ _ _ _ _ _ _ Pr). intros Hu.
    destruct (used_fresh _ _ _ _ _ _ Hfp1 Hu). contradiction. }
  assert (Hframe2 : forall b, ~ used pool i0 i2 b -> store s2 !! b = store s !! b).
  { intros b Hu. rewrite (rp_frame _ _ _ _ _ _ _ _ _ Pr).
    - apply (rp_frame _ _ _ _ _ _ _ _ _ Pl). intros Hu'. apply Hu.
      eapply used_weaken; [| |exact Hu']; fold i0 i1; lia.
    - intros Hu'. apply Hu. eapply used_weaken; [| |exact Hu']; fold i1 i2; lia. }
  assert (Hx2 : store s2 !! a = Some x).
  { rewrite Hold_keep2; [exact Hx|]. apply Hold. simpl. set_solver. }
  (* the node itself *)
  rewrite (bind_eval _ _ _ _ _ (field_Some op s2 a x Hx2)) in Hrun.
  apply bind_Ok in Hrun as (new_op & s2' & Hvec & Hrun).
  assert (Hnew : (if linear_index (op x) <? 0 then None
                  else (if dagger (op x) then cd else c) !! Z.to_nat (linear_index (op x)))
                 = Some new_op /\ s2' = s2).
  { unfold vector_at in Hvec. destruct (if _ <? 0 then _ else _); [|discriminate].
    injection Hvec as <- <-. auto. }
  destruct Hnew as (Hnew & ->). clear Hvec.
  assert (Hsub : substitute c cd (op x)
                 = Some (if negb (linear_index new_op =? linear_index (op x))
                         then new_op else op x)).
  { unfold substitute. rewrite Hnew. reflexivity. }
  rewrite (bind_eval _ _ _ _ _ (field_Some left s2 a x Hx2)) in Hrun.
  rewrite (bind_eval _ _ _ _ _ (field_Some right s2 a x Hx2)) in Hrun.
  rewrite Hxl, Hxr in Hrun.
  destruct (negb (linear_index new_op =? linear_index (op x))
            || negb (node_eqb new_left (shape_root l))
            || negb (node_eqb new_right (shape_root r))) eqn:Hcond.
  - (* the node is copied *)
    rewrite (bind_eval _ _ _ _ _ (field_Some key s2 a x Hx2)) in Hrun.
    rewrite (bind_eval _ _ _ _ _ (field_Some color s2 a x Hx2)) in Hrun.
    rewrite (bind_eval _ _ _ _ _ (field_Some N s2 a x Hx2)) in Hrun.
    apply bind_Ok in Hrun as (new_node & s3 & Hswap & Hrun).
    unfold backup_call, nodes_storage.swap_next, nodes_storage.at_ in Hswap.
    change (nodes_storage.i (backup_nodes s2)) with i2 in Hswap.
    destruct (rp_pool _ _ _ _ _ _ _ _ _ Pr) as (Hi2 & Hpool2). fold i2 in Hi2, Hpool2.
    destruct (i2 + 1 <? 0) eqn:E; [apply Z.ltb_lt in E; lia|].
    rewrite (Hpool2 (Z.to_nat (i2 + 1)) ltac:(lia)) in Hswap.
    destruct (pool !! Z.to_nat (i2 + 1)) as [m|] eqn:Hm; [|discriminate].
    injection Hswap as <- <-.
    destruct Hfp2 as (Hf2 & Hinj2).
    destruct (Hf2 (Z.to_nat (i2 + 1)) m ltac:(lia) Hm) as (p & -> & Hpold & (xp & Hxp)).
    set (s3 := set_backup_nodes _ s2) in Hrun.
    assert (Hused_p : used pool i2 (i2 + 1) p).
    { exists (Z.to_nat (i2 + 1)). split; [lia|exact Hm]. }
    set (xf := set_modified true
                 (set_N (N x)
                    (set_color (color x)
                       (set_right new_right
                          (set_left new_left
                             (set_op (if negb (linear_index new_op =? linear_index (op x))
                                      then new_op else op x)
                                (set_key (key x) xp))))))).
    assert (Hfinal : r0 = Some p /\ s' = set_store (<[p := xf]> (store s2)) s3).
    { unfold reset in Hrun.
      assert (Hreset : (if negb (linear_index new_op =? linear_index (op x))
                        then assign (Some p) (fun y => set_op new_op (set_key (key x) y))
                        else assign (Some p) (fun y => set_op (op x) (set_key (key x) y))) s3
                       = Ok tt (set_store
                                  (<[p := set_op (if negb (linear_index new_op
                                                            =? linear_index (op x))
                                                  then new_op else op x)
                                            (set_key (key x) xp)]> (store s2)) s3)).
      { destruct (negb _);
          [exact (assign_Some (fun y => set_op new_op (set_key (key x) y)) s3 p xp Hxp)
          |exact (assign_Some (fun y => set_op (op x) (set_key (key x) y)) s3 p xp Hxp)]. }
      rewrite (bind_eval _ _ _ _ _ Hreset) in Hrun.
      rewrite (assign_run _ _ _ p _ (lookup_insert_eq _ _ _)) in Hrun.
      rewrite (assign_run _ _ _ p _ (lookup_insert_eq _ _ _)) in Hrun.
      rewrite (assign_run _ _ _ p _ (lookup_insert_eq _ _ _)) in Hrun.
      rewrite (assign_run _ _ _ p _ (lookup_insert_eq _ _ _)) in Hrun.
      rewrite (assign_run _ _ _ p _ (lookup_insert_eq _ _ _)) in Hrun.
      injection Hrun as <- <-. split; [reflexivity|].
      cbn [store set_store]. rewrite !insert_insert_eq. reflexivity. }
    destruct Hfinal as (-> & ->). clear Hrun. subst s3.
    assert (Hpa : forall b, b ∈ old \/ used pool i0 i2 b -> b <> p).
    { intros b [Hb|Hb] ->; [contradiction|].
      eapply (used_disjoint old pool i0 i2 (i2 + 1)); eauto. lia. }
    exists (Br l' p r'). split.
    + reflexivity.
    + cbn [store set_store set_backup_nodes]. simpl tree_at. split; [|split].
      * exists xf. rewrite lookup_insert_eq. split; [reflexivity|].
        rewrite <- (rp_root _ _ _ _ _ _ _ _ _ Pl), <- (rp_root _ _ _ _ _ _ _ _ _ Pr).
        destruct xp; auto.
      * eapply tree_at_frame; [|apply (rp_tree _ _ _ _ _ _ _ _ _ Pl)].
        intros b Hb. pose proof (rp_addrs _ _ _ _ _ _ _ _ _ Pl b Hb) as Hb'. fold i0 i1 in Hb'.
        rewrite lookup_insert_ne.
        -- apply (rp_frame _ _ _ _ _ _ _ _ _ Pr). fold i1 i2. intros Hu.
           destruct Hb' as [Hb'|Hb'].
           ++ destruct (used_fresh _ _ _ _ _ _ Hfp1 Hu). contradiction.
           ++ eapply (used_disjoint old pool i0 i1 i2); eauto.
        -- intros <-. eapply Hpa; [|reflexivity].
           destruct Hb' as [?|Hu]; [auto|]. right.
           eapply used_weaken; [| |exact Hu]; lia.
      * eapply tree_at_frame; [|apply (rp_tree _ _ _ _ _ _ _ _ _ Pr)].
        intros b Hb. pose proof (rp_addrs _ _ _ _ _ _ _ _ _ Pr b Hb) as Hb'. fold i1 i2 in Hb'.
        apply lookup_insert_ne. intros <-. eapply Hpa; [|reflexivity].
        destruct Hb' as [?|Hu]; [auto|]. right.
        eapply used_weaken; [| |exact Hu]; lia.
    + cbn [store set_store set_backup_nodes]. simpl fresh_closed.
      destruct (decide (p ∈ old)); [contradiction|]. split; [|split].
      * exists xf. rewrite lookup_insert_eq. split; [reflexivity|]. destruct xp; reflexivity.
      * eapply fresh_closed_frame; [|apply (rp_closed _ _ _ _ _ _ _ _ _ Pl)].
        intros b Hb. pose proof (rp_addrs _ _ _ _ _ _ _ _ _ Pl b Hb) as Hb'. fold i0 i1 in Hb'.
        rewrite lookup_insert_ne.
        -- apply (rp_frame _ _ _ _ _ _ _ _ _ Pr). fold i1 i2. intros Hu.
           destruct Hb' as [Hb'|Hb'].
           ++ destruct (used_fresh _ _ _ _ _ _ Hfp1 Hu). contradiction.
           ++ eapply (used_disjoint old pool i0 i1 i2); eauto.
        -- intros <-. eapply Hpa; [|reflexivity].
           destruct Hb' as [?|Hu]; [auto|]. right.
           eapply used_weaken; [| |exact Hu]; lia.
      * eapply fresh_closed_frame; [|apply (rp_closed _ _ _ _ _ _ _ _ _ Pr)].
        intros b Hb. pose proof (rp_addrs _ _ _ _ _ _ _ _ _ Pr b Hb) as Hb'. fold i1 i2 in Hb'.
        apply lookup_insert_ne. intros <-. eapply Hpa; [|reflexivity].
        destruct Hb' as [?|Hu]; [auto|]. right.
        eapply used_weaken; [| |exact Hu]; lia.
    + cbn [backup_nodes set_store set_backup_nodes nodes_storage.index nodes_storage.i].
      fold i0. intros b Hb. simpl in Hb.
      apply elem_of_app in Hb as [Hb|Hb]; [|apply elem_of_cons in Hb as [->|Hb]].
      * destruct (rp_addrs _ _ _ _ _ _ _ _ _ Pl b Hb) as [?|Hu]; [auto|]. right.
        eapply used_weaken; [| |exact Hu]; fold i0 i1; lia.
      * right. eapply used_weaken; [| |exact Hused_p]; lia.
      * destruct (rp_addrs _ _ _ _ _ _ _ _ _ Pr b Hb) as [?|Hu]; [auto|]. right.
        eapply used_weaken; [| |exact Hu]; fold i1 i2; lia.
    + cbn [store backup_nodes set_store set_backup_nodes nodes_storage.index nodes_storage.i].
      fold i0. intros b Hu. rewrite lookup_insert_ne.
      * apply Hframe2. intros Hu'. apply Hu. eapply used_weaken; [| |exact Hu']; lia.
      * intros <-. apply Hu. eapply used_weaken; [| |exact Hused_p]; lia.
    + cbn [backup_nodes set_store set_backup_nodes nodes_storage.index nodes_storage.i].
      fold i0. lia.
    + split; cbn [backup_nodes set_store set_backup_nodes nodes_storage.index
                  nodes_storage.i nodes_storage.nodes]; [lia|].
      intros j Hj. rewrite list_lookup_insert_ne by lia. apply Hpool2. lia.
    + pose proof (rp_rest _ _ _ _ _ _ _ _ _ Pl) as R1. pose proof (rp_rest _ _ _ _ _ _ _ _ _ Pr) as R2.
      unfold rest_replace in *. simpl. congruence.
    + intros [= E']. exfalso. apply Hpold. rewrite E'. apply Hold. simpl. set_solver.
    + intros _.
      cbn [backup_nodes set_store set_backup_nodes nodes_storage.index nodes_storage.i].
      fold i0. lia.
    + intros [= E']. exfalso. apply Hpold. rewrite E'. apply Hold. simpl. set_solver.
    + cbn [store set_store set_backup_nodes]. simpl relabelled. split; [|split].
      * exists x, xf. split; [exact Hx|]. split; [apply lookup_insert_eq|].
        split; [destruct xp; reflexivity|]. split; [destruct xp; reflexivity|].
        split; [destruct xp; reflexivity|].
        split; [rewrite Hsub; f_equal; destruct xp; reflexivity|].
        right. split; [exact Hpold|destruct xp; reflexivity].
      * eapply relabelled_frame; [| |apply (rp_rel _ _ _ _ _ _ _ _ _ Pl)];
          [intros b Hb; reflexivity|].
        intros b Hb. pose proof (rp_addrs _ _ _ _ _ _ _ _ _ Pl b Hb) as Hb'. fold i0 i1 in Hb'.
        rewrite lookup_insert_ne.
        -- apply (rp_frame _ _ _ _ _ _ _ _ _ Pr). fold i1 i2. intros Hu.
           destruct Hb' as [Hb'|Hb'].
           ++ destruct (used_fresh _ _ _ _ _ _ Hfp1 Hu). contradiction.
           ++ eapply (used_disjoint old pool i0 i1 i2); eauto.
        -- intros <-. eapply Hpa; [|reflexivity].
           destruct Hb' as [?|Hu]; [auto|]. right.
           eapply used_weaken; [| |exact Hu]; lia.
      * eapply relabelled_frame; [| |apply (rp_rel _ _ _ _ _ _ _ _ _ Pr)].
        -- intros b Hb. symmetry. apply Hold_keep1. apply Hold. simpl. set_solver.
        -- intros b Hb. pose proof (rp_addrs _ _ _ _ _ _ _ _ _ Pr b Hb) as Hb'.
           fold i1 i2 in Hb'.
           apply lookup_insert_ne. intros <-. eapply Hpa; [|reflexivity].
           destruct Hb' as [?|Hu]; [auto|]. right.
           eapply used_weaken; [| |exact Hu]; lia.
    + cbn [backup_nodes set_store set_backup_nodes nodes_storage.nodes].
      rewrite length_insert.
      rewrite (rp_len _ _ _ _ _ _ _ _ _ Pr). apply (rp_len _ _ _ _ _ _ _ _ _ Pl).
    + cbn [backup_nodes set_store set_backup_nodes nodes_storage.index nodes_storage.i].
      fold i0. simpl copies.
      destruct (decide (p = a)) as [E'|_];
        [exfalso; apply Hpold; rewrite E'; apply Hold; simpl; set_solver|].
      pose proof (rp_count _ _ _ _ _ _ _ _ _ Pl) as C1.
      pose proof (rp_count _ _ _ _ _ _ _ _ _ Pr) as C2. fold i0 i1 in C1. fold i1 i2 in C2.
      rewrite !length_app. simpl length. lia.
    + cbn [backup_nodes set_store set_backup_nodes nodes_storage.index nodes_storage.i
           nodes_storage.nodes].
      fold i0. simpl copies.
      destruct (decide (p = a)) as [E'|_];
        [exfalso; apply Hpold; rewrite E'; apply Hold; simpl; set_solver|].
      pose proof (rp_count _ _ _ _ _ _ _ _ _ Pl) as C1.
      pose proof (rp_count _ _ _ _ _ _ _ _ _ Pr) as C2. fold i0 i1 in C1. fold i1 i2 in C2.
      intros k o cp Hk.
      apply lookup_app_Some in Hk as [Hk|[Hge Hk]].
      * pose proof (lookup_lt_Some _ _ _ Hk) as Hlt.
        destruct (rp_slots _ _ _ _ _ _ _ _ _ Pl k o cp Hk) as (Hn & Hpl). fold i0 in Hn, Hpl.
        split; [|exact Hpl].
        rewrite list_lookup_insert_ne by lia.
        rewrite (rp_below _ _ _ _ _ _ _ _ _ Pr) by (fold i1; lia). exact Hn.
      * apply lookup_app_Some in Hk as [Hk|[Hge2 Hk]].
        -- pose proof (lookup_lt_Some _ _ _ Hk) as Hlt.
           destruct (rp_slots _ _ _ _ _ _ _ _ _ Pr _ o cp Hk) as (Hn & Hpl).
           fold i1 in Hn, Hpl.
           replace (Z.to_nat (i1 + 1 + Z.of_nat (k - length (copies l l'))))
             with (Z.to_nat (i0 + 1 + Z.of_nat k)) in Hn, Hpl by lia.
           split; [|exact Hpl].
           rewrite list_lookup_insert_ne by lia. exact Hn.
        -- destruct (k - length (copies l l') - length (copies r r'))%nat eqn:E0;
             [|discriminate].
           simpl in Hk. injection Hk as <- <-.
           replace (Z.to_nat (i0 + 1 + Z.of_nat k)) with (Z.to_nat (i2 + 1)) by lia.
           split; [|exact Hm].
           apply list_lookup_insert_eq.
           pose proof (Hpool2 (Z.to_nat (i2 + 1)) ltac:(lia)) as Hq. rewrite Hm in Hq.
           apply (lookup_lt_Some _ _ _ Hq).
    + cbn [backup_nodes set_store set_backup_nodes nodes_storage.index nodes_storage.i
           nodes_storage.nodes].
      fold i0. intros j Hj.
      rewrite list_lookup_insert_ne by lia.
      rewrite (rp_below _ _ _ _ _ _ _ _ _ Pr) by (fold i1; lia).
      apply (rp_below _ _ _ _ _ _ _ _ _ Pl). fold i0. lia.
    + simpl shares. split; [|split].
      * split.
        -- intros E'. exfalso. apply Hpold. rewrite E'. apply Hold. simpl. set_solver.
        -- intros Hall. exfalso.
           apply orb_true_iff in Hcond as [Hcond|Hcr].
           ++ apply orb_true_iff in Hcond as [Hop|Hcl].
              ** destruct (Hall a ltac:(simpl; set_solver)) as (xa & Hxa & Hsa).
                 rewrite Hx in Hxa. injection Hxa as <-.
                 rewrite Hsub, Hop in Hsa. injection Hsa as Hsa.
                 apply negb_true_iff, Z.eqb_neq in Hop. apply Hop. rewrite Hsa. reflexivity.
              ** apply negb_true_iff, bool_decide_eq_false in Hcl.
                 pose proof (rp_shares _ _ _ _ _ _ _ _ _ Pl) as Sl.
                 pose proof (rp_root _ _ _ _ _ _ _ _ _ Pl) as Rl.
                 destruct l as [|ll la lr], l' as [|ll' la' lr']; simpl in Sl; try contradiction.
                 destruct Sl as (Hiff & _). apply Hcl. rewrite Rl. simpl. f_equal.
                 apply Hiff. intros b Hb. apply Hall. simpl. simpl in Hb. set_solver.
           ++ apply negb_true_iff, bool_decide_eq_false in Hcr.
              pose proof (rp_shares _ _ _ _ _ _ _ _ _ Pr) as Sr.
              pose proof (rp_root _ _ _ _ _ _ _ _ _ Pr) as Rr.
              destruct r as [|rl ra rr], r' as [|rl' ra' rr']; simpl in Sr; try contradiction.
              destruct Sr as (Hiff & _). apply Hcr. rewrite Rr. simpl. f_equal.
              apply Hiff. intros b Hb.
              destruct (Hall b ltac:(simpl; simpl in Hb; set_solver)) as (y & Hy & Hs).
              exists y. split; [|exact Hs].
              rewrite Hold_keep1; [exact Hy|]. apply Hold. simpl. simpl in Hb. set_solver.
      * apply (rp_shares _ _ _ _ _ _ _ _ _ Pl).
      * eapply shares_frame; [|apply (rp_shares _ _ _ _ _ _ _ _ _ Pr)].
        intros b Hb. symmetry. apply Hold_keep1. apply Hold. simpl. set_solver.
  - (* the node is kept *)
    injection Hrun as <- <-.
    apply orb_false_iff in Hcond as (Hcond & Hnr).
    apply orb_false_iff in Hcond as (Hop & Hnl).
    apply negb_false_iff, bool_decide_eq_true in Hnl, Hnr.
    pose proof (rp_eq _ _ _ _ _ _ _ _ _ Pl Hnl) as El.
    pose proof (rp_eq _ _ _ _ _ _ _ _ _ Pr Hnr) as Er. subst l' r'.
    assert (s1 = s) by (apply (rp_same _ _ _ _ _ _ _ _ _ Pl); exact Hnl). subst s1.
    assert (s2 = s) by (apply (rp_same _ _ _ _ _ _ _ _ _ Pr); exact Hnr). subst s2.
    exists (Br l a r). apply (replace_post_same old pool c cd (Br l a r) s Ht Hold Hp).
    + simpl. split; [|split; [apply (rp_rel _ _ _ _ _ _ _ _ _ Pl)
                             |apply (rp_rel _ _ _ _ _ _ _ _ _ Pr)]].
      exists x, x. split; [exact Hx|]. split; [exact Hx|]. repeat (split; [reflexivity|]).
      split; [|left; reflexivity]. rewrite Hsub, Hop. reflexivity.
    + simpl. split; [|split; [apply (rp_shares _ _ _ _ _ _ _ _ _ Pl)
                             |apply (rp_shares _ _ _ _ _ _ _ _ _ Pr)]].
      split; [|reflexivity]. intros _ b Hb.
      apply elem_of_app in Hb as [Hb|Hb];
        [apply (shares_same _ _ _ _ (rp_shares _ _ _ _ _ _ _ _ _ Pl) b Hb)|].
      apply elem_of_cons in Hb as [->|Hb];
        [|apply (shares_same _ _ _ _ (rp_shares _ _ _ _ _ _ _ _ _ Pr) b Hb)].
      exists x. split; [exact Hx|]. rewrite Hsub, Hop. reflexivity.
Qed.

(** ** [reserve] *)

(** The loop of [reserve] appends newly allocated nodes to the pool and
    leaves every existing node object alone. *)
Lemma reserve_loop count :
  forall lo s,
    alloc_ok s ->
    exists s1 news,
      for_loop count lo (fun _ =>
        nb <- gets (fun s => nodes_storage.n_blocks (backup_nodes s)) ;;
        n <- make_new_node nb ;;
        modify (fun s => set_backup_nodes (nodes_storage.push_back n (backup_nodes s)) s)) s
      = Ok tt s1
      /\ alloc_ok s1
      /\ (forall b, is_Some (store s !! b) -> store s1 !! b = store s !! b)
      /\ nodes_storage.nodes (backup_nodes s1)
         = nodes_storage.nodes (backup_nodes s) ++ map Some news
      /\ NoDup news
      /\ (forall a, a ∈ news -> store s !! a = None /\ is_Some (store s1 !! a))
      /\ rest_reserve s1 = rest_reserve s.
Proof.
  induction count as [|count IH]; intros lo s Hok.
  - exists s, []. simpl. rewrite app_nil_r. repeat split; auto.
    + constructor.
    + set_solver.
    + set_solver.
  - simpl for_loop.
    set (a := next_addr s).
    set (x := node_new 0 op_desc_default (nodes_storage.n_blocks (backup_nodes s)) false 1).
    set (s0 := set_backup_nodes (nodes_storage.push_back (Some a) (backup_nodes s))
                 (set_next_addr (Pos.succ a) (set_store (<[a := x]> (store s)) s))).
    assert (Ha : store s !! a = None).
    { destruct (store s !! a) eqn:E; [|reflexivity].
      pose proof (Hok a ltac:(eauto)). unfold a in *. lia. }
    assert (Hok0 : alloc_ok s0).
    { intros b Hb. simpl in Hb |- *. apply lookup_insert_is_Some in Hb as [<-|[_ Hb]].
      - lia.
      - pose proof (Hok b Hb). fold a in H. lia. }
    destruct (IH (lo + 1) s0 Hok0) as (s1 & news & Hrun & Hok1 & Hkeep & Hnodes & Hnd & Hnew & Hrest).
    exists s1, (a :: news). split; [|split; [exact Hok1|split; [|split; [|split; [|split]]]]].
    + unfold bind at 1. unfold bind at 1. cbn [gets]. unfold bind at 1.
      unfold make_new_node, new_node. cbn [modify]. fold a x. exact Hrun.
    + intros b Hb. rewrite Hkeep.
      * simpl. apply lookup_insert_ne. intros <-. rewrite Ha in Hb. destruct Hb. discriminate.
      * simpl. apply lookup_insert_is_Some'. auto.
    + rewrite Hnodes. simpl. rewrite <- app_assoc. reflexivity.
    + apply NoDup_cons. split; [|exact Hnd].
      intros Hin. destruct (Hnew a Hin) as (Hn & _). simpl in Hn.
      rewrite lookup_insert_eq in Hn. discriminate.
    + intros b Hb. apply elem_of_cons in Hb as [->|Hb].
      * split; [exact Ha|]. rewrite Hkeep; simpl; rewrite lookup_insert_eq; eauto.
      * destruct (Hnew b Hb) as (Hn & Hs). split; [|exact Hs].
        simpl in Hn. destruct (decide (b = a)) as [->|Hne]; [exact Ha|].
        rewrite lookup_insert_ne in Hn by congruence. exact Hn.
    + rewrite Hrest. reflexivity.
Qed.

Lemma backup_reserve_run size s :
  alloc_ok s ->
  exists s1 news,
    backup_reserve size s = Ok tt s1
    /\ alloc_ok s1
    /\ (forall b, is_Some (store s !! b) -> store s1 !! b = store s !! b)
    /\ nodes_storage.nodes (backup_nodes s1)
       = nodes_storage.nodes (backup_nodes s) ++ map Some news
    /\ NoDup news
    /\ (forall a, a ∈ news -> store s !! a = None /\ is_Some (store s1 !! a))
    /\ rest_reserve s1 = rest_reserve s.
Proof.
  intros Hok. unfold backup_reserve. rewrite bind_gets.
  destruct (_ <? size).
  - apply reserve_loop. exact Hok.
  - exists s, []. simpl. rewrite app_nil_r. repeat split; auto.
    + constructor.
    + set_solver.
    + set_solver.
Qed.

(** The pool after [reserve] is as fresh as it was. *)
Lemma fresh_pool_reserve old pool i (h h1 : gmap addr node_t) news :
  fresh_pool old pool i h ->
  (forall b, b ∈ old -> is_Some (h !! b)) ->
  (forall b, is_Some (h !! b) -> h1 !! b = h !! b) ->
  NoDup news ->
  (forall a, a ∈ news -> h !! a = None /\ is_Some (h1 !! a)) ->
  fresh_pool old (pool ++ map Some news) i h1.
Proof.
  intros (Hf & Hinj) Hold Hkeep Hnd Hnew.
  assert (Hcase : forall j n, i < Z.of_nat j -> (pool ++ map Some news) !! j = Some n ->
            (pool !! j = Some n /\ exists p, n = Some p /\ (p ∉ old) /\ is_Some (h !! p))
            \/ (exists p, n = Some p /\ (p ∈ news) /\ (length pool <= j)%nat
                  /\ news !! (j - length pool)%nat = Some p)).
  { intros j n Hj Hn. apply lookup_app_Some in Hn as [Hn|(Hlen & Hn)].
    - left. split; [exact Hn|]. apply (Hf j n Hj Hn).
    - right. rewrite list_lookup_fmap in Hn.
      apply fmap_Some in Hn as (p & Hp & ->).
      exists p. split; [reflexivity|]. split; [|auto].
      apply list_elem_of_lookup. eauto. }
  split.
  - intros j n Hj Hn. destruct (Hcase j n Hj Hn) as [(_ & p & -> & Hp & Hs)|(p & -> & Hp & _)].
    + exists p. split; [reflexivity|]. split; [exact Hp|]. rewrite Hkeep; auto.
    + destruct (Hnew p Hp) as (Hn' & Hs). exists p. split; [reflexivity|]. split; [|exact Hs].
      intros Ho. destruct (Hold p Ho) as (y & Hy). congruence.
  - intros j1 j2 n H1 H2 Hn1 Hn2.
    destruct (Hcase j1 n H1 Hn1) as [(Hp1 & p1 & -> & _ & Hs1)|(p1 & -> & Hin1 & Hl1 & Hq1)];
      destruct (Hcase j2 _ H2 Hn2) as [(Hp2 & p2 & E2 & _ & Hs2)|(p2 & E2 & Hin2 & Hl2 & Hq2)];
      injection E2 as <-.
    + eapply Hinj; eauto.
    + destruct (Hnew p1 Hin2) as (Hn' & _). destruct Hs1 as (y & Hy). congruence.
    + destruct (Hnew p1 Hin1) as (Hn' & _). destruct Hs2 as (y & Hy). congruence.
    + assert ((j1 - length pool)%nat = (j2 - length pool)%nat)
        by (eapply NoDup_lookup; eauto).
      lia.
Qed.

(** ** C2: the weight that [compute] returns *)

(** C2.  [compute()] returns a pair (weight, trace): the weight is not
    negative; with the norm flag set it is the Frobenius norm of the
    unnormalized density matrix blocks the call has produced, with the flag
    unset it is the absolute value of the returned trace. *)
Theorem compute_weight closing_factor s :
  exists weight trace s',
    compute closing_factor s = Ok (weight, trace) s'
    /\ (0 <= weight)%R
    /\ (use_norm_as_weight s = true -> weight = frobenius_norm (density_matrix s'))
    /\ (use_norm_as_weight s = false -> weight = Rabs trace).
Proof.
  unfold compute. eexists _, _, _. split; [reflexivity|].
  destruct (use_norm_as_weight s); simpl.
  - split; [apply sqrt_pos|]. split; [reflexivity|discriminate].
  - split; [apply Rabs_pos|]. split; [discriminate|reflexivity].
Qed.

(** ** [try_replace] *)

Lemma noexcept_Ok {A} (m : M A) s a s' : noexcept m s = Ok a s' -> m s = Ok a s'.
Proof. unfold noexcept. destruct (m s); congruence. Qed.

(** In a tree built by [try_replace_impl], the path from the root to a node
    that is not a node of the old tree consists of such nodes, and they are
    all marked modified. *)
Lemma fresh_closed_path old (h : gmap addr node_t) t c :
  fresh_closed old h t -> c ∈ addrs t -> c ∉ old ->
  forall b, b ∈ path_to t c -> (b ∉ old) /\ exists y, h !! b = Some y /\ modified y = true.
Proof.
  induction t as [|l IHl a r IHr]; [simpl; set_solver|].
  intros Hfc Hc Hco b Hb. simpl in Hfc, Hb.
  destruct (decide (a ∈ old)) as [Ha|Ha].
  { exfalso. apply Hco. apply Hfc. exact Hc. }
  destruct Hfc as (Hm & Hl & Hr).
  destruct (decide (c = a)) as [->|Hne].
  { apply list_elem_of_singleton in Hb as ->. auto. }
  destruct (decide (c ∈ addrs l)) as [Hcl|Hcl].
  { apply elem_of_cons in Hb as [->|Hb]; [auto|]. apply IHl; auto. }
  destruct (decide (c ∈ addrs r)) as [Hcr|Hcr].
  { apply elem_of_cons in Hb as [->|Hb]; [auto|]. apply IHr; auto. }
  set_solver.
Qed.

(** What [try_replace] has done when it returns, on a non-empty tree. *)
Lemma try_replace_Ok fuel c cd s t s' :
  root (tree s) = shape_root t -> t <> Leaf -> tree_at (store s) t -> alloc_ok s ->
  fresh_pool (addrs t) (nodes_storage.nodes (backup_nodes s)) (-1) (store s) ->
  tree_size s <> 0 ->
  try_replace fuel c cd s = Ok tt s' ->
  exists t',
    root (tree s') = shape_root t'
    /\ tree_at (store s') t'
    /\ fresh_closed (addrs t) (store s') t'
    /\ (forall b, b ∈ addrs t -> store s' !! b = store s !! b)
    /\ (root (tree s') <> root (tree s) -> -1 < nodes_storage.index (backup_nodes s'))
    /\ tree_size s' = tree_size s.
Proof.
  intros Hroot Hne Ht Hok Hfp Hts Hrun.
  unfold try_replace in Hrun. apply noexcept_Ok in Hrun.
  rewrite bind_gets in Hrun.
  destruct (tree_size s =? 0) eqn:E0; [apply Z.eqb_eq in E0; contradiction|].
  rewrite bind_gets in Hrun.
  destruct (nodes_storage.is_index_reset (backup_nodes s)) eqn:Eres; [|discriminate].
  unfold nodes_storage.is_index_reset in Eres. apply Z.eqb_eq in Eres.
  cbn [negb] in Hrun.
  apply bind_Ok in Hrun as (sz & s0 & Hsz & Hrun).
  assert (s0 = s).
  { unfold tree_size_query in Hsz. rewrite bind_gets in Hsz.
    destruct (root (tree s)); [|injection Hsz as _ <-; reflexivity].
    unfold field in Hsz. apply bind_Ok in Hsz as (y & sy & Hd & Hret).
    unfold deref in Hd. destruct (store s !! a); [|discriminate].
    injection Hd as _ <-. injection Hret as _ <-. reflexivity. }
  subst s0. clear Hsz.
  destruct (backup_reserve_run sz s Hok)
    as (s1 & news & Hres & Hok1 & Hkeep & Hnodes & Hnd & Hnew & Hrest).
  rewrite (bind_eval _ _ _ _ _ Hres) in Hrun. rewrite bind_gets in Hrun.
  assert (Hroot1 : root (tree s1) = root (tree s)).
  { unfold rest_reserve in Hrest. injection Hrest as _ _ _ _ _ _ _ -> _ _ _ _ _ _ _.
    reflexivity. }
  assert (Hidx1 : nodes_storage.index (backup_nodes s1) = -1).
  { unfold rest_reserve in Hrest. injection Hrest as _ _ _ _ _ _ _ _ _ _ _ _ _ _ ->.
    exact Eres. }
  assert (Hts1 : tree_size s1 = tree_size s).
  { unfold rest_reserve in Hrest. injection Hrest as _ _ _ _ _ _ _ _ -> _ _ _ _ _ _.
    reflexivity. }
  rewrite Hroot1, Hroot in Hrun.
  apply bind_Ok in Hrun as (r & s2 & Himpl & Hrun).
  injection Hrun as <-.
  assert (Hkeep_t : forall b, b ∈ addrs t -> store s1 !! b = store s !! b).
  { intros b Hb. apply Hkeep. eapply tree_at_lookup; eauto. }
  assert (Ht1 : tree_at (store s1) t) by (eapply tree_at_frame; eauto).
  assert (Hfp1 : fresh_pool (addrs t) (nodes_storage.nodes (backup_nodes s1))
                   (nodes_storage.index (backup_nodes s1)) (store s1)).
  { rewrite Hidx1, Hnodes. eapply fresh_pool_reserve; eauto.
    intros b Hb. eapply tree_at_lookup; eauto. }
  assert (Hp1 : pool_inv (nodes_storage.nodes (backup_nodes s1)) s1).
  { split; [rewrite Hidx1; lia|reflexivity]. }
  destruct (try_replace_impl_spec (addrs t) (nodes_storage.nodes (backup_nodes s1)) c cd t
              fuel s1 r s2 Hne Ht1 (fun b Hb => Hb) Hp1 Hfp1 Himpl) as (t' & P).
  exists t'. cbn [root tree store tree_size backup_nodes set_root].
  split; [apply (rp_root _ _ _ _ _ _ _ _ _ P)|].
  split; [apply (rp_tree _ _ _ _ _ _ _ _ _ P)|].
  split; [apply (rp_closed _ _ _ _ _ _ _ _ _ P)|].
  split; [|split].
  - intros b Hb. rewrite <- Hkeep_t by exact Hb.
    apply (rp_frame _ _ _ _ _ _ _ _ _ P). intros Hu.
    destruct (used_fresh _ _ _ _ _ _ Hfp1 Hu). contradiction.
  - intros Hr. rewrite <- Hidx1. apply (rp_moved _ _ _ _ _ _ _ _ _ P). rewrite <- Hroot. exact Hr.
  - pose proof (rp_rest _ _ _ _ _ _ _ _ _ P) as R. unfold rest_replace in R.
    injection R as _ _ _ _ _ _ _ _ _ -> _ _ _ _ _. exact Hts1.
Qed.

(** ** C5: [try_replace] while a replacement is pending *)

(** The guard of [try_replace]: with [tree_size] not 0 and the pool index not
    reset, the exception is thrown, and as [try_replace] is [noexcept] the
    program terminates. *)
Lemma try_replace_guard fuel c cd s :
  tree_size s <> 0 -> nodes_storage.index (backup_nodes s) <> -1 ->
  try_replace fuel c cd s
  = Terminate (runtime_error "impurity_trace: improper use of try_replace()").
Proof.
  intros Hts Hidx. unfold try_replace, noexcept. rewrite bind_gets.
  destruct (tree_size s =? 0) eqn:E0; [apply Z.eqb_eq in E0; contradiction|].
  rewrite bind_gets. unfold nodes_storage.is_index_reset.
  destruct (nodes_storage.i (backup_nodes s) =? -1) eqn:E1;
    [apply Z.eqb_eq in E1; contradiction|].
  reflexivity.
Qed.

(** C5, as amended.  When a [try_replace] on a non-empty tree has returned
    and has replaced the root (it has copied at least one node, so the root
    is no longer the node it was), and neither [confirm_replace] nor
    [cancel_replace] has been called, a second [try_replace] terminates the
    program with the usage error, whatever its tables. *)
Theorem try_replace_pending_terminates fuel c cd c2 cd2 s t s1 :
  root (tree s) = shape_root t -> t <> Leaf -> tree_at (store s) t -> alloc_ok s ->
  fresh_pool (addrs t) (nodes_storage.nodes (backup_nodes s)) (-1) (store s) ->
  tree_size s <> 0 ->
  try_replace fuel c cd s = Ok tt s1 ->
  root (tree s1) <> root (tree s) ->
  try_replace fuel c2 cd2 s1
  = Terminate (runtime_error "impurity_trace: improper use of try_replace()").
Proof.
  intros Hroot Hne Ht Hok Hfp Hts Hrun Hmoved.
  destruct (try_replace_Ok fuel c cd s t s1 Hroot Hne Ht Hok Hfp Hts Hrun)
    as (t' & _ & _ & _ & _ & Hidx & Hts1).
  apply try_replace_guard; [congruence|]. specialize (Hidx Hmoved). lia.
Qed.

(** ** C6: [try_replace] with tables that keep every index *)

Lemma set_modified_false_id x : modified x = false -> set_modified false x = x.
Proof. destruct x; simpl. intros ->. reflexivity. Qed.

Lemma compute_same closing_factor s s2 :
  root_cache s2 = root_cache s -> n_blocks s2 = n_blocks s ->
  use_norm_as_weight s2 = use_norm_as_weight s ->
  forall w tr sa,
    compute closing_factor s = Ok (w, tr) sa ->
    exists sb, compute closing_factor s2 = Ok (w, tr) sb
               /\ density_matrix sb = density_matrix sa.
Proof.
  intros Hc Hn Hu w tr sa Hrun. unfold compute, unnormalized_density_matrix in *.
  rewrite Hc, Hn, Hu. injection Hrun as <- <- <-.
  eexists. split; reflexivity.
Qed.

(** C6.  In a state with no transaction pending (the tree is well formed and
    none of its nodes is marked modified, [tree_size] is the size of the
    tree, the index of the backup pool is reset), [try_replace] with tables
    that map every linear index of the tree to itself, followed by
    [confirm_replace], returns and is a no-op: no node is copied (the pool
    holds the nodes it held, followed by the nodes [reserve] has newly
    allocated, and its index is still reset), the root and every node
    object that existed are as they were, so is the density matrix, and
    [compute] returns the same weight, trace and density matrix as before. *)
Theorem try_replace_identity_noop recompute closing_factor fuel c cd s t :
  root (tree s) = shape_root t -> tree_at (store s) t -> (height t < fuel)%nat ->
  tree_size s = Z.of_nat (length (addrs t)) ->
  alloc_ok s ->
  nodes_storage.index (backup_nodes s) = -1 ->
  (forall b x, b ∈ addrs t -> store s !! b = Some x ->
     keeps_index c cd (op x) /\ modified x = false) ->
  exists s1 s2 news,
    try_replace fuel c cd s = Ok tt s1
    /\ confirm_replace recompute fuel s1 = Ok tt s2
    /\ nodes_storage.nodes (backup_nodes s2)
       = nodes_storage.nodes (backup_nodes s) ++ map Some news
    /\ (forall a, a ∈ news -> store s !! a = None)
    /\ nodes_storage.index (backup_nodes s2) = -1
    /\ root (tree s2) = root (tree s)
    /\ (forall b, is_Some (store s !! b) -> store s2 !! b = store s !! b)
    /\ density_matrix s2 = density_matrix s
    /\ (forall w tr sa,
          compute closing_factor s = Ok (w, tr) sa ->
          exists sb, compute closing_factor s2 = Ok (w, tr) sb
                     /\ density_matrix sb = density_matrix sa).
Proof.
  intros Hroot Ht Hfuel Hsize Hok Hidx Hid.
  (* what [confirm_replace] does once [try_replace] has returned *)
  assert (Hconfirm : forall s1,
            root (tree s1) = shape_root t -> tree_at (store s1) t ->
            (forall b x, b ∈ addrs t -> store s1 !! b = Some x -> modified x = false) ->
            confirm_replace recompute fuel s1
            = Ok tt (set_store (clear_store t (store s1))
                       (set_backup_nodes
                          (snd (nodes_storage.reset_index (backup_nodes s1))) s1))).
  { intros s1 Hr1 Ht1 Hcl1. unfold confirm_replace. rewrite bind_modify.
    set (s1' := set_backup_nodes _ s1).
    assert (Hup : update_cache recompute fuel s1' = Ok tt s1').
    { unfold update_cache. rewrite bind_gets. change (root (tree s1')) with (root (tree s1)).
      rewrite Hr1. destruct fuel; [lia|]. destruct t as [|l a r]; [reflexivity|].
      destruct Ht1 as ((x & Hx & _) & _). simpl.
      rewrite (bind_eval _ _ _ _ _ (field_Some modified s1' a x Hx)).
      rewrite (Hcl1 a x ltac:(simpl; set_solver) Hx). reflexivity. }
    rewrite (bind_eval _ _ _ _ _ Hup).
    assert (Hcm : clear_modified fuel s1' = Ok tt (set_store (clear_store t (store s1)) s1')).
    { unfold clear_modified. rewrite bind_gets. change (root (tree s1')) with (root (tree s1)).
      rewrite Hr1. apply (clear_modified_impl_run t fuel s1' Ht1 Hfuel). }
    rewrite (bind_eval _ _ _ _ _ Hcm). reflexivity. }
  assert (Hclear : forall h : gmap addr node_t,
            (forall b x, b ∈ addrs t -> h !! b = Some x -> modified x = false) ->
            forall b, clear_store t h !! b = h !! b).
  { intros h Hcl b. rewrite clear_store_lookup. destruct (decide (b ∈ addrs t)); [|reflexivity].
    destruct (h !! b) as [x|] eqn:Hx; [|reflexivity]. simpl.
    rewrite set_modified_false_id; eauto. }
  (* the state after [reserve] and after [try_replace] *)
  assert (Htry : exists s1 news,
            try_replace fuel c cd s = Ok tt s1
            /\ root (tree s1) = root (tree s)
            /\ (forall b, is_Some (store s !! b) -> store s1 !! b = store s !! b)
            /\ nodes_storage.nodes (backup_nodes s1)
               = nodes_storage.nodes (backup_nodes s) ++ map Some news
            /\ (forall a, a ∈ news -> store s !! a = None)
            /\ rest_reserve s1 = rest_reserve s).
  { unfold try_replace, noexcept. rewrite bind_gets.
    destruct (tree_size s =? 0) eqn:E0.
    - exists s, []. rewrite app_nil_r. repeat split; auto. set_solver.
    - apply Z.eqb_neq in E0.
      destruct t as [|l a r]; [simpl in Hsize; lia|].
      rewrite bind_gets. unfold nodes_storage.is_index_reset.
      unfold nodes_storage.index in Hidx. rewrite Hidx. rewrite Z.eqb_refl. cbn [negb].
      pose proof Ht as ((x & Hx & _) & _).
      assert (Hq : tree_size_query s = Ok (N x) s).
      { unfold tree_size_query. rewrite bind_gets, Hroot. simpl.
        apply (field_Some N s a x Hx). }
      rewrite (bind_eval _ _ _ _ _ Hq).
      destruct (backup_reserve_run (N x) s Hok)
        as (s1 & news & Hres & Hok1 & Hkeep & Hnodes & Hnd & Hnew & Hrest).
      rewrite (bind_eval _ _ _ _ _ Hres). rewrite bind_gets.
      assert (Hroot1 : root (tree s1) = root (tree s)).
      { unfold rest_reserve in Hrest. injection Hrest as _ _ _ _ _ _ _ -> _ _ _ _ _ _ _.
        reflexivity. }
      rewrite Hroot1, Hroot.
      assert (Hkeep_t : forall b, b ∈ addrs (Br l a r) -> store s1 !! b = store s !! b).
      { intros b Hb. apply Hkeep. eapply tree_at_lookup; eauto. }
      assert (Himpl : try_replace_impl fuel (shape_root (Br l a r)) c cd s1
                      = Ok (shape_root (Br l a r)) s1).
      { apply try_replace_impl_identity; [discriminate| |lia|].
        - eapply tree_at_frame; eauto.
        - intros b y Hb Hy. rewrite Hkeep_t in Hy by exact Hb. apply (Hid b y Hb Hy). }
      rewrite (bind_eval _ _ _ _ _ Himpl).
      exists (set_root (shape_root (Br l a r)) s1), news.
      split; [reflexivity|]. cbn [root tree store backup_nodes set_root].
      split; [reflexivity|]. split; [exact Hkeep|]. split; [exact Hnodes|].
      split; [intros b Hb; apply (Hnew b Hb)|].
      unfold rest_reserve in *. simpl.
      injection Hrest as -> -> -> -> -> -> -> Htree -> -> -> -> -> -> ->.
      repeat f_equal. simpl in Hroot. destruct (tree s) as [rt]. simpl in Hroot.
      rewrite Hroot. reflexivity. }
  destruct Htry as (s1 & news & Hrun & Hroot1 & Hkeep & Hnodes & Hnew & Hrest).
  assert (Hkeep_t : forall b, b ∈ addrs t -> store s1 !! b = store s !! b).
  { intros b Hb. apply Hkeep. eapply tree_at_lookup; eauto. }
  assert (Hcl1 : forall b x, b ∈ addrs t -> store s1 !! b = Some x -> modified x = false).
  { intros b x Hb Hx. rewrite Hkeep_t in Hx by exact Hb. apply (Hid b x Hb Hx). }
  assert (Hstore2 : forall b, is_Some (store s !! b) ->
            clear_store t (store s1) !! b = store s !! b).
  { intros b Hb. rewrite (Hclear _ Hcl1). apply Hkeep. exact Hb. }
  eexists s1, _, news. split; [exact Hrun|].
  split.
  { apply Hconfirm; [congruence| |exact Hcl1]. eapply tree_at_frame; eauto. }
  cbn [root tree store backup_nodes density_matrix set_store set_backup_nodes
       nodes_storage.reset_index snd nodes_storage.nodes nodes_storage.index nodes_storage.i].
  split; [exact Hnodes|]. split; [exact Hnew|]. split; [reflexivity|].
  split; [exact Hroot1|]. split; [exact Hstore2|].
  assert (Hdm : density_matrix s1 = density_matrix s).
  { unfold rest_reserve in Hrest. injection Hrest as _ _ _ -> _ _ _ _ _ _ _ _ _ _ _.
    reflexivity. }
  split; [exact Hdm|].
  apply compute_same.
  - unfold root_cache. cbn [root tree store set_store set_backup_nodes]. rewrite Hroot1.
    destruct (root (tree s)) as [a|] eqn:Hr; [|reflexivity].
    rewrite Hstore2; [reflexivity|].
    assert (Ha : shape_root t = Some a) by congruence.
    destruct t as [|l a' r]; [discriminate|]. injection Ha as ->.
    destruct Ht as ((x & Hx & _) & _). eauto.
  - unfold rest_reserve in Hrest. injection Hrest as _ _ Hn _ _ _ _ _ _ _ _ _ _ _ _.
    exact Hn.
  - unfold rest_reserve in Hrest. injection Hrest as Hu _ _ _ _ _ _ _ _ _ _ _ _ _ _.
    exact Hu.
Qed.

(** ** C8: the paths that the trial operations mark *)

(** The state after a [try_insert] that returns. *)
Lemma try_insert_Ok fuel tau o s t s' :
  root (tree s) = shape_root t -> tree_at (store s) t -> NoDup (addrs t) ->
  -1 <= nodes_storage.index (trial_nodes s) ->
  (forall na, nodes_storage.nodes (trial_nodes s)
                !! Z.to_nat (nodes_storage.index (trial_nodes s) + 1) = Some (Some na) ->
              na ∉ addrs t) ->
  try_insert fuel tau o s = Ok tt s' ->
  exists na xa,
    nodes_storage.nodes (trial_nodes s) !! Z.to_nat (nodes_storage.index (trial_nodes s) + 1)
    = Some (Some na)
    /\ store s !! na = Some xa
    /\ root (tree s') = ins_root t na
    /\ store s' = ins_store tau na t (<[na := set_op o (set_key tau xa)]> (store s))
    /\ tree_size s' = tree_size s + 1.
Proof.
  intros Hroot Ht Hnd Hidx Hfresh Hrun.
  set (idx := nodes_storage.index (trial_nodes s)) in *.
  unfold try_insert, trial_index in Hrun. rewrite bind_gets in Hrun. fold idx in Hrun.
  destruct (3 <? idx); [discriminate|].
  apply bind_Ok in Hrun as (n & s1 & Htake & Hrun).
  unfold trial_call, nodes_storage.take_next, nodes_storage.at_ in Htake.
  change (nodes_storage.i (trial_nodes s)) with idx in Htake.
  destruct (idx + 1 <? 0) eqn:E; [apply Z.ltb_lt in E; lia|].
  destruct (nodes_storage.nodes (trial_nodes s) !! Z.to_nat (idx + 1)) as [n'|] eqn:Hn;
    [|discriminate].
  injection Htake as <- <-.
  rewrite bind_gets in Hrun.
  cbn [nodes_storage.index nodes_storage.i trial_nodes set_trial_nodes] in Hrun.
  apply bind_Ok in Hrun as ([] & s2 & Hset & Hrun).
  unfold inserted_nodes_set in Hset.
  apply bind_Ok in Hset as (r0 & s2' & Hat & Hset).
  unfold inserted_nodes_at in Hat. rewrite E in Hat. simpl in Hat.
  destruct (inserted_nodes s !! Z.to_nat (idx + 1)) as [r0'|] eqn:Hr0; [|discriminate].
  injection Hat as <- <-. injection Hset as <-.
  unfold reset in Hrun.
  apply bind_Ok in Hrun as ([] & s3 & Hres & Hrun).
  unfold assign in Hres. apply bind_Ok in Hres as (xa & s3' & Hd & Hres).
  unfold deref in Hd. destruct n' as [na|]; [|discriminate].
  cbn [store set_inserted_nodes set_trial_nodes] in Hd.
  destruct (store s !! na) as [xa'|] eqn:Hxa; [|discriminate].
  injection Hd as <- <-. injection Hres as <-.
  pose proof (Hfresh na eq_refl) as Hna.
  rewrite bind_gets in Hrun. cbn [root tree set_store set_inserted_nodes set_trial_nodes] in Hrun.
  rewrite Hroot in Hrun.
  cbn [store set_store set_inserted_nodes set_trial_nodes] in Hrun.
  apply bind_Ok in Hrun as (r' & s4 & Himpl & Hrun).
  set (xn := set_op o (set_key tau xa')) in *.
  assert (Ekey : key xn = tau) by (destruct xa'; reflexivity).
  assert (Ht3 : tree_at (<[na := xn]> (store s)) t).
  { eapply tree_at_frame; [|exact Ht]. intros b Hb. apply lookup_insert_ne. intros <-.
    contradiction. }
  eapply (try_insert_impl_Ok t fuel _ na xn false) in Himpl;
    [| exact Ht3 | exact Hnd | exact Hna | apply lookup_insert_eq | simpl; lia
     | simpl; apply list_lookup_insert_eq; eapply lookup_lt_Some; eauto ].
  destruct Himpl as (-> & ->).
  rewrite !bind_modify in Hrun. apply Ok_inj in Hrun as [_ <-].
  exists na, xa'. split; [reflexivity|]. split; [exact Hxa|].
  split; [reflexivity|]. split; reflexivity.
Qed.

Lemma path_to_ins_shape (h : gmap addr node_t) k na t :
  tree_at h t -> na ∉ addrs t ->
  path_to (ins_shape h k na t) na = descent h k t ++ [na].
Proof.
  induction t as [|l IHl a r IHr]; intros Ht Hna.
  - simpl. destruct (decide (na = na)); [reflexivity|congruence].
  - pose proof Ht as ((x & Hx & _) & Hl & Hr). simpl. rewrite Hx.
    assert (Hne : na <> a) by set_solver.
    destruct (comparator k (key x)); simpl.
    + destruct (decide (na = a)); [contradiction|].
      destruct (decide (na ∈ addrs (ins_shape h k na l))) as [_|Hn].
      * f_equal. apply IHl; [exact Hl|set_solver].
      * exfalso. apply Hn. apply ins_shape_addrs; auto.
    + destruct (decide (na = a)); [contradiction|].
      destruct (decide (na ∈ addrs l)); [set_solver|].
      destruct (decide (na ∈ addrs (ins_shape h k na r))) as [_|Hn].
      * f_equal. apply IHr; [exact Hr|set_solver].
      * exfalso. apply Hn. apply ins_shape_addrs; auto.
Qed.

Lemma descent_frame (h h' : gmap addr node_t) k t :
  (forall b, b ∈ addrs t -> h' !! b = h !! b) -> descent h' k t = descent h k t.
Proof.
  induction t as [|l IHl a r IHr]; simpl; [reflexivity|].
  intros Hfr. rewrite (Hfr a) by set_solver.
  destruct (h !! a) as [x|]; [|reflexivity]. f_equal.
  destruct (comparator k (key x)); simpl; [apply IHl|apply IHr]; intros b Hb; apply Hfr;
    set_solver.
Qed.

(** ** The state after [try_delete] *)

Lemma filter_lookup_in {A} (f : A -> bool) (l : list A) i x :
  List.filter f l !! i = Some x -> x ∈ l /\ f x = true.
Proof.
  revert i. induction l as [|a l IH]; intros i H; simpl in H; [discriminate|].
  destruct (f a) eqn:E.
  - destruct i as [|i]; simpl in H.
    + injection H as <-. split; [set_solver|exact E].
    + destruct (IH i H). split; [set_solver|assumption].
  - destruct (IH i H). split; [set_solver|assumption].
Qed.

Lemma delete_store_lookup (h : gmap addr node_t) t x xn b :
  tree_at h t -> NoDup (addrs t) -> bst h t -> x ∈ addrs t -> h !! x = Some xn ->
  delete_store t x h !! b
  = if decide (b = x) then Some (set_delete_flag true (set_modified true xn))
    else if decide (b ∈ path_to t x) then set_modified true <$> (h !! b)
         else h !! b.
Proof.
  intros Ht Hnd Hbst Hin Hx.
  pose proof (search_path_path_to _ _ _ _ Ht Hnd Hbst Hin Hx) as Hsp.
  assert (Hx1 : mark_path (key xn) t h !! x = Some (set_modified true xn)).
  { rewrite mark_path_lookup by assumption. rewrite Hsp.
    destruct (decide (x ∈ path_to t x)) as [_|Hn]; [rewrite Hx; reflexivity|].
    exfalso. apply Hn. apply path_to_self. exact Hin. }
  unfold delete_store. rewrite Hx. cbv zeta. rewrite Hx1.
  destruct (decide (b = x)) as [->|Hne].
  - apply lookup_insert_eq.
  - rewrite lookup_insert_ne by congruence.
    rewrite mark_path_lookup by assumption. rewrite Hsp. reflexivity.
Qed.

Lemma try_delete_run fuel n block_idx dag s t x xn :
  root (tree s) = shape_root t -> tree_at (store s) t -> NoDup (addrs t) ->
  bst (store s) t -> (height t < fuel)%nat -> 0 <= n ->
  List.filter (node_matches (store s) block_idx dag) (addrs t) !! Z.to_nat n = Some x ->
  store s !! x = Some xn ->
  try_delete fuel n block_idx dag s = Ok (key xn) (delete_post t x (key xn) s).
Proof.
  intros Hroot Ht Hnd Hbst Hfuel Hn Hnth Hx.
  replace (Z.to_nat n) with (Z.to_nat (n - 0)) in Hnth by (f_equal; lia).
  destruct (scan_delete_found (store s) n block_idx dag x (addrs t) 0 Hn Hnth)
    as (pre & post & Hsplit & Hscan & _).
  assert (Hin : x ∈ addrs t) by (rewrite Hsplit; set_solver).
  pose proof (delete_store_lookup (store s) t x xn x Ht Hnd Hbst Hin Hx) as Hlk.
  destruct (decide (x = x)) as [_|]; [|congruence].
  pose proof (search_path_path_to _ _ _ _ Ht Hnd Hbst Hin Hx) as Hsp.
  set (s1 := set_removed_nodes (removed_nodes s ++ [Some x]) s).
  set (s2 := set_removed_keys (removed_keys s ++ [key xn]) s1).
  set (h3 := mark_path (key xn) t (store s)).
  set (s3 := set_store h3 s2).
  assert (Hx3 : h3 !! x = Some (set_modified true xn)).
  { unfold h3. rewrite mark_path_lookup by assumption. rewrite Hsp.
    destruct (decide (x ∈ path_to t x)) as [_|Hn']; [rewrite Hx; reflexivity|].
    exfalso. apply Hn'. apply path_to_self. exact Hin. }
  assert (Hds : delete_store t x (store s)
                = <[x := set_delete_flag true (set_modified true xn)]> h3).
  { unfold delete_store. rewrite Hx. cbv zeta. fold h3. rewrite Hx3. reflexivity. }
  unfold try_delete, noexcept.
  rewrite (bind_eval _ _ _ _ _ (find_if_delete_run fuel n block_idx dag s t 0 Hroot Ht Hfuel)).
  rewrite Hscan. cbn [fst]. rewrite bind_modify. fold s1.
  rewrite (bind_eval _ _ _ _ _ (field_Some key s1 x xn Hx)).
  rewrite bind_modify. fold s2.
  rewrite (bind_eval _ _ _ _ _ (field_Some key s2 x xn Hx)).
  assert (Hmark : set_modified_from_root_to fuel (key xn) s2 = Ok tt s3).
  { unfold set_modified_from_root_to. rewrite bind_gets.
    change (root (tree s2)) with (root (tree s)). rewrite Hroot.
    apply (set_modified_impl_run (key xn) t fuel s2 Ht Hnd Hfuel). }
  rewrite (bind_eval _ _ _ _ _ Hmark).
  rewrite (assign_run _ _ _ x (set_modified true xn)) by exact Hx3.
  rewrite bind_modify.
  unfold delete_post. rewrite Hds.
  match goal with
  | |- context [field key (Some x) ?st] =>
    rewrite (field_Some key st x (set_delete_flag true (set_modified true xn)))
      by apply lookup_insert_eq
  end.
  reflexivity.
Qed.

(** C8.  Each trial operation that returns has marked as modified the nodes
    on the path from the root to every node it has affected, and has left
    every node object off these paths as it was.
    - [try_insert]: the node taken from the trial pool is linked in as a
      leaf of the tree; every node on the path from the root to it is
      marked modified (the new node itself keeps the flag it had in the
      pool, where its constructor has set it);
    - [try_delete]: every node on the path from the root to the node flagged
      for deletion, that node included, is marked modified;
    - [try_replace]: the root is the root of a tree linked in the store, and
      for every node of it that is not a node of the tree before the call
      (every copy), every node on the path from the root to it is marked
      modified; the nodes of the tree before the call are not touched. *)
Theorem try_operations_mark_paths :
  (forall fuel tau o s t s' na xa,
      root (tree s) = shape_root t -> tree_at (store s) t -> NoDup (addrs t) ->
      -1 <= nodes_storage.index (trial_nodes s) ->
      nodes_storage.nodes (trial_nodes s)
        !! Z.to_nat (nodes_storage.index (trial_nodes s) + 1) = Some (Some na) ->
      na ∉ addrs t -> store s !! na = Some xa -> left xa = None -> right xa = None ->
      try_insert fuel tau o s = Ok tt s' ->
      exists t',
        root (tree s') = shape_root t' /\ tree_at (store s') t'
        /\ (forall b, b ∈ addrs t' <-> b = na \/ b ∈ addrs t)
        /\ (forall b, b ∈ path_to t' na -> b <> na ->
              exists y, store s' !! b = Some y /\ modified y = true)
        /\ store s' !! na = Some (set_op o (set_key tau xa))
        /\ (forall b, b ∉ path_to t' na -> store s' !! b = store s !! b))
  /\ (forall fuel n block_idx dag s t x xn k s',
        root (tree s) = shape_root t -> tree_at (store s) t -> NoDup (addrs t) ->
        bst (store s) t -> (height t < fuel)%nat -> 0 <= n ->
        List.filter (node_matches (store s) block_idx dag) (addrs t) !! Z.to_nat n = Some x ->
        store s !! x = Some xn ->
        try_delete fuel n block_idx dag s = Ok k s' ->
        (forall b, b ∈ path_to t x -> exists y, store s' !! b = Some y /\ modified y = true)
        /\ (forall b, b ∉ path_to t x -> store s' !! b = store s !! b))
  /\ (forall fuel c cd s t s',
        root (tree s) = shape_root t -> t <> Leaf -> tree_at (store s) t -> alloc_ok s ->
        fresh_pool (addrs t) (nodes_storage.nodes (backup_nodes s)) (-1) (store s) ->
        tree_size s <> 0 ->
        try_replace fuel c cd s = Ok tt s' ->
        exists t',
          root (tree s') = shape_root t' /\ tree_at (store s') t'
          /\ (forall a, a ∈ addrs t' -> a ∉ addrs t ->
              forall b, b ∈ path_to t' a ->
                exists y, store s' !! b = Some y /\ modified y = true)
          /\ (forall b, b ∈ addrs t -> store s' !! b = store s !! b)).
Proof.
  split; [|split].
  - intros fuel tau o s t s' na xa Hroot Ht Hnd Hidx Hslot Hna Hxa Hl Hr Hrun.
    destruct (try_insert_Ok fuel tau o s t s' Hroot Ht Hnd Hidx) as
      (na' & xa' & Hslot' & Hxa' & Hroot' & Hstore & _); auto.
    { intros na0 Hna0. unfold node in *. rewrite Hslot in Hna0. injection Hna0 as <-.
      exact Hna. }
    unfold node in *. rewrite Hslot in Hslot'. injection Hslot' as <-.
    rewrite Hxa in Hxa'. injection Hxa' as <-.
    set (xn := set_op o (set_key tau xa)) in *.
    set (h3 := <[na := xn]> (store s)) in *.
    assert (Hh3 : forall b, b <> na -> h3 !! b = store s !! b).
    { intros b Hb. unfold h3. apply lookup_insert_ne. congruence. }
    assert (Ht3 : tree_at h3 t).
    { eapply tree_at_frame; [|exact Ht]. intros b Hb. apply Hh3. intros ->. contradiction. }
    exists (ins_shape h3 tau na t).
    rewrite Hstore, Hroot'.
    pose proof (path_to_ins_shape h3 tau na t Ht3 Hna) as Hpath.
    split; [symmetry; apply ins_shape_root; exact Ht3|].
    split.
    { apply (ins_shape_tree_at tau na t h3 xn); [exact Ht3|exact Hnd|exact Hna| | |].
      - unfold h3. apply lookup_insert_eq.
      - unfold xn. destruct xa; exact Hl.
      - unfold xn. destruct xa; exact Hr. }
    split; [intros b; apply ins_shape_addrs; exact Ht3|].
    split; [|split].
    + intros b Hb Hbn. rewrite Hpath in Hb. apply elem_of_app in Hb as [Hb|Hb].
      * apply ins_store_descent; auto.
      * apply list_elem_of_singleton in Hb. contradiction.
    + rewrite ins_store_frame by exact Hna. unfold h3. apply lookup_insert_eq.
    + intros b Hb. rewrite Hpath in Hb.
      rewrite ins_store_off_descent by set_solver.
      apply Hh3. set_solver.
  - intros fuel n block_idx dag s t x xn k s' Hroot Ht Hnd Hbst Hfuel Hn Hnth Hx Hrun.
    rewrite (try_delete_run fuel n block_idx dag s t x xn Hroot Ht Hnd Hbst Hfuel Hn Hnth Hx)
      in Hrun.
    apply Ok_inj in Hrun as [_ <-].
    assert (Hin : x ∈ addrs t).
    { exact (proj1 (filter_lookup_in _ _ _ _ Hnth)). }
    pose proof (fun b => delete_store_lookup (store s) t x xn b Ht Hnd Hbst Hin Hx) as Hlk.
    cbn [delete_post store set_store set_tree_size]. split.
    + intros b Hb. rewrite Hlk. destruct (decide (b = x)) as [->|Hne].
      * eexists. split; [reflexivity|]. destruct xn; reflexivity.
      * destruct (decide (b ∈ path_to t x)); [|contradiction].
        destruct (tree_at_lookup _ _ _ Ht (path_to_in _ _ _ Hb)) as (y & Hy).
        rewrite Hy. simpl. eexists. split; [reflexivity|]. destruct y; reflexivity.
    + intros b Hb. rewrite Hlk. destruct (decide (b = x)) as [->|Hne].
      * exfalso. apply Hb. apply path_to_self. exact Hin.
      * destruct (decide (b ∈ path_to t x)); [contradiction|reflexivity].
  - intros fuel c cd s t s' Hroot Hne Ht Hok Hfp Hts Hrun.
    destruct (try_replace_Ok fuel c cd s t s' Hroot Hne Ht Hok Hfp Hts Hrun)
      as (t' & Hroot' & Ht' & Hfc & Hkeep & _ & _).
    exists t'. split; [exact Hroot'|]. split; [exact Ht'|]. split; [|exact Hkeep].
    intros a Ha Hnew b Hb.
    apply (fresh_closed_path _ _ _ _ Hfc Ha Hnew b Hb).
Qed.

(** * Further properties of the pools and of the transactions *)

(** ** The pool of detached nodes *)

(** X1.  The backward moves of a pool undo its forward moves.  When
    [swap_next(n)] returns the node [m], a following [swap_prev(m)] returns
    [n] and leaves the vector and the index of the pool as they were before
    [swap_next]; when [take_next()] returns [m], a following [take_prev()]
    returns [m] again and leaves the pool as it was. *)
Theorem pool_backward_undoes_forward (p p' q q' : nodes_storage.t) (n m m' : node) :
  nodes_storage.swap_next n p = Some (m, p') ->
  nodes_storage.take_next q = Some (m', q') ->
  nodes_storage.swap_prev m p' = Some (n, p)
  /\ nodes_storage.take_prev q' = Some (m', q).
Proof.
  intros Hs Ht. split.
  - unfold nodes_storage.swap_next, nodes_storage.at_ in Hs.
    destruct (nodes_storage.i p + 1 <? 0) eqn:E; [discriminate|].
    apply Z.ltb_ge in E.
    destruct (nodes_storage.nodes p !! Z.to_nat (nodes_storage.i p + 1)) as [m0|] eqn:Hm;
      [|discriminate].
    apply lookup_lt_Some in Hm as Hlt.
    injection Hs as <- <-.
    unfold nodes_storage.swap_prev, nodes_storage.at_.
    cbn [nodes_storage.i nodes_storage.nodes nodes_storage.n_blocks].
    replace (nodes_storage.i p + 1 <? 0) with false by (symmetry; apply Z.ltb_ge; lia).
    rewrite list_lookup_insert_eq by exact Hlt.
    rewrite list_insert_insert_eq, (list_insert_id _ _ _ Hm).
    replace (nodes_storage.i p + 1 - 1) with (nodes_storage.i p) by lia.
    destruct p; reflexivity.
  - unfold nodes_storage.take_next, nodes_storage.at_ in Ht.
    destruct (nodes_storage.i q + 1 <? 0) eqn:E; [discriminate|].
    apply Z.ltb_ge in E.
    destruct (nodes_storage.nodes q !! Z.to_nat (nodes_storage.i q + 1)) as [m0|] eqn:Hm;
      [|discriminate].
    injection Ht as <- <-.
    unfold nodes_storage.take_prev, nodes_storage.at_.
    cbn [nodes_storage.i nodes_storage.nodes nodes_storage.n_blocks].
    replace (nodes_storage.i q + 1 <? 0) with false by (symmetry; apply Z.ltb_ge; lia).
    rewrite Hm.
    replace (nodes_storage.i q + 1 - 1) with (nodes_storage.i q) by lia.
    destruct q; reflexivity.
Qed.

Lemma pool_backward_undoes_forward_witness :
  nodes_storage.swap_next (Some 1%positive) (backup_nodes ex_state)
  = Some (Some 21%positive, nodes_storage.mk 1 [Some 1%positive] 0)
  /\ nodes_storage.take_next (trial_nodes ex_state)
     = Some (Some 11%positive,
             nodes_storage.mk 1
               [Some 11%positive; Some 12%positive; Some 13%positive; Some 14%positive] 0)
  /\ nodes_storage.swap_prev (Some 21%positive) (nodes_storage.mk 1 [Some 1%positive] 0)
     = Some (Some 1%positive, backup_nodes ex_state)
  /\ nodes_storage.take_prev
       (nodes_storage.mk 1
          [Some 11%positive; Some 12%positive; Some 13%positive; Some 14%positive] 0)
     = Some (Some 11%positive, trial_nodes ex_state).
Proof.
  assert (H1 : nodes_storage.swap_next (Some 1%positive) (backup_nodes ex_state)
               = Some (Some 21%positive, nodes_storage.mk 1 [Some 1%positive] 0))
    by reflexivity.
  assert (H2 : nodes_storage.take_next (trial_nodes ex_state)
               = Some (Some 11%positive,
                       nodes_storage.mk 1
                         [Some 11%positive; Some 12%positive; Some 13%positive;
                          Some 14%positive] 0))
    by reflexivity.
  split; [exact H1|]. split; [exact H2|].
  exact (pool_backward_undoes_forward _ _ _ _ _ _ _ H1 H2).
Defined.

Lemma reserve_loop_new count :
  forall lo s,
    alloc_ok s ->
    exists s1 news,
      for_loop count lo (fun _ =>
        nb <- gets (fun s => nodes_storage.n_blocks (backup_nodes s)) ;;
        n <- make_new_node nb ;;
        modify (fun s => set_backup_nodes (nodes_storage.push_back n (backup_nodes s)) s)) s
      = Ok tt s1
      /\ length news = count
      /\ nodes_storage.nodes (backup_nodes s1)
         = nodes_storage.nodes (backup_nodes s) ++ map Some news
      /\ (forall a, a ∈ news ->
            store s1 !! a
            = Some (node_new 0 op_desc_default (nodes_storage.n_blocks (backup_nodes s))
                      false 1)).
Proof.
  induction count as [|count IH]; intros lo s Hok.
  - exists s, []. simpl. rewrite app_nil_r. repeat split; auto. set_solver.
  - simpl for_loop.
    set (a := next_addr s).
    set (x := node_new 0 op_desc_default (nodes_storage.n_blocks (backup_nodes s)) false 1).
    set (s0 := set_backup_nodes (nodes_storage.push_back (Some a) (backup_nodes s))
                 (set_next_addr (Pos.succ a) (set_store (<[a := x]> (store s)) s))).
    assert (Hok0 : alloc_ok s0).
    { intros b Hb. simpl in Hb |- *. apply lookup_insert_is_Some in Hb as [<-|[_ Hb]].
      - lia.
      - pose proof (Hok b Hb). fold a in H. lia. }
    destruct (IH (lo + 1) s0 Hok0) as (s1 & news & Hrun & Hlen & Hnodes & Hnew).
    destruct (reserve_loop count (lo + 1) s0 Hok0)
      as (s1' & news' & Hrun' & _ & Hkeep & _).
    rewrite Hrun in Hrun'. apply Ok_inj in Hrun' as [_ <-].
    exists s1, (a :: news). split; [|split; [|split]].
    + unfold bind at 1. unfold bind at 1. cbn [gets]. unfold bind at 1.
      unfold make_new_node, new_node. cbn [modify]. fold a x. exact Hrun.
    + simpl. congruence.
    + rewrite Hnodes. simpl. rewrite <- app_assoc. reflexivity.
    + intros b Hb. apply elem_of_cons in Hb as [->|Hb].
      * rewrite Hkeep; simpl; rewrite lookup_insert_eq; eauto.
      * apply (Hnew b Hb).
Qed.

Lemma backup_reserve_spec size s :
  alloc_ok s ->
  exists s1 news,
    backup_reserve size s = Ok tt s1
    /\ nodes_storage.nodes (backup_nodes s1)
       = nodes_storage.nodes (backup_nodes s) ++ map Some news
    /\ Z.of_nat (length (nodes_storage.nodes (backup_nodes s1)))
       = Z.max (Z.of_nat (length (nodes_storage.nodes (backup_nodes s)))) size
    /\ NoDup news
    /\ (forall a, a ∈ news ->
          store s !! a = None
          /\ store s1 !! a
             = Some (node_new 0 op_desc_default (nodes_storage.n_blocks (backup_nodes s))
                       false 1))
    /\ (forall b, is_Some (store s !! b) -> store s1 !! b = store s !! b)
    /\ rest_reserve s1 = rest_reserve s
    /\ (size <= Z.of_nat (length (nodes_storage.nodes (backup_nodes s))) -> s1 = s).
Proof.
  intros Hok.
  destruct (backup_reserve_run size s Hok)
    as (s1 & news & Hrun & _ & Hkeep & Hnodes & Hnd & Hnew & Hrest).
  exists s1, news. split; [exact Hrun|]. split; [exact Hnodes|].
  unfold backup_reserve in Hrun. rewrite bind_gets in Hrun.
  destruct (Z.of_nat (length (nodes_storage.nodes (backup_nodes s))) <? size) eqn:E.
  - apply Z.ltb_lt in E.
    destruct (reserve_loop_new
                (Z.to_nat (size - Z.of_nat (length (nodes_storage.nodes (backup_nodes s)))))
                (Z.of_nat (length (nodes_storage.nodes (backup_nodes s)))) s Hok)
      as (s1' & news' & Hrun' & Hlen & Hnodes' & Hnew').
    rewrite Hrun in Hrun'. apply Ok_inj in Hrun' as [_ <-].
    assert (news' = news) as ->.
    { rewrite Hnodes in Hnodes'. apply app_inv_head in Hnodes'.
      symmetry. revert Hnodes'. clear. revert news'.
      induction news as [|a l IH]; intros [|a' l'] H; simpl in H; try discriminate; auto.
      injection H as -> H. f_equal. auto. }
    split; [rewrite Hnodes, length_app, length_map, Hlen; lia|].
    split; [exact Hnd|]. split.
    { intros a Ha. split; [apply (Hnew a Ha)|apply (Hnew' a Ha)]. }
    split; [exact Hkeep|]. split; [exact Hrest|]. intros Hle. lia.
  - apply Z.ltb_ge in E. unfold ret in Hrun. apply Ok_inj in Hrun as [_ <-].
    assert (news = []) as ->.
    { rewrite <- (app_nil_r (nodes_storage.nodes (backup_nodes s))) in Hnodes at 1.
      apply app_inv_head in Hnodes. destruct news; [reflexivity|discriminate]. }
    split; [lia|]. split; [exact Hnd|]. split; [set_solver|].
    split; [exact Hkeep|]. split; [exact Hrest|]. reflexivity.
Qed.

(** X2.  [reserve(size)], as [try_replace] calls it on the backup pool, only
    grows the pool.  It returns, and the pool then holds [max(length, size)]
    nodes: the nodes it held, at their places, followed by newly allocated
    nodes, pairwise distinct, at addresses that were not in use, each the
    detached black node [node_t(time_pt{}, node_data_t{{}, n_blocks}, false,
    1)].  The index of the pool, every node object that existed and every
    other member are as before; a [size] that is not larger than the pool
    changes nothing. *)
Theorem reserve_grows size s :
  alloc_ok s ->
  exists s1 news,
    backup_reserve size s = Ok tt s1
    /\ nodes_storage.nodes (backup_nodes s1)
       = nodes_storage.nodes (backup_nodes s) ++ map Some news
    /\ Z.of_nat (length (nodes_storage.nodes (backup_nodes s1)))
       = Z.max (Z.of_nat (length (nodes_storage.nodes (backup_nodes s)))) size
    /\ NoDup news
    /\ (forall a, a ∈ news ->
          store s !! a = None
          /\ store s1 !! a
             = Some (node_new 0 op_desc_default (nodes_storage.n_blocks (backup_nodes s))
                       false 1))
    /\ (forall b, is_Some (store s !! b) -> store s1 !! b = store s !! b)
    /\ rest_reserve s1 = rest_reserve s
    /\ (size <= Z.of_nat (length (nodes_storage.nodes (backup_nodes s))) -> s1 = s).
Proof. exact (backup_reserve_spec size s). Qed.

Lemma ex_state_alloc_ok : alloc_ok ex_state.
Proof.
  intros b [x Hb]. change (next_addr ex_state) with 100%positive.
  unfold ex_state, ex_store in Hb. cbn [store] in Hb.
  repeat (apply lookup_insert_Some in Hb as [[<- _]|[_ Hb]]; [lia|]).
  rewrite lookup_empty in Hb. discriminate.
Qed.

Lemma reserve_grows_witness :
  alloc_ok ex_state
  /\ exists s1 news,
       backup_reserve 3 ex_state = Ok tt s1
       /\ nodes_storage.nodes (backup_nodes s1)
          = nodes_storage.nodes (backup_nodes ex_state) ++ map Some news
       /\ Z.of_nat (length (nodes_storage.nodes (backup_nodes s1)))
          = Z.max (Z.of_nat (length (nodes_storage.nodes (backup_nodes ex_state)))) 3
       /\ NoDup news
       /\ (forall a, a ∈ news ->
             store ex_state !! a = None
             /\ store s1 !! a
                = Some (node_new 0 op_desc_default
                          (nodes_storage.n_blocks (backup_nodes ex_state)) false 1))
       /\ (forall b, is_Some (store ex_state !! b) -> store s1 !! b = store ex_state !! b)
       /\ rest_reserve s1 = rest_reserve ex_state
       /\ (3 <= Z.of_nat (length (nodes_storage.nodes (backup_nodes ex_state))) ->
           s1 = ex_state).
Proof.
  split; [exact ex_state_alloc_ok|].
  exact (reserve_grows 3 ex_state ex_state_alloc_ok).
Defined.

(** ** The destructor after a failed trial insertion *)

Lemma try_insert_throw_run fuel tau o s t b y na xa r0 :
  root (tree s) = shape_root t -> tree_at (store s) t -> bst (store s) t ->
  (height t < fuel)%nat ->
  b ∈ addrs t -> store s !! b = Some y -> key y = tau ->
  -1 <= nodes_storage.index (trial_nodes s) < 3 ->
  nodes_storage.nodes (trial_nodes s) !! Z.to_nat (nodes_storage.index (trial_nodes s) + 1)
    = Some (Some na) ->
  store s !! na = Some xa -> na ∉ addrs t ->
  inserted_nodes s !! Z.to_nat (nodes_storage.index (trial_nodes s) + 1) = Some r0 ->
  try_insert fuel tau o s
  = Throw rbt_insert_error
      (set_store (<[na := set_op o (set_key tau xa)]> (store s))
         (set_inserted_nodes
            (<[Z.to_nat (nodes_storage.index (trial_nodes s) + 1) := (None, false)]>
               (inserted_nodes s))
            (set_trial_nodes
               (nodes_storage.mk (nodes_storage.n_blocks (trial_nodes s))
                  (nodes_storage.nodes (trial_nodes s))
                  (nodes_storage.index (trial_nodes s) + 1)) s))).
Proof.
  intros Hroot Ht Hbst Hfuel Hb Hy Hk Hidx Hslot Hxa Hna Hr0.
  set (idx := nodes_storage.index (trial_nodes s)) in *.
  set (s1 := set_trial_nodes
               (nodes_storage.mk (nodes_storage.n_blocks (trial_nodes s))
                  (nodes_storage.nodes (trial_nodes s)) (idx + 1)) s).
  set (s2 := set_inserted_nodes (<[Z.to_nat (idx + 1) := (None, false)]> (inserted_nodes s)) s1).
  set (xn := set_op o (set_key tau xa)).
  set (s3 := set_store (<[na := xn]> (store s)) s2).
  assert (Hframe : forall c, c ∈ addrs t -> store s3 !! c = store s !! c).
  { intros c Hc. simpl. apply lookup_insert_ne. intros <-. contradiction. }
  assert (Ht3 : tree_at (store s3) t) by (eapply tree_at_frame; eauto).
  assert (Hy3 : store s3 !! b = Some y) by (rewrite Hframe; auto).
  assert (Hbst3 : bst (store s3) t) by (eapply bst_frame; eauto).
  assert (Hkn : key xn = tau) by (subst xn; destruct xa; reflexivity).
  assert (Hhit : descent_hits (store s3) (key xn) t = true).
  { apply (bst_descent_hits _ _ t b y Hbst3 Hb Hy3). congruence. }
  unfold try_insert, trial_index. rewrite bind_gets. fold idx.
  replace (3 <? idx) with false by (symmetry; apply Z.ltb_ge; lia).
  assert (Htake : trial_call nodes_storage.take_next s = Ok (Some na) s1).
  { unfold trial_call, nodes_storage.take_next, nodes_storage.at_.
    change (nodes_storage.i (trial_nodes s)) with idx.
    replace (idx + 1 <? 0) with false by (symmetry; apply Z.ltb_ge; lia).
    unfold node in *. rewrite Hslot. reflexivity. }
  rewrite (bind_eval _ _ _ _ _ Htake). rewrite bind_gets.
  change (nodes_storage.index (trial_nodes s1)) with (idx + 1).
  rewrite (bind_eval _ _ _ _ _
             (inserted_nodes_set_Some s1 (idx + 1) r0 (None, false) ltac:(lia) Hr0)).
  unfold reset. rewrite (assign_run _ _ _ na xa) by exact Hxa.
  rewrite bind_gets. change (root (tree _)) with (root (tree s)). rewrite Hroot.
  unfold bind at 1.
  change (try_insert_impl fuel (shape_root t) (Some na) (set_store _ _))
    with (try_insert_impl fuel (shape_root t) (Some na) s3).
  rewrite (try_insert_impl_Throw t fuel s3 na xn Ht3 (lookup_insert_eq _ _ _) Hhit Hfuel).
  reflexivity.
Qed.

(** X3.  The destructor after a trial insertion that threw.  With no trial
    insertion pending, [try_insert] at a time that is already a key of the
    search tree throws [rbt_insert_error] after it has advanced the index of
    the trial pool to 0.  The destructor then finds nothing to unlink and
    compares [tree_size] with [index() + 1 = 1]: it leaves every node object
    and [tree_size] as they are, and it sets the root to [nullptr]
    precisely when [tree_size] is 1, that is, when the tree holds a single
    node, which is not a trial node. *)
Theorem destructor_after_throw fuel tau o s t b y na xa r0 :
  root (tree s) = shape_root t -> tree_at (store s) t -> bst (store s) t ->
  (height t < fuel)%nat ->
  b ∈ addrs t -> store s !! b = Some y -> key y = tau ->
  nodes_storage.index (trial_nodes s) = -1 ->
  nodes_storage.nodes (trial_nodes s) !! 0%nat = Some (Some na) ->
  store s !! na = Some xa -> na ∉ addrs t ->
  inserted_nodes s !! 0%nat = Some r0 ->
  exists s1 s2,
    try_insert fuel tau o s = Throw rbt_insert_error s1
    /\ destructor s1 = Ok tt s2
    /\ root (tree s1) = root (tree s)
    /\ root (tree s2) = (if tree_size s =? 1 then None else root (tree s))
    /\ store s2 = store s1
    /\ (forall c, c ∈ addrs t -> store s2 !! c = store s !! c)
    /\ tree_size s2 = tree_size s.
Proof.
  intros Hroot Ht Hbst Hfuel Hb Hy Hk Hidx Hslot Hxa Hna Hr0.
  pose proof (try_insert_throw_run fuel tau o s t b y na xa r0 Hroot Ht Hbst Hfuel Hb Hy Hk)
    as Hrun.
  rewrite Hidx in Hrun. change (Z.to_nat (-1 + 1)) with 0%nat in Hrun.
  specialize (Hrun ltac:(lia) Hslot Hxa Hna Hr0).
  change (-1 + 1) with 0 in Hrun.
  eexists. eexists. split; [exact Hrun|].
  match type of Hrun with _ = Throw _ ?st => set (s1 := st) end.
  assert (Hat : inserted_nodes_at 0 s1 = Ok (None, false) s1).
  { unfold inserted_nodes_at. change (0 <? 0) with false. cbv beta iota.
    change (inserted_nodes s1) with (<[0%nat := (None, false)]> (inserted_nodes s)).
    change (Z.to_nat 0) with 0%nat.
    rewrite list_lookup_insert_eq by (eapply lookup_lt_Some; eauto). reflexivity. }
  assert (Hd : destructor s1
               = Ok tt (if tree_size s =? 1 then set_root None s1 else s1)).
  { unfold destructor, cancel_insert_impl, trial_index. rewrite bind_gets.
    change (nodes_storage.index (trial_nodes s1)) with 0.
    change (Z.to_nat (0 + 1)) with 1%nat. cbn [for_loop].
    unfold bind. rewrite Hat. cbn [fst]. unfold ret, gets, modify.
    change (tree_size s1) with (tree_size s).
    change (nodes_storage.index (trial_nodes s1)) with 0. change (0 + 1) with 1.
    destruct (tree_size s =? 1); reflexivity. }
  split; [exact Hd|]. split; [reflexivity|].
  split; [destruct (tree_size s =? 1); reflexivity|].
  split; [destruct (tree_size s =? 1); reflexivity|].
  split; [|destruct (tree_size s =? 1); reflexivity].
  intros c Hc.
  destruct (tree_size s =? 1); simpl; apply lookup_insert_ne; intros <-; contradiction.
Qed.

Lemma ex_state_bst : bst (store ex_state) ex_shape.
Proof.
  simpl. split; [|split; split; [| tauto | | tauto ]].
  - eexists. split; [vm_compute; reflexivity|]. split; intros b y Hb Hy; set_unfold in Hb.
    + destruct Hb as [->|[]]. vm_compute in Hy. injection Hy as <-. reflexivity.
    + destruct Hb as [->|[]]. vm_compute in Hy. injection Hy as <-. reflexivity.
  - eexists. split; [vm_compute; reflexivity|]. split; intros b y Hb Hy; set_unfold in Hb;
      destruct Hb.
  - eexists. split; [vm_compute; reflexivity|]. split; intros b y Hb Hy; set_unfold in Hb;
      destruct Hb.
Qed.

Lemma ex_single_tree : tree_at (store ex_single) ex_single_shape.
Proof. simpl. split; [|tauto]. eexists. split; [vm_compute; reflexivity|]. split; reflexivity. Qed.

Lemma ex_single_bst : bst (store ex_single) ex_single_shape.
Proof.
  simpl. split; [|tauto].
  eexists. split; [vm_compute; reflexivity|]. split; intros b y Hb Hy; set_unfold in Hb;
    destruct Hb.
Qed.

Lemma destructor_after_throw_witness :
  exists s1 s2,
    try_insert 10 20 (mk_op_desc 0 false 0) ex_single = Throw rbt_insert_error s1
    /\ destructor s1 = Ok tt s2
    /\ root (tree s1) = root (tree ex_single)
    /\ root (tree s2) = (if tree_size ex_single =? 1 then None else root (tree ex_single))
    /\ store s2 = store s1
    /\ (forall c, c ∈ addrs ex_single_shape -> store s2 !! c = store ex_single !! c)
    /\ tree_size s2 = tree_size ex_single.
Proof.
  refine (destructor_after_throw 10 20 (mk_op_desc 0 false 0) ex_single ex_single_shape
            1%positive (ex_node 20 (mk_op_desc 0 true 0) None None 1) 11%positive ex_pool_node
            (None, false) eq_refl ex_single_tree ex_single_bst _ _ _ eq_refl eq_refl eq_refl _ _
            eq_refl).
  - simpl. lia.
  - simpl. set_solver.
  - vm_compute. reflexivity.
  - vm_compute. reflexivity.
  - simpl. set_solver.
Defined.

(** ** Trial deletions followed by [cancel_delete] *)

Lemma scan_in {C} (g : addr -> C -> bool * C) l :
  forall c x, fst (scan g l c) = Some x -> x ∈ l.
Proof.
  induction l as [|a l IH]; intros c x H; [discriminate|].
  rewrite scan_cons in H. destruct (fst (g a c)).
  - injection H as <-. set_solver.
  - apply IH in H. set_solver.
Qed.

Lemma try_delete_scan_run fuel n block_idx dag s t x xn :
  root (tree s) = shape_root t -> tree_at (store s) t -> NoDup (addrs t) ->
  bst (store s) t -> (height t < fuel)%nat ->
  fst (scan (delete_step (store s) n block_idx dag) (addrs t) 0) = Some x ->
  store s !! x = Some xn ->
  try_delete fuel n block_idx dag s = Ok (key xn) (delete_post t x (key xn) s).
Proof.
  intros Hroot Ht Hnd Hbst Hfuel Hscan Hx.
  assert (Hin : x ∈ addrs t) by (eapply scan_in; eauto).
  pose proof (search_path_path_to _ _ _ _ Ht Hnd Hbst Hin Hx) as Hsp.
  set (s1 := set_removed_nodes (removed_nodes s ++ [Some x]) s).
  set (s2 := set_removed_keys (removed_keys s ++ [key xn]) s1).
  set (h3 := mark_path (key xn) t (store s)).
  set (s3 := set_store h3 s2).
  assert (Hx3 : h3 !! x = Some (set_modified true xn)).
  { unfold h3. rewrite mark_path_lookup by assumption. rewrite Hsp.
    destruct (decide (x ∈ path_to t x)) as [_|Hn']; [rewrite Hx; reflexivity|].
    exfalso. apply Hn'. apply path_to_self. exact Hin. }
  assert (Hds : delete_store t x (store s)
                = <[x := set_delete_flag true (set_modified true xn)]> h3).
  { unfold delete_store. rewrite Hx. cbv zeta. fold h3. rewrite Hx3. reflexivity. }
  unfold try_delete, noexcept.
  rewrite (bind_eval _ _ _ _ _ (find_if_delete_run fuel n block_idx dag s t 0 Hroot Ht Hfuel)).
  rewrite Hscan. rewrite bind_modify. fold s1.
  rewrite (bind_eval _ _ _ _ _ (field_Some key s1 x xn Hx)).
  rewrite bind_modify. fold s2.
  rewrite (bind_eval _ _ _ _ _ (field_Some key s2 x xn Hx)).
  assert (Hmark : set_modified_from_root_to fuel (key xn) s2 = Ok tt s3).
  { unfold set_modified_from_root_to. rewrite bind_gets.
    change (root (tree s2)) with (root (tree s)). rewrite Hroot.
    apply (set_modified_impl_run (key xn) t fuel s2 Ht Hnd Hfuel). }
  rewrite (bind_eval _ _ _ _ _ Hmark).
  rewrite (assign_run _ _ _ x (set_modified true xn)) by exact Hx3.
  rewrite bind_modify.
  unfold delete_post. rewrite Hds.
  match goal with
  | |- context [field key (Some x) ?st] =>
    rewrite (field_Some key st x (set_delete_flag true (set_modified true xn)))
      by apply lookup_insert_eq
  end.
  reflexivity.
Qed.

Lemma try_delete_inv fuel n block_idx dag s t k s' :
  root (tree s) = shape_root t -> tree_at (store s) t -> NoDup (addrs t) ->
  bst (store s) t -> (height t < fuel)%nat ->
  try_delete fuel n block_idx dag s = Ok k s' ->
  exists x xn, x ∈ addrs t /\ store s !! x = Some xn /\ k = key xn
               /\ s' = delete_post t x k s.
Proof.
  intros Hroot Ht Hnd Hbst Hfuel Hrun.
  destruct (fst (scan (delete_step (store s) n block_idx dag) (addrs t) 0)) as [x|] eqn:Hscan.
  - assert (Hin : x ∈ addrs t) by (eapply scan_in; eauto).
    destruct (tree_at_lookup _ _ _ Ht Hin) as (xn & Hx).
    rewrite (try_delete_scan_run fuel n block_idx dag s t x xn Hroot Ht Hnd Hbst Hfuel Hscan Hx)
      in Hrun.
    apply Ok_inj in Hrun as [<- <-]. exists x, xn. auto.
  - exfalso. unfold try_delete, noexcept in Hrun.
    rewrite (bind_eval _ _ _ _ _ (find_if_delete_run fuel n block_idx dag s t 0 Hroot Ht Hfuel))
      in Hrun.
    rewrite Hscan in Hrun. discriminate.
Qed.

Lemma bst_keys (h h' : gmap addr node_t) t :
  (forall b, b ∈ addrs t -> key <$> (h' !! b) = key <$> (h !! b)) -> bst h t -> bst h' t.
Proof.
  induction t as [|l IHl a r IHr]; [auto|]. intros Hk ((x & Hx & Hxl & Hxr) & Hl & Hr).
  assert (Ha : exists x', h' !! a = Some x' /\ key x' = key x).
  { pose proof (Hk a ltac:(simpl; set_solver)) as E. rewrite Hx in E.
    destruct (h' !! a) as [x'|]; [|discriminate]. injection E as E. eauto. }
  destruct Ha as (x' & Hx' & Ekey).
  assert (Hb : forall b y', b ∈ addrs (Br l a r) -> h' !! b = Some y' ->
                 exists y, h !! b = Some y /\ key y = key y').
  { intros b y' Hin Hy'. pose proof (Hk b Hin) as E. rewrite Hy' in E.
    destruct (h !! b) as [y|]; [|discriminate]. injection E as E. eauto. }
  simpl. split; [|split].
  - exists x'. split; [exact Hx'|]. rewrite Ekey. split; intros b y' Hin Hy'.
    + destruct (Hb b y' ltac:(simpl; set_solver) Hy') as (y & Hy & <-). eauto.
    + destruct (Hb b y' ltac:(simpl; set_solver) Hy') as (y & Hy & <-). eauto.
  - apply IHl; [|exact Hl]. intros b Hin. apply Hk. simpl. set_solver.
  - apply IHr; [|exact Hr]. intros b Hin. apply Hk. simpl. set_solver.
Qed.

Lemma settled_deleting s0 t : settled s0 t -> deleting s0 t s0.
Proof.
  intros S. split; auto.
  - intros b y0 Hb Hy0. exists y0. split; [exact Hy0|]. split; [repeat split|].
    destruct (st_flags _ _ S b y0 Hb Hy0) as (_ & E). congruence.
  - rewrite (st_removed_nodes _ _ S). set_solver.
Qed.

Lemma deleting_tree s0 t s :
  settled s0 t -> deleting s0 t s ->
  root (tree s) = shape_root t /\ tree_at (store s) t /\ bst (store s) t.
Proof.
  intros S D. pose proof (dl_rest _ _ _ D) as Hrest. unfold rest_delete in Hrest.
  injection Hrest as _ _ _ _ _ _ _ _ Htree _ _ _.
  split; [rewrite Htree; apply (st_root _ _ S)|]. split.
  - eapply tree_at_links; [|apply (st_tree _ _ S)]. intros b Hb y0 Hy0.
    destruct (dl_on _ _ _ D b y0 Hb Hy0) as (y & Hy & (_ & _ & _ & Hl & Hr & _) & _). eauto.
  - eapply bst_keys; [|apply (st_bst _ _ S)]. intros b Hb.
    destruct (tree_at_lookup _ _ _ (st_tree _ _ S) Hb) as (y0 & Hy0).
    destruct (dl_on _ _ _ D b y0 Hb Hy0) as (y & Hy & (_ & _ & Hk & _) & _).
    rewrite Hy, Hy0. simpl. congruence.
Qed.

Lemma deleting_step fuel n block_idx dag s0 t s k s' :
  settled s0 t -> deleting s0 t s -> (height t < fuel)%nat ->
  try_delete fuel n block_idx dag s = Ok k s' ->
  deleting s0 t s'.
Proof.
  intros S D Hfuel Hrun.
  destruct (deleting_tree _ _ _ S D) as (Hroot & Ht & Hbst).
  pose proof (st_nodup _ _ S) as Hnd.
  destruct (try_delete_inv fuel n block_idx dag s t k s' Hroot Ht Hnd Hbst Hfuel Hrun)
    as (x & xn & Hin & Hx & -> & ->).
  pose proof (fun b => delete_store_lookup (store s) t x xn b Ht Hnd Hbst Hin Hx) as Hlk.
  split.
  - intros b Hb. cbn [delete_post store set_store set_tree_size]. rewrite Hlk.
    destruct (decide (b = x)) as [->|_]; [contradiction|].
    destruct (decide (b ∈ path_to t x)) as [Hp|_];
      [exfalso; apply Hb; eapply path_to_in; eauto|].
    apply (dl_off _ _ _ D b Hb).
  - intros b y0 Hb Hy0.
    destruct (dl_on _ _ _ D b y0 Hb Hy0) as (y & Hy & Hsame & Hflag).
    cbn [delete_post store set_store set_tree_size removed_nodes set_removed_keys
         set_removed_nodes]. rewrite Hlk.
    destruct (decide (b = x)) as [->|Hne].
    + rewrite Hx in Hy. injection Hy as <-.
      eexists. split; [reflexivity|]. split; [destruct xn; exact Hsame|].
      intros _. set_solver.
    + destruct (decide (b ∈ path_to t x)); rewrite Hy; simpl.
      * eexists. split; [reflexivity|]. split; [destruct y; exact Hsame|].
        intros E. assert (delete_flag y = true) by (destruct y; exact E). set_solver.
      * eexists. split; [reflexivity|]. split; [exact Hsame|]. intros E. set_solver.
  - intros m Hm.
    cbn [delete_post removed_nodes set_store set_tree_size set_removed_keys
         set_removed_nodes] in Hm.
    apply elem_of_app in Hm as [Hm|Hm]; [apply (dl_removed _ _ _ D m Hm)|].
    apply list_elem_of_singleton in Hm as ->. eauto.
  - rewrite <- (dl_rest _ _ _ D). reflexivity.
Qed.

Lemma try_deletes_deleting fuel reqs :
  forall s0 t s ks s',
    settled s0 t -> deleting s0 t s -> (height t < fuel)%nat ->
    try_deletes fuel reqs s = Ok ks s' ->
    deleting s0 t s'.
Proof.
  induction reqs as [|[[n block_idx] dag] reqs IH]; intros s0 t s ks s' S D Hfuel Hrun.
  - simpl in Hrun. apply Ok_inj in Hrun as [_ <-]. exact D.
  - simpl in Hrun. apply bind_Ok in Hrun as (k & s1 & Hd & Hrun).
    apply bind_Ok in Hrun as (ks' & s2 & Hrest & Hrun).
    apply Ok_inj in Hrun as [_ <-].
    eapply IH; [exact S| |exact Hfuel|exact Hrest].
    eapply deleting_step; eauto.
Qed.

Lemma unflag_store_lookup rn :
  forall (h : gmap addr node_t) b,
    unflag_store rn h !! b
    = if decide (Some b ∈ rn) then set_delete_flag false <$> (h !! b) else h !! b.
Proof.
  induction rn as [|n rn IH]; intros h b.
  - cbn [unflag_store]. case_decide as H; [set_solver|reflexivity].
  - assert (Hcons : forall m, Some b ∈ m :: rn <-> m = Some b \/ Some b ∈ rn).
    { intros m. rewrite elem_of_cons. split; intros [?|?]; auto. }
    cbn [unflag_store]. destruct n as [c|].
    + destruct (h !! c) as [y|] eqn:Hc; rewrite IH.
      * destruct (decide (b = c)) as [->|Hne].
        -- rewrite lookup_insert_eq, Hc. cbn [fmap option_fmap option_map].
           case_decide as Hi; case_decide as Hj; try (destruct y; reflexivity);
             exfalso; apply Hj, Hcons; auto.
        -- rewrite lookup_insert_ne by congruence.
           case_decide as Hi; case_decide as Hj; try reflexivity.
           ++ exfalso. apply Hj, Hcons. auto.
           ++ exfalso. apply Hcons in Hj as [[= ->]|?]; auto.
      * case_decide as Hi; case_decide as Hj; try reflexivity.
        -- exfalso. apply Hj, Hcons. auto.
        -- apply Hcons in Hj as [[= ->]|?]; [|contradiction]. rewrite Hc. reflexivity.
    + rewrite IH.
      case_decide as Hi; case_decide as Hj; try reflexivity.
      * exfalso. apply Hj, Hcons. auto.
      * exfalso. apply Hcons in Hj as [?|?]; [discriminate|contradiction].
Qed.

Lemma unflag_loop rn :
  forall s,
    (forall n, n ∈ rn -> exists b, n = Some b /\ is_Some (store s !! b)) ->
    for_each rn (fun n => assign n (set_delete_flag false)) s
    = Ok tt (set_store (unflag_store rn (store s)) s).
Proof.
  induction rn as [|n rn IH]; intros s Hrn.
  - simpl. unfold ret. rewrite set_store_id. reflexivity.
  - destruct (Hrn n ltac:(set_solver)) as (b & -> & (y & Hy)).
    cbn [for_each unflag_store]. rewrite Hy.
    rewrite (assign_run _ _ _ b y Hy).
    rewrite IH.
    + cbn [store set_store]. rewrite set_store_set_store. reflexivity.
    + intros m Hm. destruct (Hrn m ltac:(set_solver)) as (c & -> & Hc).
      exists c. split; [reflexivity|]. cbn [store set_store].
      apply lookup_insert_is_Some'. auto.
Qed.

Lemma cancel_delete_deleting fuel s0 t s :
  settled s0 t -> deleting s0 t s -> (height t < fuel)%nat ->
  cancel_delete fuel s = Ok tt s0.
Proof.
  intros S D Hfuel.
  destruct (deleting_tree _ _ _ S D) as (Hroot & Ht & _).
  pose proof (dl_rest _ _ _ D) as Hrest. unfold rest_delete in Hrest.
  injection Hrest as Hna Hun Hmd Hnb Hdm Har Haz Han Htree Htn Hin Hbn.
  set (h1 := unflag_store (removed_nodes s) (store s)).
  assert (Hloop : for_each (removed_nodes s) (fun n => assign n (set_delete_flag false)) s
                  = Ok tt (set_store h1 s)).
  { apply unflag_loop. intros n Hn. destruct (dl_removed _ _ _ D n Hn) as (b & -> & Hb).
    exists b. split; [reflexivity|]. apply (tree_at_lookup _ _ _ Ht Hb). }
  (* the nodes of the tree after the loop *)
  assert (Hon : forall b y0, b ∈ addrs t -> store s0 !! b = Some y0 ->
            exists y1, h1 !! b = Some y1 /\ same_but_flags y1 y0 /\ delete_flag y1 = false).
  { intros b y0 Hb Hy0. destruct (dl_on _ _ _ D b y0 Hb Hy0) as (y & Hy & Hsame & Hflag).
    unfold h1. rewrite unflag_store_lookup, Hy.
    destruct (decide (Some b ∈ removed_nodes s)) as [_|Hn]; simpl.
    - eexists. split; [reflexivity|]. split; destruct y; auto.
    - eexists. split; [reflexivity|]. split; [exact Hsame|].
      destruct (delete_flag y) eqn:E; [|reflexivity]. exfalso. auto. }
  assert (Hoff : forall b, b ∉ addrs t -> h1 !! b = store s0 !! b).
  { intros b Hb. unfold h1. rewrite unflag_store_lookup.
    destruct (decide (Some b ∈ removed_nodes s)) as [Hn|_].
    - destruct (dl_removed _ _ _ D _ Hn) as (c & [= <-] & Hc). contradiction.
    - apply (dl_off _ _ _ D b Hb). }
  assert (Ht1 : tree_at h1 t).
  { eapply tree_at_links; [|apply (st_tree _ _ S)]. intros b Hb y0 Hy0.
    destruct (Hon b y0 Hb Hy0) as (y1 & Hy1 & (_ & _ & _ & Hl & Hr & _) & _). eauto. }
  set (s2 := set_removed_keys [] (set_removed_nodes [] (set_store h1 s))).
  assert (Hsz : tree_size_query s2 = Ok (tree_size s0) s2).
  { pose proof (st_size _ _ S) as Hq. unfold tree_size_query in Hq |- *.
    rewrite bind_gets in Hq |- *. change (root (tree s2)) with (root (tree s)).
    rewrite Hroot. rewrite (st_root _ _ S) in Hq.
    destruct t as [|l a r]; simpl in Hq |- *.
    - unfold ret in Hq |- *. apply Ok_inj in Hq as [<- _]. reflexivity.
    - destruct (st_tree _ _ S) as ((y0 & Hy0 & _) & _).
      rewrite (field_Some N s0 a y0 Hy0) in Hq. apply Ok_inj in Hq as [<- _].
      destruct (Hon a y0 ltac:(simpl; set_solver) Hy0)
        as (y1 & Hy1 & (_ & _ & _ & _ & _ & _ & HN) & _).
      rewrite (field_Some N s2 a y1 Hy1). rewrite HN. reflexivity. }
  assert (Hcl : clear_modified fuel (set_tree_size (tree_size s0) s2)
                = Ok tt (set_store (clear_store t h1) (set_tree_size (tree_size s0) s2))).
  { unfold clear_modified. rewrite bind_gets.
    change (root (tree (set_tree_size (tree_size s0) s2))) with (root (tree s)).
    rewrite Hroot.
    apply (clear_modified_impl_run t fuel (set_tree_size (tree_size s0) s2) Ht1 Hfuel). }
  unfold cancel_delete. rewrite bind_gets.
  rewrite (bind_eval _ _ _ _ _ Hloop). rewrite !bind_modify. fold s2.
  rewrite (bind_eval _ _ _ _ _ Hsz). rewrite bind_modify.
  rewrite (bind_eval _ _ _ _ _ Hcl). unfold check_cache_integrity, ret. f_equal.
  apply state_eq; simpl; auto.
  - apply map_eq. intros b. rewrite clear_store_lookup.
    destruct (decide (b ∈ addrs t)) as [Hb|Hb]; [|apply Hoff; exact Hb].
    destruct (tree_at_lookup _ _ _ (st_tree _ _ S) Hb) as (y0 & Hy0).
    destruct (Hon b y0 Hb Hy0) as (y1 & Hy1 & Hsame & Hfl).
    destruct (st_flags _ _ S b y0 Hb Hy0) as (Hm0 & Hf0).
    rewrite Hy1, Hy0. simpl. f_equal.
    destruct Hsame as (? & ? & ? & ? & ? & ? & ?).
    destruct y1, y0; simpl in *; subst; reflexivity.
  - symmetry. apply (st_removed_nodes _ _ S).
  - symmetry. apply (st_removed_keys _ _ S).
Qed.

(** X4.  Trial deletions followed by [cancel_delete].  From a state with no
    deletion pending (the search tree is linked at the root, none of its
    nodes is marked modified or flagged for deletion, [tree_size] is the
    size the tree reports and nothing is recorded as removed), after any
    sequence of [try_delete] calls that all return, [cancel_delete] returns
    and the state is exactly the one before the first [try_delete]: every
    node object, the root, [tree_size] and every other member. *)
Theorem cancel_delete_restores fuel reqs s0 t ks s1 :
  settled s0 t -> (height t < fuel)%nat ->
  try_deletes fuel reqs s0 = Ok ks s1 ->
  cancel_delete fuel s1 = Ok tt s0.
Proof.
  intros S Hfuel Hrun.
  apply (cancel_delete_deleting fuel s0 t s1 S); [|exact Hfuel].
  apply (try_deletes_deleting fuel reqs s0 t s0 ks s1 S (settled_deleting _ _ S) Hfuel Hrun).
Qed.

Lemma ex_state_settled : settled ex_state ex_shape.
Proof.
  split.
  - reflexivity.
  - apply (q_tree _ _ ex_state_quiescent).
  - apply (q_nodup _ _ ex_state_quiescent).
  - exact ex_state_bst.
  - intros a x Ha Hx. simpl in Ha. set_unfold in Ha.
    destruct Ha as [->|[->|[->|[]]]]; vm_compute in Hx; injection Hx as <-; split; reflexivity.
  - reflexivity.
  - reflexivity.
  - reflexivity.
Qed.

Lemma cancel_delete_restores_witness :
  exists ks s1,
    try_deletes 10 [(0, 0, true); (0, 0, false)] ex_state = Ok ks s1
    /\ cancel_delete 10 s1 = Ok tt ex_state.
Proof.
  eexists _, _.
  assert (H : try_deletes 10 [(0, 0, true); (0, 0, false)] ex_state
              = Ok [20; 30]
                  (state_after (try_deletes 10 [(0, 0, true); (0, 0, false)] ex_state)
                     ex_state)) by (vm_compute; reflexivity).
  split; [exact H|].
  refine (cancel_delete_restores 10 _ ex_state ex_shape _ _ ex_state_settled _ H).
  simpl. lia.
Defined.

(** ** A trial insertion at a new time *)

Lemma descent_hits_false (h : gmap addr node_t) k t :
  (forall b y, b ∈ addrs t -> h !! b = Some y -> key y <> k) ->
  descent_hits h k t = false.
Proof.
  induction t as [|l IHl a r IHr]; intros Hk; [reflexivity|].
  simpl. destruct (h !! a) as [x|] eqn:Hx; [|reflexivity].
  apply orb_false_intro.
  - apply Z.eqb_neq. apply (Hk a x); [simpl; set_solver|exact Hx].
  - destruct (comparator k (key x)); simpl; [apply IHl|apply IHr]; intros b y Hb;
      apply Hk; simpl; set_solver.
Qed.

Lemma ins_inserted_nodes_length (h : gmap addr node_t) k t idx rs :
  length (ins_inserted_nodes h k t idx rs) = length rs.
Proof.
  unfold ins_inserted_nodes. destruct (splice_point h k t) as [[a sm]|]; [|reflexivity].
  apply length_insert.
Qed.

Lemma try_insert_impl_returns t :
  forall fuel s na xn bb,
    tree_at (store s) t -> NoDup (addrs t) -> na ∉ addrs t ->
    store s !! na = Some xn ->
    0 <= nodes_storage.index (trial_nodes s) ->
    inserted_nodes s !! Z.to_nat (nodes_storage.index (trial_nodes s)) = Some (None, bb) ->
    descent_hits (store s) (key xn) t = false -> (height t < fuel)%nat ->
    exists r s', try_insert_impl fuel (shape_root t) (Some na) s = Ok r s'.
Proof.
  induction t as [|l IHl a r IHr]; intros fuel s na xn bb Ht Hnd Hna Hxn Hidx Hent Hhit Hfuel.
  - destruct fuel; [simpl in Hfuel; lia|]. simpl. eauto.
  - destruct fuel; [simpl in Hfuel; lia|]. simpl in Hfuel.
    pose proof Ht as ((x & Hx & Hxl & Hxr) & Hl & Hr).
    simpl in Hhit. rewrite Hx in Hhit. apply orb_false_elim in Hhit as (Ek & Hhit).
    simpl shape_root. simpl try_insert_impl.
    rewrite (bind_eval _ _ _ _ _ (field_Some key s a x Hx)).
    rewrite (bind_eval _ _ _ _ _ (field_Some key s na xn Hxn)).
    rewrite Ek.
    set (sm := comparator (key xn) (key x)) in *.
    rewrite (bind_eval _ _ _ _ _ (field_Some (fun y => child y sm) s a x Hx)).
    rewrite (shape_root_sub_child _ l a r x sm Hx Hxl Hxr).
    destruct (NoDup_sub sm _ _ _ Hnd) as (Hnds & Has).
    assert (Hnas : na ∉ addrs (sub sm l r)).
    { intros Hin. apply Hna. simpl. apply addrs_sub_incl in Hin. set_solver. }
    assert (Hts : tree_at (store s) (sub sm l r)) by (apply tree_at_sub; assumption).
    assert (IH : exists c s1,
               try_insert_impl fuel (shape_root (sub sm l r)) (Some na) s = Ok c s1).
    { pose proof (height_sub sm l r).
      destruct sm; simpl sub in *;
        [eapply (IHl fuel s na xn bb)|eapply (IHr fuel s na xn bb)]; eauto; lia. }
    destruct IH as (c & s1 & Hrec).
    rewrite (bind_eval _ _ _ _ _ Hrec).
    destruct (try_insert_impl_Ok (sub sm l r) fuel s na xn bb c s1 Hts Hnds Hnas Hxn Hidx Hent
                Hrec) as (-> & Es1).
    assert (Hx1 : store s1 !! a = Some x).
    { rewrite Es1. simpl. rewrite ins_store_frame; auto. }
    rewrite (bind_eval _ _ _ _ _ (assign_Some _ s1 a x Hx1)).
    unfold trial_index. rewrite bind_gets.
    set (s2 := set_store _ s1).
    assert (Hi2 : nodes_storage.index (trial_nodes s2) = nodes_storage.index (trial_nodes s)).
    { unfold s2. rewrite Es1. reflexivity. }
    rewrite Hi2.
    assert (Hent2 : exists r2, inserted_nodes s2
                      !! Z.to_nat (nodes_storage.index (trial_nodes s)) = Some r2).
    { apply lookup_lt_is_Some. unfold s2. rewrite Es1. simpl.
      rewrite ins_inserted_nodes_length. eapply lookup_lt_Some; eauto. }
    destruct Hent2 as (r2 & Hent2).
    rewrite (bind_eval _ _ _ _ _ (inserted_nodes_at_Some s2 _ _ Hidx Hent2)).
    assert (Hx2 : store s2 !! a = Some (set_child sm (ins_root (sub sm l r) na) x))
      by (unfold s2; simpl; apply lookup_insert_eq).
    destruct (fst r2).
    + rewrite bind_ret. rewrite (assign_run _ _ _ a _ Hx2). unfold ret. eauto.
    + rewrite (bind_eval _ _ _ _ _ (inserted_nodes_set_Some s2 _ _ _ Hidx Hent2)).
      rewrite (assign_run _ _ _ a (set_child sm (ins_root (sub sm l r) na) x))
        by exact Hx2.
      unfold ret. eauto.
Qed.

Lemma bst_ins_shape (h : gmap addr node_t) k na xn t :
  tree_at h t -> bst h t -> h !! na = Some xn -> key xn = k ->
  (forall b y, b ∈ addrs t -> h !! b = Some y -> key y <> k) ->
  bst h (ins_shape h k na t).
Proof.
  intros Ht Hbst Hxn Hkn. induction t as [|l IHl a r IHr]; intros Hk.
  - simpl. split; [|tauto]. exists xn. split; [exact Hxn|]. split; intros b y Hb; set_solver.
  - pose proof Ht as ((x & Hx & _) & Hl & Hr).
    destruct Hbst as ((x' & Hx' & Hxl & Hxr) & Hbl & Hbr).
    rewrite Hx in Hx'. injection Hx' as <-.
    assert (Hne : key x <> k) by (apply (Hk a x); [simpl; set_solver|exact Hx]).
    simpl. rewrite Hx. unfold comparator. destruct (key x <? k) eqn:E.
    + apply Z.ltb_lt in E. simpl. split; [|split; [|exact Hbr]].
      * exists x. split; [exact Hx|]. split; [|exact Hxr].
        intros b y Hb Hy. apply (ins_shape_addrs h k na l b Hl) in Hb as [->|Hb].
        -- rewrite Hxn in Hy. injection Hy as <-. lia.
        -- eauto.
      * apply IHl; auto. intros b y Hb. apply Hk. simpl. set_solver.
    + apply Z.ltb_ge in E. simpl. split; [|split; [exact Hbl|]].
      * exists x. split; [exact Hx|]. split; [exact Hxl|].
        intros b y Hb Hy. apply (ins_shape_addrs h k na r b Hr) in Hb as [->|Hb].
        -- rewrite Hxn in Hy. injection Hy as <-. lia.
        -- eauto.
      * apply IHr; auto. intros b y Hb. apply Hk. simpl. set_solver.
Qed.

Lemma ins_shape_inorder (h : gmap addr node_t) k na t :
  tree_at h t ->
  exists pre post, addrs t = pre ++ post /\ addrs (ins_shape h k na t) = pre ++ na :: post.
Proof.
  induction t as [|l IHl a r IHr]; intros Ht.
  - exists [], []. split; reflexivity.
  - pose proof Ht as ((x & Hx & _) & Hl & Hr). simpl. rewrite Hx.
    destruct (comparator k (key x)); simpl.
    + destruct (IHl Hl) as (pre & post & E1 & E2).
      exists pre, (post ++ a :: addrs r). rewrite E1, E2, <- !app_assoc. split; reflexivity.
    + destruct (IHr Hr) as (pre & post & E1 & E2).
      exists (addrs l ++ a :: pre), post. rewrite E1, E2, <- !app_assoc. split; reflexivity.
Qed.

Lemma ins_store_key k na t :
  forall (h : gmap addr node_t) b, key <$> (ins_store k na t h !! b) = key <$> (h !! b).
Proof.
  induction t as [|l IHl a r IHr]; intros h b; [reflexivity|].
  simpl. destruct (h !! a) as [x|] eqn:Hx; [|reflexivity].
  destruct (decide (b = a)) as [->|Hne].
  - rewrite lookup_insert_eq, Hx. simpl. destruct (comparator k (key x)); destruct x; reflexivity.
  - rewrite lookup_insert_ne by congruence.
    destruct (comparator k (key x)); simpl; [apply IHl|apply IHr].
Qed.

(** X5.  A trial insertion at a new time keeps the tree ordered.  In a
    search tree (for [std::greater]) in which no node has the key [tau],
    with a detached node free at the next place of the trial pool,
    [try_insert(tau, op)] returns; the pool node, with key [tau] and operator
    [op], is then linked in as a leaf, the tree is again a search tree, and
    its in-order sequence is the one before with the new node put in at one
    place; [tree_size] is one more. *)
Theorem try_insert_keeps_order fuel tau o s t na xa r0 :
  root (tree s) = shape_root t -> tree_at (store s) t -> NoDup (addrs t) ->
  bst (store s) t -> (height t < fuel)%nat ->
  (forall b y, b ∈ addrs t -> store s !! b = Some y -> key y <> tau) ->
  -1 <= nodes_storage.index (trial_nodes s) <= 3 ->
  nodes_storage.nodes (trial_nodes s) !! Z.to_nat (nodes_storage.index (trial_nodes s) + 1)
    = Some (Some na) ->
  store s !! na = Some xa -> left xa = None -> right xa = None -> na ∉ addrs t ->
  inserted_nodes s !! Z.to_nat (nodes_storage.index (trial_nodes s) + 1) = Some r0 ->
  exists s' t',
    try_insert fuel tau o s = Ok tt s'
    /\ root (tree s') = shape_root t'
    /\ tree_at (store s') t'
    /\ bst (store s') t'
    /\ NoDup (addrs t')
    /\ (exists pre post, addrs t = pre ++ post /\ addrs t' = pre ++ na :: post)
    /\ (exists xn, store s' !! na = Some xn /\ key xn = tau /\ op xn = o
                   /\ left xn = None /\ right xn = None)
    /\ tree_size s' = tree_size s + 1.
Proof.
  intros Hroot Ht Hnd Hbst Hfuel Hfresh Hidx Hslot Hxa Hxl Hxr Hna Hr0.
  set (idx := nodes_storage.index (trial_nodes s)) in *.
  set (s1 := set_trial_nodes
               (nodes_storage.mk (nodes_storage.n_blocks (trial_nodes s))
                  (nodes_storage.nodes (trial_nodes s)) (idx + 1)) s).
  set (s2 := set_inserted_nodes (<[Z.to_nat (idx + 1) := (None, false)]> (inserted_nodes s)) s1).
  set (xn := set_op o (set_key tau xa)).
  set (h3 := <[na := xn]> (store s)).
  set (s3 := set_store h3 s2).
  assert (Hframe : forall c, c ∈ addrs t -> h3 !! c = store s !! c).
  { intros c Hc. unfold h3. apply lookup_insert_ne. intros <-. contradiction. }
  assert (Ht3 : tree_at h3 t) by (eapply tree_at_frame; eauto).
  assert (Hbst3 : bst h3 t) by (eapply bst_frame; eauto).
  assert (Hkn : key xn = tau) by (subst xn; destruct xa; reflexivity).
  assert (Hxn3 : h3 !! na = Some xn) by (unfold h3; apply lookup_insert_eq).
  assert (Hfresh3 : forall b y, b ∈ addrs t -> h3 !! b = Some y -> key y <> tau).
  { intros b y Hb Hy. rewrite Hframe in Hy by exact Hb. eauto. }
  assert (Hhit : descent_hits (store s3) (key xn) t = false).
  { apply descent_hits_false. rewrite Hkn. exact Hfresh3. }
  assert (Hent3 : inserted_nodes s3 !! Z.to_nat (nodes_storage.index (trial_nodes s3))
                  = Some (None, false)).
  { simpl. apply list_lookup_insert_eq. eapply lookup_lt_Some; eauto. }
  destruct (try_insert_impl_returns t fuel s3 na xn false Ht3 Hnd Hna Hxn3
              ltac:(simpl; lia) Hent3 Hhit Hfuel) as (r & s4 & Himpl).
  destruct (try_insert_impl_Ok t fuel s3 na xn false r s4 Ht3 Hnd Hna Hxn3
              ltac:(simpl; lia) Hent3 Himpl) as (-> & Es4).
  assert (Hrun : try_insert fuel tau o s
                 = Ok tt (set_tree_size (tree_size s4 + 1) (set_root (ins_root t na) s4))).
  { unfold try_insert, trial_index. rewrite bind_gets. fold idx.
    replace (3 <? idx) with false by (symmetry; apply Z.ltb_ge; lia).
    assert (Htake : trial_call nodes_storage.take_next s = Ok (Some na) s1).
    { unfold trial_call, nodes_storage.take_next, nodes_storage.at_.
      change (nodes_storage.i (trial_nodes s)) with idx.
      replace (idx + 1 <? 0) with false by (symmetry; apply Z.ltb_ge; lia).
      unfold node in *. rewrite Hslot. reflexivity. }
    rewrite (bind_eval _ _ _ _ _ Htake). rewrite bind_gets.
    change (nodes_storage.index (trial_nodes s1)) with (idx + 1).
    rewrite (bind_eval _ _ _ _ _
               (inserted_nodes_set_Some s1 (idx + 1) r0 (None, false) ltac:(lia) Hr0)).
    unfold reset. rewrite (assign_run _ _ _ na xa) by exact Hxa.
    rewrite bind_gets. change (root (tree _)) with (root (tree s)). rewrite Hroot.
    change (set_store (<[na := set_op o (set_key tau xa)]> _) _) with s3.
    rewrite (bind_eval _ _ _ _ _ Himpl). rewrite !bind_modify. reflexivity. }
  eexists. exists (ins_shape h3 tau na t). split; [exact Hrun|].
  rewrite Es4. cbn [root tree store tree_size set_tree_size set_root set_inserted_nodes
                    set_store]. rewrite Hkn.
  change (store s3) with h3.
  split; [symmetry; apply ins_shape_root; exact Ht3|].
  split.
  { apply (ins_shape_tree_at tau na t h3 xn);
      [exact Ht3|exact Hnd|exact Hna|exact Hxn3| |].
    - unfold xn. destruct xa; exact Hxl.
    - unfold xn. destruct xa; exact Hxr. }
  split.
  { eapply bst_keys; [intros b _; apply ins_store_key|].
    apply (bst_ins_shape h3 tau na xn t); auto. }
  split; [apply ins_shape_NoDup; auto|].
  split; [apply ins_shape_inorder; exact Ht3|].
  split; [|reflexivity].
  exists xn. rewrite ins_store_frame by exact Hna.
  split; [exact Hxn3|]. split; [exact Hkn|].
  unfold xn. destruct xa; simpl in *. auto.
Qed.

Lemma try_insert_keeps_order_witness :
  exists s' t',
    try_insert 10 25 (mk_op_desc 0 true 0) ex_state = Ok tt s'
    /\ root (tree s') = shape_root t'
    /\ tree_at (store s') t'
    /\ bst (store s') t'
    /\ NoDup (addrs t')
    /\ (exists pre post, addrs ex_shape = pre ++ post
                         /\ addrs t' = pre ++ 11%positive :: post)
    /\ (exists xn, store s' !! 11%positive = Some xn /\ key xn = 25
                   /\ op xn = mk_op_desc 0 true 0 /\ left xn = None /\ right xn = None)
    /\ tree_size s' = tree_size ex_state + 1.
Proof.
  refine (try_insert_keeps_order 10 25 (mk_op_desc 0 true 0) ex_state ex_shape 11%positive
            ex_pool_node (None, false) eq_refl (q_tree _ _ ex_state_quiescent)
            (q_nodup _ _ ex_state_quiescent) ex_state_bst _ _ _ eq_refl _ eq_refl eq_refl _
            eq_refl).
  - simpl. lia.
  - intros b y Hb Hy. simpl in Hb. set_unfold in Hb.
    destruct Hb as [->|[->|[->|[]]]]; vm_compute in Hy; injection Hy as <-; simpl; lia.
  - simpl. lia.
  - vm_compute. reflexivity.
  - simpl. set_solver.
Defined.

(** ** [try_replace] returns *)

Lemma copies_length t : forall t', (length (copies t t') <= length (addrs t))%nat.
Proof.
  induction t as [|l IHl a r IHr]; intros [|l' a' r']; simpl; try lia.
  rewrite !length_app. simpl. pose proof (IHl l'). pose proof (IHr r').
  destruct (decide (a' = a)); simpl; lia.
Qed.

Lemma try_replace_impl_returns old pool c cd t :
  forall fuel s,
    t <> Leaf -> tree_at (store s) t -> (forall b, b ∈ addrs t -> b ∈ old) ->
    pool_inv pool s ->
    fresh_pool old pool (nodes_storage.index (backup_nodes s)) (store s) ->
    (height t <= fuel)%nat ->
    (forall b x, b ∈ addrs t -> store s !! b = Some x -> is_Some (substitute c cd (op x))) ->
    nodes_storage.index (backup_nodes s) + Z.of_nat (length (addrs t))
      < Z.of_nat (length pool) ->
    exists r s', try_replace_impl fuel (shape_root t) c cd s = Ok r s'.
Proof.
  induction t as [|l IHl a r IHr]; intros fuel s Hne Ht Hold Hp Hfp Hfuel Hsubst Hlen;
    [congruence|].
  destruct fuel; [simpl in Hfuel; lia|]. simpl in Hfuel.
  pose proof Ht as ((x & Hx & Hxl & Hxr) & Hl & Hr).
  simpl shape_root. simpl try_replace_impl.
  set (i0 := nodes_storage.index (backup_nodes s)) in *.
  assert (Hi0 : -1 <= i0) by apply Hp.
  simpl in Hlen. rewrite length_app in Hlen. simpl in Hlen.
  (* left child *)
  rewrite (bind_eval _ _ _ _ _ (field_Some left s a x Hx)). rewrite Hxl.
  assert (Hrl : exists new_left s1,
            match shape_root l with
            | Some _ => try_replace_impl fuel (shape_root l) c cd
            | None => ret None
            end s = Ok new_left s1).
  { destruct l as [|ll la lr]; [simpl; unfold ret; eauto|].
    apply IHl; auto; try discriminate.
    - intros b Hb. apply Hold. simpl. set_solver.
    - lia.
    - intros b y Hb. apply Hsubst. simpl. set_solver.
    - fold i0. lia. }
  destruct Hrl as (new_left & s1 & Hrl). rewrite (bind_eval _ _ _ _ _ Hrl).
  destruct (try_replace_child old pool c cd fuel l
              (fun Hn s0 r1 s0' H1 H2 H3 H4 H5 =>
                 try_replace_impl_spec old pool c cd l fuel s0 r1 s0' Hn H1 H2 H3 H4 H5)
              s new_left s1)
    as (l' & Pl); auto.
  { intros b Hb. apply Hold. simpl. set_solver. }
  set (i1 := nodes_storage.index (backup_nodes s1)) in *.
  pose proof (rp_index _ _ _ _ _ _ _ _ _ Pl) as Hi01. fold i0 i1 in Hi01.
  pose proof (rp_count _ _ _ _ _ _ _ _ _ Pl) as C1. fold i0 i1 in C1.
  pose proof (copies_length l l') as L1.
  pose proof (fresh_pool_mono _ _ _ _ _ _ Hfp Hi01 (rp_frame _ _ _ _ _ _ _ _ _ Pl)) as Hfp1.
  assert (Hold_keep1 : forall b, b ∈ old -> store s1 !! b = store s !! b).
  { intros b Hb. apply (rp_frame _ _ _ _ _ _ _ _ _ Pl). intros Hu.
    destruct (used_fresh _ _ _ _ _ _ Hfp Hu). contradiction. }
  (* right child *)
  assert (Hx1 : store s1 !! a = Some x).
  { rewrite Hold_keep1; [exact Hx|]. apply Hold. simpl. set_solver. }
  rewrite (bind_eval _ _ _ _ _ (field_Some right s1 a x Hx1)). rewrite Hxr.
  assert (Hr1 : tree_at (store s1) r).
  { eapply tree_at_frame; [|exact Hr]. intros b Hb. apply Hold_keep1. apply Hold.
    simpl. set_solver. }
  assert (Hrr : exists new_right s2,
            match shape_root r with
            | Some _ => try_replace_impl fuel (shape_root r) c cd
            | None => ret None
            end s1 = Ok new_right s2).
  { destruct r as [|rl ra rr]; [simpl; unfold ret; eauto|].
    apply IHr; auto; try discriminate.
    - intros b Hb. apply Hold. simpl. set_solver.
    - apply (rp_pool _ _ _ _ _ _ _ _ _ Pl).
    - lia.
    - intros b y Hb Hy. rewrite Hold_keep1 in Hy by (apply Hold; simpl; set_solver).
      apply (Hsubst b y); [simpl; set_solver|exact Hy].
    - fold i1. lia. }
  destruct Hrr as (new_right & s2 & Hrr). rewrite (bind_eval _ _ _ _ _ Hrr).
  destruct (try_replace_child old pool c cd fuel r
              (fun Hn s0 r1 s0' H1 H2 H3 H4 H5 =>
                 try_replace_impl_spec old pool c cd r fuel s0 r1 s0' Hn H1 H2 H3 H4 H5)
              s1 new_right s2)
    as (r' & Pr); auto.
  { intros b Hb. apply Hold. simpl. set_solver. }
  { apply (rp_pool _ _ _ _ _ _ _ _ _ Pl). }
  set (i2 := nodes_storage.index (backup_nodes s2)) in *.
  pose proof (rp_index _ _ _ _ _ _ _ _ _ Pr) as Hi12. fold i1 i2 in Hi12.
  pose proof (rp_count _ _ _ _ _ _ _ _ _ Pr) as C2. fold i1 i2 in C2.
  pose proof (copies_length r r') as L2.
  pose proof (fresh_pool_mono _ _ _ _ _ _ Hfp1 Hi12 (rp_frame _ _ _ _ _ _ _ _ _ Pr)) as Hfp2.
  assert (Hx2 : store s2 !! a = Some x).
  { rewrite (rp_frame _ _ _ _ _ _ _ _ _ Pr); [exact Hx1|]. intros Hu.
    destruct (used_fresh _ _ _ _ _ _ Hfp1 Hu) as (Hn & _). apply Hn, Hold. simpl. set_solver. }
  (* the node itself *)
  rewrite (bind_eval _ _ _ _ _ (field_Some op s2 a x Hx2)).
  destruct (Hsubst a x ltac:(simpl; set_solver) Hx) as (o' & Ho').
  unfold substitute in Ho'.
  destruct (if linear_index (op x) <? 0 then None
            else (if dagger (op x) then cd else c) !! Z.to_nat (linear_index (op x)))
    as [new_op|] eqn:Hnew; [|discriminate].
  assert (Hvec : vector_at (if dagger (op x) then cd else c) (linear_index (op x)) s2
                 = Ok new_op s2).
  { unfold vector_at. rewrite Hnew. reflexivity. }
  rewrite (bind_eval _ _ _ _ _ Hvec).
  rewrite (bind_eval _ _ _ _ _ (field_Some left s2 a x Hx2)).
  rewrite (bind_eval _ _ _ _ _ (field_Some right s2 a x Hx2)).
  destruct (negb (linear_index new_op =? linear_index (op x))
            || negb (node_eqb new_left (left x))
            || negb (node_eqb new_right (right x))); [|unfold ret; eauto].
  rewrite (bind_eval _ _ _ _ _ (field_Some key s2 a x Hx2)).
  rewrite (bind_eval _ _ _ _ _ (field_Some color s2 a x Hx2)).
  rewrite (bind_eval _ _ _ _ _ (field_Some N s2 a x Hx2)).
  destruct (rp_pool _ _ _ _ _ _ _ _ _ Pr) as (Hi2 & Hpool2). fold i2 in Hi2, Hpool2.
  assert (Hm : exists m, pool !! Z.to_nat (i2 + 1) = Some m).
  { apply lookup_lt_is_Some. lia. }
  destruct Hm as (m & Hm).
  destruct Hfp2 as (Hf2 & _).
  destruct (Hf2 (Z.to_nat (i2 + 1)) m ltac:(lia) Hm) as (p & -> & Hpold & (xp & Hxp)).
  assert (Hswap : backup_call (nodes_storage.swap_next (Some a)) s2
                  = Ok (Some p)
                      (set_backup_nodes
                         (nodes_storage.mk (nodes_storage.n_blocks (backup_nodes s2))
                            (<[Z.to_nat (i2 + 1) := Some a]>
                               (nodes_storage.nodes (backup_nodes s2))) (i2 + 1)) s2)).
  { unfold backup_call, nodes_storage.swap_next, nodes_storage.at_.
    change (nodes_storage.i (backup_nodes s2)) with i2.
    replace (i2 + 1 <? 0) with false by (symmetry; apply Z.ltb_ge; lia).
    rewrite (Hpool2 (Z.to_nat (i2 + 1)) ltac:(lia)). unfold node in *. rewrite Hm.
    reflexivity. }
  rewrite (bind_eval _ _ _ _ _ Hswap).
  set (s3 := set_backup_nodes _ s2).
  unfold reset.
  assert (Hreset : exists y,
            (if negb (linear_index new_op =? linear_index (op x))
             then assign (Some p) (fun y => set_op new_op (set_key (key x) y))
             else assign (Some p) (fun y => set_op (op x) (set_key (key x) y))) s3
            = Ok tt (set_store (<[p := y]> (store s2)) s3)).
  { destruct (negb _); eexists;
      [exact (assign_Some (fun y => set_op new_op (set_key (key x) y)) s3 p xp Hxp)
      |exact (assign_Some (fun y => set_op (op x) (set_key (key x) y)) s3 p xp Hxp)]. }
  destruct Hreset as (y & Hreset).
  rewrite (bind_eval _ _ _ _ _ Hreset).
  rewrite (assign_run _ _ _ p _ (lookup_insert_eq _ _ _)).
  rewrite (assign_run _ _ _ p _ (lookup_insert_eq _ _ _)).
  rewrite (assign_run _ _ _ p _ (lookup_insert_eq _ _ _)).
  rewrite (assign_run _ _ _ p _ (lookup_insert_eq _ _ _)).
  rewrite (assign_run _ _ _ p _ (lookup_insert_eq _ _ _)).
  unfold ret. eauto.
Qed.

(** ** [cancel_replace_impl] *)

Lemma copies_leaf t : copies t Leaf = [].
Proof. destruct t; reflexivity. Qed.

Lemma set_backup_nodes_twice p1 p2 s :
  set_backup_nodes p2 (set_backup_nodes p1 s) = set_backup_nodes p2 s.
Proof. destruct s; reflexivity. Qed.

Lemma set_backup_nodes_id s i0 :
  nodes_storage.index (backup_nodes s) = i0 ->
  set_backup_nodes
    (nodes_storage.mk (nodes_storage.n_blocks (backup_nodes s))
       (nodes_storage.nodes (backup_nodes s)) i0) s = s.
Proof. intros <-. destruct s as [? ? ? ? ? ? ? ? ? ? ? ? ? ? ? [? ? ?]]. reflexivity. Qed.

(** The call on a child: a null child is skipped. *)
Lemma cancel_replace_child fuel c c' :
  (c' <> Leaf ->
   forall s i0,
     tree_at (store s) c' -> copy_marks (store s) c c' -> -1 <= i0 ->
     nodes_storage.index (backup_nodes s) = i0 + Z.of_nat (length (copies c c')) ->
     (forall k o cp, copies c c' !! k = Some (o, cp) ->
        nodes_storage.nodes (backup_nodes s) !! Z.to_nat (i0 + 1 + Z.of_nat k)
        = Some (Some o)) ->
     exists ns,
       cancel_replace_impl fuel (shape_root c') s
       = Ok (shape_root c)
           (set_backup_nodes
              (nodes_storage.mk (nodes_storage.n_blocks (backup_nodes s)) ns i0) s)
       /\ undone (copies c c') i0 (nodes_storage.nodes (backup_nodes s)) ns) ->
  forall s i0,
    tree_at (store s) c' -> copy_marks (store s) c c' -> -1 <= i0 ->
    nodes_storage.index (backup_nodes s) = i0 + Z.of_nat (length (copies c c')) ->
    (forall k o cp, copies c c' !! k = Some (o, cp) ->
       nodes_storage.nodes (backup_nodes s) !! Z.to_nat (i0 + 1 + Z.of_nat k)
       = Some (Some o)) ->
    exists ns,
      match shape_root c' with
      | Some _ => cancel_replace_impl fuel (shape_root c') ;;; ret tt
      | None => ret tt
      end s
      = Ok tt
          (set_backup_nodes
             (nodes_storage.mk (nodes_storage.n_blocks (backup_nodes s)) ns i0) s)
      /\ undone (copies c c') i0 (nodes_storage.nodes (backup_nodes s)) ns.
Proof.
  intros IH s i0 Ht Hm Hi0 Hidx Hslots.
  destruct c' as [|l' a' r'].
  - rewrite copies_leaf in *. simpl in Hidx.
    exists (nodes_storage.nodes (backup_nodes s)). split.
    + simpl. unfold ret. rewrite set_backup_nodes_id by lia. reflexivity.
    + split; [reflexivity|]. split; [intros k o cp H; discriminate|auto].
  - destruct (IH ltac:(discriminate) s i0 Ht Hm Hi0 Hidx Hslots) as (ns & Hrun & Hu).
    exists ns. split; [|exact Hu].
    change (shape_root (Br l' a' r')) with (Some a') in *. cbv beta iota.
    rewrite (bind_eval _ _ _ _ _ Hrun). reflexivity.
Qed.

Lemma cancel_replace_impl_run t :
  forall t' fuel s i0,
    t' <> Leaf -> tree_at (store s) t' -> copy_marks (store s) t t' ->
    (height t' <= fuel)%nat -> -1 <= i0 ->
    nodes_storage.index (backup_nodes s) = i0 + Z.of_nat (length (copies t t')) ->
    (forall k o cp, copies t t' !! k = Some (o, cp) ->
       nodes_storage.nodes (backup_nodes s) !! Z.to_nat (i0 + 1 + Z.of_nat k)
       = Some (Some o)) ->
    exists ns,
      cancel_replace_impl fuel (shape_root t') s
      = Ok (shape_root t)
          (set_backup_nodes
             (nodes_storage.mk (nodes_storage.n_blocks (backup_nodes s)) ns i0) s)
      /\ undone (copies t t') i0 (nodes_storage.nodes (backup_nodes s)) ns.
Proof.
  induction t as [|l IHl a r IHr]; intros [|l' a' r'] fuel s i0 Hne Ht Hm Hfuel Hi0 Hidx Hslots;
    try congruence; try (simpl in Hm; contradiction).
  destruct fuel; [simpl in Hfuel; lia|]. simpl in Hfuel.
  destruct Ht as ((x' & Hx' & Hxl & Hxr) & Htl & Htr).
  destruct Hm as ((x'' & Hx'' & Hmod) & Hml & Hmr).
  rewrite Hx' in Hx''. injection Hx'' as <-.
  set (nb := nodes_storage.n_blocks (backup_nodes s)) in *.
  set (ns0 := nodes_storage.nodes (backup_nodes s)) in *.
  set (cl := copies l l') in *. set (cr := copies r r') in *.
  simpl copies in Hidx, Hslots |- *. fold cl cr in Hidx, Hslots |- *.
  (* the tail of the call, after the node itself has been dealt with *)
  assert (Htail : forall (n' : node) ns1,
            length ns1 = length ns0 ->
            (forall j, Z.of_nat j <= i0 + Z.of_nat (length cl) + Z.of_nat (length cr) ->
                       ns1 !! j = ns0 !! j) ->
            exists ns,
              (r0 <- field right (Some a') ;;
               match r0 with
               | Some _ => cancel_replace_impl fuel r0 ;;; ret tt
               | None => ret tt
               end ;;;
               l0 <- field left (Some a') ;;
               match l0 with
               | Some _ => cancel_replace_impl fuel l0 ;;; ret tt
               | None => ret tt
               end ;;;
               ret n')
                (set_backup_nodes
                   (nodes_storage.mk nb ns1
                      (i0 + Z.of_nat (length cl) + Z.of_nat (length cr))) s)
              = Ok n' (set_backup_nodes (nodes_storage.mk nb ns i0) s)
              /\ length ns = length ns0
              /\ (forall k o cp, (cl ++ cr) !! k = Some (o, cp) ->
                    ns !! Z.to_nat (i0 + 1 + Z.of_nat k) = Some (Some cp))
              /\ (forall j, Z.of_nat j <= i0
                            \/ i0 + Z.of_nat (length cl) + Z.of_nat (length cr) < Z.of_nat j ->
                            ns !! j = ns1 !! j)).
  { intros n' ns1 Hlen1 Hlow1.
    set (s1 := set_backup_nodes _ s).
    assert (Hx1 : store s1 !! a' = Some x') by exact Hx'.
    rewrite (bind_eval _ _ _ _ _ (field_Some right s1 a' x' Hx1)). rewrite Hxr.
    destruct (cancel_replace_child fuel r r'
                (fun Hn s0 j0 H1 H2 H3 H4 H5 =>
                   IHr r' fuel s0 j0 Hn H1 H2 ltac:(lia) H3 H4 H5)
                s1 (i0 + Z.of_nat (length cl)) Htr Hmr ltac:(lia))
      as (ns2 & Hrun2 & Hlen2 & Hs2 & Hf2).
    { fold cr. unfold s1. simpl. lia. }
    { fold cr. intros k o cp Hk. unfold s1. simpl.
      pose proof (lookup_lt_Some _ _ _ Hk) as Hlt.
      rewrite Hlow1 by lia.
      replace (Z.to_nat (i0 + Z.of_nat (length cl) + 1 + Z.of_nat k))
        with (Z.to_nat (i0 + 1 + Z.of_nat (length cl + k))) by lia.
      apply (Hslots _ o cp).
      rewrite lookup_app_r by lia.
      replace (length cl + k - length cl)%nat with k by lia.
      apply lookup_app_l_Some. exact Hk. }
    fold cr in Hlen2, Hs2, Hf2.
    rewrite (bind_eval _ _ _ _ _ Hrun2).
    unfold s1 in *. cbn [backup_nodes set_backup_nodes nodes_storage.n_blocks
                         nodes_storage.nodes] in *.
    rewrite set_backup_nodes_twice in *.
    set (s2 := set_backup_nodes _ s).
    assert (Hx2 : store s2 !! a' = Some x') by exact Hx'.
    rewrite (bind_eval _ _ _ _ _ (field_Some left s2 a' x' Hx2)). rewrite Hxl.
    destruct (cancel_replace_child fuel l l'
                (fun Hn s0 j0 H1 H2 H3 H4 H5 =>
                   IHl l' fuel s0 j0 Hn H1 H2 ltac:(lia) H3 H4 H5)
                s2 i0 Htl Hml Hi0)
      as (ns3 & Hrun3 & Hlen3 & Hs3 & Hf3).
    { fold cl. unfold s2. simpl. lia. }
    { fold cl. intros k o cp Hk. unfold s2. simpl.
      pose proof (lookup_lt_Some _ _ _ Hk) as Hlt.
      rewrite Hf2 by lia. rewrite Hlow1 by lia.
      apply (Hslots _ o cp). apply lookup_app_l_Some. exact Hk. }
    fold cl in Hlen3, Hs3, Hf3.
    rewrite (bind_eval _ _ _ _ _ Hrun3).
    unfold s2 in *. cbn [backup_nodes set_backup_nodes nodes_storage.n_blocks
                         nodes_storage.nodes] in *.
    rewrite set_backup_nodes_twice.
    exists ns3. split; [reflexivity|]. split; [congruence|]. split.
    - intros k o cp Hk. apply lookup_app_Some in Hk as [Hk|[Hge Hk]].
      + apply (Hs3 k o cp Hk).
      + pose proof (lookup_lt_Some _ _ _ Hk) as Hlt.
        rewrite Hf3 by lia.
        replace (Z.to_nat (i0 + 1 + Z.of_nat k))
          with (Z.to_nat (i0 + Z.of_nat (length cl) + 1 + Z.of_nat (k - length cl))) by lia.
        apply (Hs2 _ o cp Hk).
    - intros j Hj. rewrite Hf3 by lia. apply Hf2. lia. }
  simpl shape_root. simpl cancel_replace_impl.
  rewrite (bind_eval _ _ _ _ _ (field_Some modified s a' x' Hx')). rewrite Hmod.
  destruct (decide (a' = a)) as [->|Hne'].
  - (* a node that was kept *)
    rewrite bool_decide_eq_true_2 by reflexivity. cbn [negb]. rewrite bind_ret.
    rewrite app_nil_r in Hidx, Hslots |- *. rewrite length_app in Hidx.
    destruct (Htail (Some a) ns0 eq_refl (fun j _ => eq_refl)) as (ns & Hrun & Hlen & Hs & Hf).
    exists ns. split.
    + pose proof (set_backup_nodes_id s
                    (i0 + Z.of_nat (length cl) + Z.of_nat (length cr)) ltac:(lia)) as Es.
      fold nb ns0 in Es. rewrite Es in Hrun. exact Hrun.
    + split; [exact Hlen|]. split; [exact Hs|].
      intros j Hj. rewrite length_app in Hj. apply Hf. lia.
  - (* a copy: the original takes its place again *)
    rewrite bool_decide_eq_false_2 by exact Hne'. cbn [negb].
    rewrite !length_app in Hidx. simpl length in Hidx.
    set (idx := i0 + Z.of_nat (length cl) + Z.of_nat (length cr) + 1).
    assert (Hlast : ns0 !! Z.to_nat idx = Some (Some a)).
    { replace (Z.to_nat idx) with (Z.to_nat (i0 + 1 + Z.of_nat (length cl + length cr)))
        by (unfold idx; lia).
      apply (Hslots _ a a').
      rewrite lookup_app_r by lia. rewrite lookup_app_r by lia.
      replace (length cl + length cr - length cl - length cr)%nat with 0%nat by lia.
      reflexivity. }
    assert (Hswap : backup_call (nodes_storage.swap_prev (Some a')) s
                    = Ok (Some a)
                        (set_backup_nodes
                           (nodes_storage.mk nb (<[Z.to_nat idx := Some a']> ns0) (idx - 1))
                           s)).
    { unfold backup_call, nodes_storage.swap_prev, nodes_storage.at_.
      assert (Hidx' : nodes_storage.i (backup_nodes s) = idx)
        by (unfold nodes_storage.index in Hidx; unfold idx; lia).
      rewrite Hidx'.
      replace (idx <? 0) with false by (symmetry; apply Z.ltb_ge; unfold idx; lia).
      fold ns0. unfold node in *. rewrite Hlast. reflexivity. }
    rewrite (bind_eval _ _ _ _ _ Hswap).
    replace (idx - 1) with (i0 + Z.of_nat (length cl) + Z.of_nat (length cr))
      by (unfold idx; lia).
    destruct (Htail (Some a) (<[Z.to_nat idx := Some a']> ns0))
      as (ns & Hrun & Hlen & Hs & Hf).
    { apply length_insert. }
    { intros j Hj. apply list_lookup_insert_ne. unfold idx. lia. }
    exists ns. split; [exact Hrun|].
    split; [exact Hlen|]. split.
    + intros k o cp Hk. rewrite app_assoc in Hk.
      apply lookup_app_Some in Hk as [Hk|[Hge Hk]]; [apply (Hs k o cp Hk)|].
      rewrite length_app in Hge.
      destruct (k - length (cl ++ cr))%nat eqn:E0; [|discriminate].
      simpl in Hk. injection Hk as <- <-. rewrite length_app in E0.
      replace (Z.to_nat (i0 + 1 + Z.of_nat k)) with (Z.to_nat idx) by (unfold idx; lia).
      rewrite Hf by (unfold idx; lia).
      apply list_lookup_insert_eq. eapply lookup_lt_Some. exact Hlast.
    + intros j Hj. rewrite !length_app in Hj. simpl length in Hj.
      rewrite Hf by lia. apply list_lookup_insert_ne. unfold idx. lia.
Qed.

(** ** [try_replace] and [cancel_replace] *)

Lemma try_replace_run fuel c cd s t a0 x0 :
  root (tree s) = shape_root t -> shape_root t = Some a0 -> store s !! a0 = Some x0 ->
  tree_at (store s) t -> alloc_ok s ->
  fresh_pool (addrs t) (nodes_storage.nodes (backup_nodes s)) (-1) (store s) ->
  tree_size s <> 0 -> nodes_storage.index (backup_nodes s) = -1 ->
  (height t <= fuel)%nat ->
  (forall b x, b ∈ addrs t -> store s !! b = Some x -> is_Some (substitute c cd (op x))) ->
  Z.of_nat (length (addrs t)) <= N x0 ->
  exists s1 news r s2 t',
    backup_reserve (N x0) s = Ok tt s1
    /\ nodes_storage.nodes (backup_nodes s1)
       = nodes_storage.nodes (backup_nodes s) ++ map Some news
    /\ (forall a, a ∈ news -> store s !! a = None)
    /\ (forall b, is_Some (store s !! b) -> store s1 !! b = store s !! b)
    /\ rest_reserve s1 = rest_reserve s
    /\ fresh_pool (addrs t) (nodes_storage.nodes (backup_nodes s1)) (-1) (store s1)
    /\ replace_post (addrs t) (nodes_storage.nodes (backup_nodes s1)) c cd t s1 r s2 t'
    /\ try_replace fuel c cd s = Ok tt (set_root r s2).
Proof.
  intros Hroot Ha0 Hx0 Ht Hok Hfp Hts Hidx Hfuel Hsubst HN.
  assert (Hne : t <> Leaf) by (intros ->; discriminate).
  destruct (backup_reserve_spec (N x0) s Hok)
    as (s1 & news & Hres & Hnodes & Hlen & Hnd & Hnew & Hkeep & Hrest & _).
  assert (Hroot1 : root (tree s1) = root (tree s)).
  { unfold rest_reserve in Hrest. injection Hrest as _ _ _ _ _ _ _ -> _ _ _ _ _ _ _.
    reflexivity. }
  assert (Hidx1 : nodes_storage.index (backup_nodes s1) = -1).
  { unfold rest_reserve in Hrest. injection Hrest as _ _ _ _ _ _ _ _ _ _ _ _ _ _ ->.
    exact Hidx. }
  assert (Hkeep_t : forall b, b ∈ addrs t -> store s1 !! b = store s !! b).
  { intros b Hb. apply Hkeep. eapply tree_at_lookup; eauto. }
  assert (Ht1 : tree_at (store s1) t) by (eapply tree_at_frame; eauto).
  assert (Hfp1 : fresh_pool (addrs t) (nodes_storage.nodes (backup_nodes s1))
                   (nodes_storage.index (backup_nodes s1)) (store s1)).
  { rewrite Hidx1, Hnodes. eapply fresh_pool_reserve; eauto.
    - intros b Hb. eapply tree_at_lookup; eauto.
    - intros a Ha. destruct (Hnew a Ha) as (Hn & Hs). split; [exact Hn|]. rewrite Hs. eauto. }
  assert (Hp1 : pool_inv (nodes_storage.nodes (backup_nodes s1)) s1).
  { split; [rewrite Hidx1; lia|reflexivity]. }
  destruct (try_replace_impl_returns (addrs t) (nodes_storage.nodes (backup_nodes s1)) c cd t
              fuel s1 Hne Ht1 (fun b Hb => Hb) Hp1 Hfp1 Hfuel) as (r & s2 & Himpl).
  { intros b x Hb Hx. rewrite Hkeep_t in Hx by exact Hb. eauto. }
  { rewrite Hidx1. lia. }
  destruct (try_replace_impl_spec (addrs t) (nodes_storage.nodes (backup_nodes s1)) c cd t
              fuel s1 r s2 Hne Ht1 (fun b Hb => Hb) Hp1 Hfp1 Himpl) as (t' & P).
  exists s1, news, r, s2, t'.
  split; [exact Hres|]. split; [exact Hnodes|]. split; [intros a Ha; apply (Hnew a Ha)|].
  split; [exact Hkeep|]. split; [exact Hrest|].
  split; [rewrite <- Hidx1; exact Hfp1|]. split; [exact P|].
  unfold try_replace, noexcept. rewrite bind_gets.
  replace (tree_size s =? 0) with false by (symmetry; apply Z.eqb_neq; exact Hts).
  rewrite bind_gets. unfold nodes_storage.is_index_reset.
  unfold nodes_storage.index in Hidx. rewrite Hidx. rewrite Z.eqb_refl. cbn [negb].
  assert (Hsz : tree_size_query s = Ok (N x0) s).
  { unfold tree_size_query. rewrite bind_gets, Hroot, Ha0. apply field_Some. exact Hx0. }
  rewrite (bind_eval _ _ _ _ _ Hsz). rewrite (bind_eval _ _ _ _ _ Hres).
  rewrite bind_gets. rewrite Hroot1, Hroot.
  rewrite (bind_eval _ _ _ _ _ Himpl). reflexivity.
Qed.

(** X6.  [try_replace] relabels the tree.  With the index of the backup
    pool reset, a backup pool of distinct allocated nodes that are not nodes
    of the tree, tables that have an entry at the linear index of every
    operator in the tree, and a tree whose root counts at least as many
    nodes as it has, [try_replace] returns, and the tree at the root is then
    the tree before the call with its operators substituted: the same
    shape, node by node the same key, colour and subtree count, and as
    operator the table entry where that has another linear index, the old
    operator where it has the same one.  A node of the new tree is the old
    node at its place, or a node taken from the pool and marked modified.
    No node object of the tree before the call is written to, and
    [tree_size] is unchanged. *)
Theorem try_replace_relabels fuel c cd s t a0 x0 :
  root (tree s) = shape_root t -> shape_root t = Some a0 -> store s !! a0 = Some x0 ->
  tree_at (store s) t -> alloc_ok s ->
  fresh_pool (addrs t) (nodes_storage.nodes (backup_nodes s)) (-1) (store s) ->
  tree_size s <> 0 -> nodes_storage.index (backup_nodes s) = -1 ->
  (height t <= fuel)%nat ->
  (forall b x, b ∈ addrs t -> store s !! b = Some x -> is_Some (substitute c cd (op x))) ->
  Z.of_nat (length (addrs t)) <= N x0 ->
  exists s' t',
    try_replace fuel c cd s = Ok tt s'
    /\ root (tree s') = shape_root t'
    /\ tree_at (store s') t'
    /\ relabelled (addrs t) c cd (store s) (store s') t t'
    /\ (forall b, b ∈ addrs t -> store s' !! b = store s !! b)
    /\ tree_size s' = tree_size s.
Proof.
  intros Hroot Ha0 Hx0 Ht Hok Hfp Hts Hidx Hfuel Hsubst HN.
  destruct (try_replace_run fuel c cd s t a0 x0 Hroot Ha0 Hx0 Ht Hok Hfp Hts Hidx Hfuel Hsubst HN)
    as (s1 & news & r & s2 & t' & _ & _ & _ & Hkeep & Hrest & Hfp1 & P & Hrun).
  assert (Hkeep_t : forall b, b ∈ addrs t -> store s1 !! b = store s !! b).
  { intros b Hb. apply Hkeep. eapply tree_at_lookup; eauto. }
  assert (Hidx1 : nodes_storage.index (backup_nodes s1) = -1).
  { unfold rest_reserve in Hrest. injection Hrest as _ _ _ _ _ _ _ _ _ _ _ _ _ _ ->.
    exact Hidx. }
  exists (set_root r s2), t'. split; [exact Hrun|].
  cbn [root tree store tree_size set_root].
  split; [apply (rp_root _ _ _ _ _ _ _ _ _ P)|].
  split; [apply (rp_tree _ _ _ _ _ _ _ _ _ P)|].
  split; [|split].
  - eapply relabelled_frame; [| |apply (rp_rel _ _ _ _ _ _ _ _ _ P)].
    + intros b Hb. symmetry. apply Hkeep_t. exact Hb.
    + intros b Hb. reflexivity.
  - intros b Hb. rewrite <- Hkeep_t by exact Hb.
    apply (rp_frame _ _ _ _ _ _ _ _ _ P). intros Hu. rewrite Hidx1 in Hu.
    destruct (used_fresh _ _ _ _ _ _ Hfp1 Hu). contradiction.
  - pose proof (rp_rest _ _ _ _ _ _ _ _ _ P) as R. unfold rest_replace in R.
    injection R as _ _ _ _ _ _ _ _ _ -> _ _ _ _ _.
    unfold rest_reserve in Hrest. injection Hrest as _ _ _ _ _ _ _ _ -> _ _ _ _ _ _.
    reflexivity.
Qed.

Lemma relabelled_height old c cd (h h' : gmap addr node_t) t :
  forall t', relabelled old c cd h h' t t' -> height t' = height t.
Proof.
  induction t as [|l IHl a r IHr]; intros [|l' a' r']; simpl; try tauto.
  intros (_ & Hl & Hr). rewrite (IHl l' Hl), (IHr r' Hr). reflexivity.
Qed.

Lemma relabelled_copy_marks old c cd (h h' : gmap addr node_t) t :
  forall t',
    relabelled old c cd h h' t t' ->
    (forall b, b ∈ addrs t -> b ∈ old) ->
    (forall b x, b ∈ addrs t -> h' !! b = Some x -> modified x = false) ->
    copy_marks h' t t'.
Proof.
  induction t as [|l IHl a r IHr]; intros [|l' a' r']; simpl; try tauto.
  intros ((x & x' & Hx & Hx' & _ & _ & _ & _ & Hcase) & Hl & Hr) Hold Hclean.
  split; [|split].
  - exists x'. split; [exact Hx'|]. destruct Hcase as [->|(Hn & Hm)].
    + rewrite bool_decide_eq_true_2 by reflexivity. simpl.
      apply (Hclean a x'); [set_solver|exact Hx'].
    + rewrite bool_decide_eq_false_2; [exact Hm|].
      intros ->. apply Hn, Hold. set_solver.
  - apply IHl; auto.
    + intros b Hb. apply Hold. set_solver.
    + intros b y Hb. apply Hclean. set_solver.
  - apply IHr; auto.
    + intros b Hb. apply Hold. set_solver.
    + intros b y Hb. apply Hclean. set_solver.
Qed.

(** X7.  [cancel_replace] undoes [try_replace].  Under the conditions of
    X6, in a tree none of whose nodes is marked modified, [try_replace]
    returns and the [cancel_replace] that follows returns too; the root is
    then the root before [try_replace] and the node objects of that tree are
    as they were, so the tree before the replacement hangs at the root
    again; [cancel_replace] writes to no node object; the backup pool holds
    again at their places the nodes it held before [try_replace], followed
    by the nodes [reserve] has allocated, and its index is reset;
    [tree_size] is unchanged. *)
Theorem cancel_replace_restores fuel c cd s t a0 x0 :
  root (tree s) = shape_root t -> shape_root t = Some a0 -> store s !! a0 = Some x0 ->
  tree_at (store s) t -> alloc_ok s ->
  fresh_pool (addrs t) (nodes_storage.nodes (backup_nodes s)) (-1) (store s) ->
  tree_size s <> 0 -> nodes_storage.index (backup_nodes s) = -1 ->
  (height t <= fuel)%nat ->
  (forall b x, b ∈ addrs t -> store s !! b = Some x -> is_Some (substitute c cd (op x))) ->
  Z.of_nat (length (addrs t)) <= N x0 ->
  (forall b x, b ∈ addrs t -> store s !! b = Some x -> modified x = false) ->
  exists s' s'' news,
    try_replace fuel c cd s = Ok tt s'
    /\ cancel_replace fuel s' = Ok tt s''
    /\ root (tree s'') = root (tree s)
    /\ store s'' = store s'
    /\ (forall b, b ∈ addrs t -> store s'' !! b = store s !! b)
    /\ backup_nodes s''
       = nodes_storage.mk (nodes_storage.n_blocks (backup_nodes s))
           (nodes_storage.nodes (backup_nodes s) ++ map Some news) (-1)
    /\ (forall a, a ∈ news -> store s !! a = None)
    /\ tree_size s'' = tree_size s.
Proof.
  intros Hroot Ha0 Hx0 Ht Hok Hfp Hts Hidx Hfuel Hsubst HN Hclean.
  destruct (try_replace_run fuel c cd s t a0 x0 Hroot Ha0 Hx0 Ht Hok Hfp Hts Hidx Hfuel Hsubst HN)
    as (s1 & news & r & s2 & t' & _ & Hnodes & Hnew & Hkeep & Hrest & Hfp1 & P & Hrun).
  assert (Hkeep_t : forall b, b ∈ addrs t -> store s1 !! b = store s !! b).
  { intros b Hb. apply Hkeep. eapply tree_at_lookup; eauto. }
  unfold rest_reserve in Hrest.
  injection Hrest as _ _ _ _ _ _ _ Htree1 Hts1 _ _ _ _ Hnb1 Hidx1.
  rewrite Hidx in Hidx1.
  pose proof (rp_rest _ _ _ _ _ _ _ _ _ P) as R. unfold rest_replace in R.
  injection R as _ _ _ _ _ _ _ _ _ Hts2 _ _ _ _ Hnb2.
  assert (Hkeep2 : forall b, b ∈ addrs t -> store s2 !! b = store s !! b).
  { intros b Hb. rewrite <- Hkeep_t by exact Hb.
    apply (rp_frame _ _ _ _ _ _ _ _ _ P). intros Hu. rewrite Hidx1 in Hu.
    destruct (used_fresh _ _ _ _ _ _ Hfp1 Hu). contradiction. }
  assert (Hpool1 : backup_nodes s1
                   = nodes_storage.mk (nodes_storage.n_blocks (backup_nodes s))
                       (nodes_storage.nodes (backup_nodes s) ++ map Some news) (-1)).
  { destruct (backup_nodes s1) as [nb1 ns1 i1]. simpl in *. subst. reflexivity. }
  exists (set_root r s2).
  assert (Hcancel : exists s'',
            cancel_replace fuel (set_root r s2) = Ok tt s''
            /\ root (tree s'') = shape_root t /\ store s'' = store s2
            /\ backup_nodes s'' = backup_nodes s1 /\ tree_size s'' = tree_size s2).
  { unfold cancel_replace. rewrite !bind_gets.
    cbn [tree_size backup_nodes set_root]. rewrite Hts2, Hts1.
    replace (tree_size s =? 0) with false by (symmetry; apply Z.eqb_neq; exact Hts).
    cbn [orb]. unfold nodes_storage.is_index_reset.
    destruct (decide (r = shape_root t)) as [Er|Er].
    - assert (s2 = s1) by (apply (rp_same _ _ _ _ _ _ _ _ _ P Er)). subst s2.
      unfold nodes_storage.index in Hidx1. rewrite Hidx1. rewrite Z.eqb_refl.
      eexists. split; [reflexivity|]. cbn [root tree store backup_nodes tree_size set_root].
      repeat split; auto.
    - pose proof (rp_moved _ _ _ _ _ _ _ _ _ P Er) as Hmv. rewrite Hidx1 in Hmv.
      unfold nodes_storage.index in Hmv.
      replace (nodes_storage.i (backup_nodes s2) =? -1) with false
        by (symmetry; apply Z.eqb_neq; lia).
      rewrite bind_gets. cbn [root tree set_root].
      pose proof (rp_root _ _ _ _ _ _ _ _ _ P) as Er'. subst r.
      pose proof (rp_rel _ _ _ _ _ _ _ _ _ P) as Hrel.
      assert (Hne' : t' <> Leaf).
      { intros ->. destruct t; [discriminate|]. simpl in Hrel. contradiction. }
      destruct (cancel_replace_impl_run t t' fuel (set_root (shape_root t') s2) (-1) Hne')
        as (ns & Hc & Hu).
      { apply (rp_tree _ _ _ _ _ _ _ _ _ P). }
      { eapply relabelled_copy_marks; [exact Hrel|auto|].
        intros b x Hb Hx. cbn [store set_root] in Hx. rewrite Hkeep2 in Hx by exact Hb. eauto. }
      { rewrite (relabelled_height _ _ _ _ _ _ _ Hrel). exact Hfuel. }
      { lia. }
      { cbn [backup_nodes set_root]. rewrite (rp_count _ _ _ _ _ _ _ _ _ P), Hidx1.
        reflexivity. }
      { intros k o cp Hk. cbn [backup_nodes set_root].
        destruct (rp_slots _ _ _ _ _ _ _ _ _ P k o cp Hk) as (Hn & _).
        rewrite Hidx1 in Hn. exact Hn. }
      rewrite (bind_eval _ _ _ _ _ Hc). rewrite bind_modify.
      eexists. split; [reflexivity|].
      cbn [root tree store backup_nodes tree_size set_root set_backup_nodes].
      split; [reflexivity|]. split; [reflexivity|]. split; [|congruence].
      destruct Hu as (Hlen & Hslots & Hframe).
      destruct (backup_nodes s1) as [nb1 ns1 i1] eqn:Eb1. simpl in Hnb2, Hidx1. subst i1.
      rewrite Hnb2. f_equal.
      apply list_eq. intros j.
      destruct (decide (j < length (copies t t'))%nat) as [Hj|Hj].
      + destruct (lookup_lt_is_Some_2 _ _ Hj) as ((o & cp) & Hk).
        destruct (rp_slots _ _ _ _ _ _ _ _ _ P j o cp Hk) as (_ & Hp).
        rewrite Eb1 in Hp. simpl in Hp.
        pose proof (Hslots j o cp Hk) as Hq.
        replace (Z.to_nat (-1 + 1 + Z.of_nat j)) with j in Hp, Hq by lia.
        unfold node in *. congruence.
      + rewrite Hframe by lia. cbn [backup_nodes set_root].
        destruct (rp_pool _ _ _ _ _ _ _ _ _ P) as (_ & Hpl).
        rewrite ?Eb1 in Hpl. simpl in Hpl. apply Hpl.
        rewrite (rp_count _ _ _ _ _ _ _ _ _ P). rewrite ?Eb1. simpl. lia. }
  destruct Hcancel as (s'' & Hc & Hr'' & Hst'' & Hb'' & Hts'').
  exists s'', news. split; [exact Hrun|]. split; [exact Hc|].
  split; [rewrite Hr''; symmetry; exact Hroot|].
  split; [exact Hst''|].
  split; [intros b Hb; rewrite Hst''; apply Hkeep2; exact Hb|].
  split; [rewrite Hb''; exact Hpool1|].
  split; [exact Hnew|]. congruence.
Qed.

(** X15.  [try_replace] copies a node only where it has to.  Under the
    conditions in which it returns (the index of the backup pool reset, a
    backup pool of distinct allocated nodes that are not nodes of the tree,
    tables with an entry at the linear index of every operator, a root that
    counts at least as many nodes as the tree has), a node of the tree after
    the call is the very node object that stood at its place before the call
    if and only if the tables change the linear index of no operator at that
    node or below it; every other node is a copy.  So the root pointer is
    unchanged exactly when no operator of the whole tree changes, and a
    sub-tree without a changed operator is shared between the tree kept for
    [cancel_replace] and the new one. *)
Theorem try_replace_shares_unchanged_subtrees fuel c cd s t a0 x0 :
  root (tree s) = shape_root t -> shape_root t = Some a0 -> store s !! a0 = Some x0 ->
  tree_at (store s) t -> alloc_ok s ->
  fresh_pool (addrs t) (nodes_storage.nodes (backup_nodes s)) (-1) (store s) ->
  tree_size s <> 0 -> nodes_storage.index (backup_nodes s) = -1 ->
  (height t <= fuel)%nat ->
  (forall b x, b ∈ addrs t -> store s !! b = Some x -> is_Some (substitute c cd (op x))) ->
  Z.of_nat (length (addrs t)) <= N x0 ->
  exists s' t',
    try_replace fuel c cd s = Ok tt s'
    /\ root (tree s') = shape_root t'
    /\ tree_at (store s') t'
    /\ shares c cd (store s) t t'
    /\ (root (tree s') = root (tree s)
        <-> forall b, b ∈ addrs t -> unchanged c cd (store s) b).
Proof.
  intros Hroot Ha0 Hx0 Ht Hok Hfp Hts Hidx Hfuel Hsubst HN.
  destruct (try_replace_run fuel c cd s t a0 x0 Hroot Ha0 Hx0 Ht Hok Hfp Hts Hidx Hfuel Hsubst HN)
    as (s1 & news & r & s2 & t' & _ & _ & _ & Hkeep & _ & _ & P & Hrun).
  assert (Hkeep_t : forall b, b ∈ addrs t -> store s1 !! b = store s !! b).
  { intros b Hb. apply Hkeep. eapply tree_at_lookup; eauto. }
  assert (Hsh : shares c cd (store s) t t').
  { eapply shares_frame; [|apply (rp_shares _ _ _ _ _ _ _ _ _ P)].
    intros b Hb. symmetry. apply Hkeep_t. exact Hb. }
  exists (set_root r s2), t'. split; [exact Hrun|].
  cbn [root tree store set_root].
  pose proof (rp_root _ _ _ _ _ _ _ _ _ P) as Hr.
  split; [exact Hr|]. split; [apply (rp_tree _ _ _ _ _ _ _ _ _ P)|]. split; [exact Hsh|].
  rewrite Hroot, Hr.
  destruct t as [|l a r1], t' as [|l' a' r']; simpl in Hsh; try contradiction;
    [discriminate|].
  destruct Hsh as (Hiff & _). simpl shape_root. rewrite <- Hiff.
  split; [intros [= ->]; reflexivity|intros ->; reflexivity].
Qed.

(** X17.  [try_replace] keeps every node it replaces.  Under the conditions
    of X6 the call returns, and the backup pool then holds, from its first
    place on, the nodes of the tree that were replaced, in the order in which
    [try_replace_impl] has replaced them (left sub-tree, right sub-tree, the
    node itself), each at the place of the pool from which its copy was
    taken; the index of the pool is the place of the last of them, the places
    beyond hold the unused nodes they held after [reserve], and the vector
    has the length [reserve] gave it.  So a node is never dropped: each one
    is in the tree at the root or in the pool. *)
Theorem try_replace_backs_up_originals fuel c cd s t a0 x0 :
  root (tree s) = shape_root t -> shape_root t = Some a0 -> store s !! a0 = Some x0 ->
  tree_at (store s) t -> alloc_ok s ->
  fresh_pool (addrs t) (nodes_storage.nodes (backup_nodes s)) (-1) (store s) ->
  tree_size s <> 0 -> nodes_storage.index (backup_nodes s) = -1 ->
  (height t <= fuel)%nat ->
  (forall b x, b ∈ addrs t -> store s !! b = Some x -> is_Some (substitute c cd (op x))) ->
  Z.of_nat (length (addrs t)) <= N x0 ->
  exists s' t' news,
    try_replace fuel c cd s = Ok tt s'
    /\ root (tree s') = shape_root t'
    /\ tree_at (store s') t'
    /\ nodes_storage.index (backup_nodes s') = Z.of_nat (length (copies t t')) - 1
    /\ length (nodes_storage.nodes (backup_nodes s'))
       = length (nodes_storage.nodes (backup_nodes s) ++ map Some news)
    /\ (forall k o cp, copies t t' !! k = Some (o, cp) ->
          nodes_storage.nodes (backup_nodes s') !! k = Some (Some o)
          /\ (nodes_storage.nodes (backup_nodes s) ++ map Some news) !! k = Some (Some cp))
    /\ (forall j, (length (copies t t') <= j)%nat ->
          nodes_storage.nodes (backup_nodes s') !! j
          = (nodes_storage.nodes (backup_nodes s) ++ map Some news) !! j).
Proof.
  intros Hroot Ha0 Hx0 Ht Hok Hfp Hts Hidx Hfuel Hsubst HN.
  destruct (try_replace_run fuel c cd s t a0 x0 Hroot Ha0 Hx0 Ht Hok Hfp Hts Hidx Hfuel Hsubst HN)
    as (s1 & news & r & s2 & t' & _ & Hnodes & _ & _ & Hrest & _ & P & Hrun).
  assert (Hidx1 : nodes_storage.index (backup_nodes s1) = -1).
  { unfold rest_reserve in Hrest. injection Hrest as _ _ _ _ _ _ _ _ _ _ _ _ _ _ ->.
    exact Hidx. }
  pose proof (rp_count _ _ _ _ _ _ _ _ _ P) as Hcount. rewrite Hidx1 in Hcount.
  exists (set_root r s2), t', news. split; [exact Hrun|].
  cbn [root tree store backup_nodes set_root]. rewrite <- Hnodes.
  split; [apply (rp_root _ _ _ _ _ _ _ _ _ P)|].
  split; [apply (rp_tree _ _ _ _ _ _ _ _ _ P)|].
  split; [lia|].
  split; [apply (rp_len _ _ _ _ _ _ _ _ _ P)|].
  split.
  - intros k o cp Hk.
    destruct (rp_slots _ _ _ _ _ _ _ _ _ P k o cp Hk) as (H1 & H2).
    rewrite Hidx1 in H1, H2.
    replace (Z.to_nat (-1 + 1 + Z.of_nat k)) with k in H1, H2 by lia. auto.
  - intros j Hj. destruct (rp_pool _ _ _ _ _ _ _ _ _ P) as (_ & Hpool).
    apply Hpool. lia.
Qed.

Lemma ex_state_fresh_pool :
  fresh_pool (addrs ex_shape) (nodes_storage.nodes (backup_nodes ex_state)) (-1)
    (store ex_state).
Proof.
  split.
  - intros j n _ Hn. destruct j as [|j]; [|destruct j; discriminate].
    injection Hn as <-. exists 21%positive. split; [reflexivity|].
    split; [simpl; set_solver|]. vm_compute. eauto.
  - intros j1 j2 n _ _ H1 H2.
    destruct j1 as [|j1]; [|destruct j1; discriminate].
    destruct j2 as [|j2]; [reflexivity|destruct j2; discriminate].
Qed.

Lemma ex_state_substitute b x :
  b ∈ addrs ex_shape -> store ex_state !! b = Some x ->
  is_Some (substitute ex_subst_c ex_subst_c_dag (op x)).
Proof.
  intros Hb Hx. simpl in Hb. set_unfold in Hb.
  destruct Hb as [->|[->|[->|[]]]]; vm_compute in Hx; injection Hx as <-; vm_compute; eauto.
Qed.

Lemma try_replace_relabels_witness :
  exists s' t',
    try_replace 10 ex_subst_c ex_subst_c_dag ex_state = Ok tt s'
    /\ root (tree s') = shape_root t'
    /\ tree_at (store s') t'
    /\ relabelled (addrs ex_shape) ex_subst_c ex_subst_c_dag (store ex_state) (store s')
         ex_shape t'
    /\ (forall b, b ∈ addrs ex_shape -> store s' !! b = store ex_state !! b)
    /\ tree_size s' = tree_size ex_state.
Proof.
  refine (try_replace_relabels 10 ex_subst_c ex_subst_c_dag ex_state ex_shape 1%positive
            (ex_node 20 (mk_op_desc 0 true 0) (Some 2%positive) (Some 3%positive) 3)
            eq_refl eq_refl _ (q_tree _ _ ex_state_quiescent) ex_state_alloc_ok
            ex_state_fresh_pool _ eq_refl _ ex_state_substitute _).
  - vm_compute. reflexivity.
  - simpl. lia.
  - simpl. lia.
  - simpl. lia.
Defined.

Lemma try_replace_shares_unchanged_subtrees_witness :
  exists s' t',
    try_replace 10 ex_subst_c ex_subst_c_dag ex_state = Ok tt s'
    /\ root (tree s') = shape_root t'
    /\ tree_at (store s') t'
    /\ shares ex_subst_c ex_subst_c_dag (store ex_state) ex_shape t'
    /\ (root (tree s') = root (tree ex_state)
        <-> forall b, b ∈ addrs ex_shape
              -> unchanged ex_subst_c ex_subst_c_dag (store ex_state) b).
Proof.
  refine (try_replace_shares_unchanged_subtrees 10 ex_subst_c ex_subst_c_dag ex_state
            ex_shape 1%positive
            (ex_node 20 (mk_op_desc 0 true 0) (Some 2%positive) (Some 3%positive) 3)
            eq_refl eq_refl _ (q_tree _ _ ex_state_quiescent) ex_state_alloc_ok
            ex_state_fresh_pool _ eq_refl _ ex_state_substitute _).
  - vm_compute. reflexivity.
  - simpl. lia.
  - simpl. lia.
  - simpl. lia.
Defined.

Lemma try_replace_backs_up_originals_witness :
  exists s' t' news,
    try_replace 10 ex_subst_c ex_subst_c_dag ex_state = Ok tt s'
    /\ root (tree s') = shape_root t'
    /\ tree_at (store s') t'
    /\ nodes_storage.index (backup_nodes s') = Z.of_nat (length (copies ex_shape t')) - 1
    /\ length (nodes_storage.nodes (backup_nodes s'))
       = length (nodes_storage.nodes (backup_nodes ex_state) ++ map Some news)
    /\ (forall k o cp, copies ex_shape t' !! k = Some (o, cp) ->
          nodes_storage.nodes (backup_nodes s') !! k = Some (Some o)
          /\ (nodes_storage.nodes (backup_nodes ex_state) ++ map Some news) !! k
             = Some (Some cp))
    /\ (forall j, (length (copies ex_shape t') <= j)%nat ->
          nodes_storage.nodes (backup_nodes s') !! j
          = (nodes_storage.nodes (backup_nodes ex_state) ++ map Some news) !! j).
Proof.
  refine (try_replace_backs_up_originals 10 ex_subst_c ex_subst_c_dag ex_state
            ex_shape 1%positive
            (ex_node 20 (mk_op_desc 0 true 0) (Some 2%positive) (Some 3%positive) 3)
            eq_refl eq_refl _ (q_tree _ _ ex_state_quiescent) ex_state_alloc_ok
            ex_state_fresh_pool _ eq_refl _ ex_state_substitute _).
  - vm_compute. reflexivity.
  - simpl. lia.
  - simpl. lia.
  - simpl. lia.
Defined.

Lemma cancel_replace_restores_witness :
  exists s' s'' news,
    try_replace 10 ex_subst_c ex_subst_c_dag ex_state = Ok tt s'
    /\ cancel_replace 10 s' = Ok tt s''
    /\ root (tree s'') = root (tree ex_state)
    /\ store s'' = store s'
    /\ (forall b, b ∈ addrs ex_shape -> store s'' !! b = store ex_state !! b)
    /\ backup_nodes s''
       = nodes_storage.mk (nodes_storage.n_blocks (backup_nodes ex_state))
           (nodes_storage.nodes (backup_nodes ex_state) ++ map Some news) (-1)
    /\ (forall a, a ∈ news -> store ex_state !! a = None)
    /\ tree_size s'' = tree_size ex_state.
Proof.
  refine (cancel_replace_restores 10 ex_subst_c ex_subst_c_dag ex_state ex_shape 1%positive
            (ex_node 20 (mk_op_desc 0 true 0) (Some 2%positive) (Some 3%positive) 3)
            eq_refl eq_refl _ (q_tree _ _ ex_state_quiescent) ex_state_alloc_ok
            ex_state_fresh_pool _ eq_refl _ ex_state_substitute _
            (q_clean _ _ ex_state_quiescent)).
  - vm_compute. reflexivity.
  - simpl. lia.
  - simpl. lia.
  - simpl. lia.
Defined.

Example ex_try_replace_copies :
  exists s', try_replace 10 ex_subst_c ex_subst_c_dag ex_state = Ok tt s'
    /\ root (tree s') = Some 100%positive
    /\ nodes_storage.index (backup_nodes s') = 1
    /\ nodes_storage.nodes (backup_nodes s')
       = [Some 2%positive; Some 1%positive; Some 101%positive]
    /\ (op <$> store s' !! 21%positive) = Some (mk_op_desc 0 false 1)
    /\ (left <$> store s' !! 100%positive) = Some (Some 21%positive)
    /\ (right <$> store s' !! 100%positive) = Some (Some 3%positive).
Proof. eexists. split; [vm_compute; reflexivity|]. repeat split; vm_compute; reflexivity. Qed.

(** ** The same trial deletion twice *)

Lemma scan_ext {C} (g g' : addr -> C -> bool * C) l :
  (forall a c, a ∈ l -> g a c = g' a c) -> forall c, scan g l c = scan g' l c.
Proof.
  induction l as [|a l IH]; intros Hg c; [reflexivity|].
  rewrite !scan_cons. rewrite <- (Hg a c) by set_solver.
  destruct (fst (g a c)); [reflexivity|]. apply IH. intros b c' Hb. apply Hg. set_solver.
Qed.

Lemma delete_post_tree (s : impurity_trace) t x xn :
  tree_at (store s) t -> NoDup (addrs t) -> bst (store s) t -> x ∈ addrs t ->
  store s !! x = Some xn ->
  tree_at (delete_store t x (store s)) t
  /\ bst (delete_store t x (store s)) t
  /\ (forall b, op <$> (delete_store t x (store s) !! b) = op <$> (store s !! b))
  /\ (forall b, key <$> (delete_store t x (store s) !! b) = key <$> (store s !! b)).
Proof.
  intros Ht Hnd Hbst Hin Hx.
  pose proof (fun b => delete_store_lookup (store s) t x xn b Ht Hnd Hbst Hin Hx) as Hlk.
  assert (Hop : forall b, op <$> (delete_store t x (store s) !! b) = op <$> (store s !! b)).
  { intros b. rewrite Hlk. destruct (decide (b = x)) as [->|_].
    - rewrite Hx. destruct xn; reflexivity.
    - destruct (decide (b ∈ path_to t x)); [|reflexivity].
      destruct (store s !! b) as [y|]; [destruct y|]; reflexivity. }
  assert (Hkey : forall b, key <$> (delete_store t x (store s) !! b) = key <$> (store s !! b)).
  { intros b. rewrite Hlk. destruct (decide (b = x)) as [->|_].
    - rewrite Hx. destruct xn; reflexivity.
    - destruct (decide (b ∈ path_to t x)); [|reflexivity].
      destruct (store s !! b) as [y|]; [destruct y|]; reflexivity. }
  split; [|split; [|split; [exact Hop|exact Hkey]]].
  - eapply tree_at_links; [|exact Ht]. intros b Hb y Hy. rewrite Hlk.
    destruct (decide (b = x)) as [->|_].
    + rewrite Hx in Hy. injection Hy as <-. eexists. split; [reflexivity|]. destruct xn; auto.
    + destruct (decide (b ∈ path_to t x)); rewrite Hy; simpl; eexists;
        (split; [reflexivity|]); destruct y; auto.
  - eapply bst_keys; [|exact Hbst]. intros b _. apply Hkey.
Qed.

(** X8.  [try_delete] does not skip a node that is already flagged for
    deletion: its predicate looks at the operator only.  In a search tree,
    when [try_delete(n, block_index, dagger)] returns the key [k], the same
    call made again returns [k] again; the node found is then recorded
    twice in [removed_nodes] and its key twice in [removed_keys], and
    [tree_size] has gone down by two. *)
Theorem try_delete_twice fuel n block_idx dag s t k s1 :
  root (tree s) = shape_root t -> tree_at (store s) t -> NoDup (addrs t) ->
  bst (store s) t -> (height t < fuel)%nat ->
  try_delete fuel n block_idx dag s = Ok k s1 ->
  exists x s2,
    x ∈ addrs t
    /\ try_delete fuel n block_idx dag s1 = Ok k s2
    /\ removed_nodes s2 = removed_nodes s ++ [Some x; Some x]
    /\ removed_keys s2 = removed_keys s ++ [k; k]
    /\ tree_size s2 = tree_size s - 2.
Proof.
  intros Hroot Ht Hnd Hbst Hfuel Hrun.
  destruct (fst (scan (delete_step (store s) n block_idx dag) (addrs t) 0)) as [x|] eqn:Hscan.
  - assert (Hin : x ∈ addrs t) by (eapply scan_in; eauto).
    destruct (tree_at_lookup _ _ _ Ht Hin) as (xn & Hx).
    rewrite (try_delete_scan_run fuel n block_idx dag s t x xn Hroot Ht Hnd Hbst Hfuel Hscan Hx)
      in Hrun.
    apply Ok_inj in Hrun as [<- <-].
    destruct (delete_post_tree s t x xn Ht Hnd Hbst Hin Hx) as (Ht1 & Hbst1 & Hop & Hkey).
    set (s1 := delete_post t x (key xn) s).
    assert (Hscan1 : fst (scan (delete_step (store s1) n block_idx dag) (addrs t) 0) = Some x).
    { rewrite <- Hscan. f_equal. apply scan_ext. intros a c _.
      unfold delete_step, node_matches. unfold s1. cbn [delete_post store set_store set_tree_size].
      pose proof (Hop a) as E.
      destruct (delete_store t x (store s) !! a) as [y|], (store s !! a) as [y'|];
        simpl in E; try discriminate; [|reflexivity].
      injection E as ->. reflexivity. }
    assert (Hx1 : exists x1, store s1 !! x = Some x1 /\ key x1 = key xn).
    { pose proof (Hkey x) as E. unfold s1. cbn [delete_post store set_store set_tree_size].
      rewrite Hx in E. destruct (delete_store t x (store s) !! x) as [y|]; [|discriminate].
      injection E as E. eauto. }
    destruct Hx1 as (x1 & Hx1 & Ek).
    exists x, (delete_post t x (key x1) s1). split; [exact Hin|]. split.
    + rewrite <- Ek.
      apply (try_delete_scan_run fuel n block_idx dag s1 t x x1); auto.
    + rewrite Ek. unfold s1.
      cbn [delete_post removed_nodes removed_keys tree_size set_store set_tree_size
           set_removed_keys set_removed_nodes].
      rewrite <- !app_assoc. repeat split. lia.
  - exfalso. unfold try_delete, noexcept in Hrun.
    rewrite (bind_eval _ _ _ _ _ (find_if_delete_run fuel n block_idx dag s t 0 Hroot Ht Hfuel))
      in Hrun.
    rewrite Hscan in Hrun. discriminate.
Qed.

Lemma try_delete_twice_witness :
  exists x s2,
    x ∈ addrs ex_shape
    /\ try_delete 10 0 0 true ex_pending_delete = Ok 20 s2
    /\ removed_nodes s2 = removed_nodes ex_state ++ [Some x; Some x]
    /\ removed_keys s2 = removed_keys ex_state ++ [20; 20]
    /\ tree_size s2 = tree_size ex_state - 2.
Proof.
  refine (try_delete_twice 10 0 0 true ex_state ex_shape 20 ex_pending_delete eq_refl
            (q_tree _ _ ex_state_quiescent) (q_nodup _ _ ex_state_quiescent) ex_state_bst _ _).
  - simpl. lia.
  - vm_compute. reflexivity.
Defined.

(** ** [try_delete] with a negative [n] *)

(** Once the counter has passed [n + 1] the closure of [try_delete] accepts
    no node. *)
Lemma scan_delete_above (h : gmap addr node_t) n block_idx dag :
  forall l i,
    n + 1 < i -> fst (scan (delete_step h n block_idx dag) l i) = None.
Proof.
  induction l as [|a l IH]; intros i Hi; [reflexivity|].
  rewrite scan_cons, delete_step_eq. cbn [fst snd].
  destruct (node_matches h block_idx dag a).
  - replace (i + 1 =? n + 1) with false by (symmetry; apply Z.eqb_neq; lia).
    apply IH. lia.
  - replace (i =? n + 1) with false by (symmetry; apply Z.eqb_neq; lia).
    apply IH. lia.
Qed.

(** X16.  [try_delete] does not check the sign of [n].  The closure
    compares the counter of matching nodes, which starts at [0], with
    [n + 1] after every node.  With [n = -1] the comparison holds at the
    first node of the in-order traversal when that node does not match: the
    call then flags this node, an operator of another block or of the other
    kind, and returns its key.  With [n = -1] and a first node that matches,
    with [n < -1], and in an empty tree, no node is accepted, [find_if]
    returns [nullptr] and [x->key] dereferences it. *)
Theorem try_delete_negative_n fuel n block_idx dag s t :
  root (tree s) = shape_root t -> tree_at (store s) t -> NoDup (addrs t) ->
  bst (store s) t -> (height t < fuel)%nat ->
  n < 0 ->
  match addrs t with
  | a :: _ =>
    if (n =? -1) && negb (node_matches (store s) block_idx dag a)
    then exists xa,
           store s !! a = Some xa
           /\ try_delete fuel n block_idx dag s = Ok (key xa) (delete_post t a (key xa) s)
    else try_delete fuel n block_idx dag s = Undefined null_dereference
  | [] => try_delete fuel n block_idx dag s = Undefined null_dereference
  end.
Proof.
  intros Hroot Ht Hnd Hbst Hfuel Hn.
  assert (Hnone : fst (scan (delete_step (store s) n block_idx dag) (addrs t) 0) = None ->
                  try_delete fuel n block_idx dag s = Undefined null_dereference).
  { intros Hscan. unfold try_delete, noexcept.
    rewrite (bind_eval _ _ _ _ _ (find_if_delete_run fuel n block_idx dag s t 0 Hroot Ht Hfuel)).
    rewrite Hscan. reflexivity. }
  destruct (addrs t) as [|a rest] eqn:E.
  - apply Hnone. reflexivity.
  - destruct (n =? -1) eqn:En; cbn [andb].
    + apply Z.eqb_eq in En. subst n.
      destruct (node_matches (store s) block_idx dag a) eqn:Hm; cbn [negb].
      * apply Hnone. rewrite scan_cons, delete_step_eq, Hm. cbn [fst snd].
        change (0 + 1 =? -1 + 1) with false. cbv iota.
        apply scan_delete_above. lia.
      * assert (Ha : a ∈ addrs t) by (rewrite E; set_solver).
        destruct (tree_at_lookup _ _ _ Ht Ha) as (xa & Hxa).
        exists xa. split; [exact Hxa|].
        apply try_delete_scan_run; auto; rewrite E; [exact Hnd|].
        rewrite scan_cons, delete_step_eq, Hm. reflexivity.
    + apply Z.eqb_neq in En. apply Hnone. apply scan_delete_above. lia.
Qed.

Lemma try_delete_negative_n_witness :
  exists xa,
    store ex_state !! 2%positive = Some xa
    /\ try_delete 10 (-1) 0 true ex_state
       = Ok (key xa) (delete_post ex_shape 2%positive (key xa) ex_state).
Proof.
  refine (try_delete_negative_n 10 (-1) 0 true ex_state ex_shape eq_refl
            (q_tree _ _ ex_state_quiescent) (q_nodup _ _ ex_state_quiescent) ex_state_bst _ _).
  - simpl. lia.
  - lia.
Defined.

(** ** [cancel_shift] *)

Lemma pending_init s t :
  root (tree s) = shape_root t -> tree_at (store s) t -> NoDup (addrs t) ->
  nodes_storage.index (trial_nodes s) = -1 ->
  pool_detached (store s) (nodes_storage.nodes (trial_nodes s)) t ->
  pending s t s t 0.
Proof.
  intros Hroot Ht Hnd Hi (Hpnd & Hp). split; try reflexivity; auto.
  - destruct (trial_nodes s) as [nb ns i0]. simpl in *. subst i0. reflexivity.
  - intros j n _ Hj. destruct (Hp n) as (a & x & -> & Hx & Hl & Hr & _).
    { apply list_elem_of_lookup. eauto. }
    eauto 10.
  - intros b x0 Hb Hx0. exists x0. split; [exact Hx0|]. split; [reflexivity|].
    intros sm. left. split; [reflexivity|]. intros (j & Hj & _). lia.
  - intros j Hj. lia.
  - lia.
Qed.

(** [cancel_insert_impl] after [k] trial insertions. *)
Lemma cancel_insert_impl_pending s0 t0 s t k :
  pending s0 t0 s t k ->
  exists h',
    cancel_insert_impl s
    = Ok tt (set_root (if tree_size s =? Z.of_nat k - 1 + 1 then None else root (tree s))
               (set_store h' s))
    /\ (forall b x0, b ∈ addrs t0 -> store s0 !! b = Some x0 ->
          exists x', h' !! b = Some x' /\ payload x' = payload x0
                     /\ left x' = left x0 /\ right x' = right x0)
    /\ (forall b, b ∉ addrs t0 -> Some b ∉ nodes_storage.nodes (trial_nodes s0) ->
          h' !! b = store s0 !! b).
Proof.
  intros P.
  pose proof (p_pool _ _ _ _ _ P) as Htn.
  destruct (unlink_loop k O s) as (h' & Hloop & Hh').
  { intros j Hj. destruct (p_rec _ _ _ _ _ P j ltac:(lia)) as (r & Hr & Ha).
    exists r. split; [exact Hr|]. intros b Hb. apply (Ha b Hb). }
  change (Z.of_nat 0) with 0 in Hloop.
  exists h'. split; [|split].
  - unfold cancel_insert_impl, trial_index. rewrite bind_gets. rewrite Htn.
    unfold nodes_storage.index. cbn [nodes_storage.i].
    replace (Z.to_nat (Z.of_nat k - 1 + 1)) with k by lia.
    rewrite (bind_eval _ _ _ _ _ Hloop). rewrite !bind_gets.
    cbn [tree_size set_store trial_nodes]. rewrite Htn. cbn [nodes_storage.i].
    destruct (tree_size s =? Z.of_nat k - 1 + 1).
    + reflexivity.
    + unfold ret. f_equal. state_eq. destruct (tree s); reflexivity.
  - intros b x0 Hb Hx0.
    destruct (p_orig _ _ _ _ _ P b x0 Hb Hx0) as (x & Hx & Hp & Hc).
    destruct (Hh' b) as (_ & HS). destruct (HS x Hx) as (x' & Hx' & Hp' & _ & Hc').
    exists x'. split; [exact Hx'|]. split; [congruence|].
    apply child_eq_links. intros sm. destruct (Hc' sm) as (Hc1 & Hc2).
    destruct (Hc sm) as [(E & Hn)|(E & Hr)].
    + rewrite (Hc2 Hn). exact E.
    + rewrite (Hc1 Hr). symmetry. exact E.
  - intros b Hnin Hb. rewrite <- (p_frame _ _ _ _ _ P b Hnin Hb).
    destruct (Hh' b) as (HN & HS).
    destruct (store s !! b) as [x|] eqn:Hx; [|auto].
    destruct (HS x eq_refl) as (x' & Hx' & Hp & Hm & Hc).
    rewrite Hx'. f_equal.
    assert (Hnr : forall sm, ~ recorded (inserted_nodes s) 0 k b sm).
    { intros sm (j & Hj & Hr).
      destruct (p_rec _ _ _ _ _ P j ltac:(lia)) as (r & Hr' & Ha).
      rewrite Hr in Hr'. injection Hr' as <-.
      destruct (Ha b eq_refl) as (_ & [?|?]); contradiction. }
    apply node_eq; auto.
    + apply (proj2 (Hc true) (Hnr true)).
    + apply (proj2 (Hc false) (Hnr false)).
Qed.


Lemma try_deletes_size fuel reqs :
  forall s0 t s ks s',
    settled s0 t -> deleting s0 t s -> (height t < fuel)%nat ->
    try_deletes fuel reqs s = Ok ks s' ->
    tree_size s' = tree_size s - Z.of_nat (length reqs) /\ (reqs <> [] -> t <> Leaf).
Proof.
  induction reqs as [|[[n block_idx] dag] reqs IH]; intros s0 t s ks s' S D Hfuel Hrun.
  - simpl in Hrun. apply Ok_inj in Hrun as [_ <-]. split; [simpl; lia|congruence].
  - simpl in Hrun. apply bind_Ok in Hrun as (k & s1 & Hd & Hrun).
    apply bind_Ok in Hrun as (ks' & s2 & Hrest & Hrun).
    apply Ok_inj in Hrun as [_ <-].
    pose proof (deleting_step fuel n block_idx dag s0 t s k s1 S D Hfuel Hd) as D1.
    destruct (IH s0 t s1 ks' s2 S D1 Hfuel Hrest) as (Hsz & _).
    destruct (deleting_tree _ _ _ S D) as (Hroot & Ht & Hbst).
    destruct (try_delete_inv fuel n block_idx dag s t k s1 Hroot Ht (st_nodup _ _ S) Hbst Hfuel
                Hd) as (x & xn & Hin & _ & _ & ->).
    split.
    + rewrite Hsz. cbn [delete_post tree_size set_tree_size]. simpl length. lia.
    + intros _ ->. simpl in Hin. set_solver.
Qed.

Lemma cancel_shift_unfold fuel s :
  cancel_shift fuel s
  = (cancel_insert_impl ;;;
     modify (fun s => set_trial_nodes (snd (nodes_storage.reset_index (trial_nodes s))) s) ;;;
     cancel_delete fuel) s.
Proof. reflexivity. Qed.

(** The state after trial deletions and trial insertions, and what
    [cancel_insert_impl] makes of it. *)
Lemma shift_setup fuel reqs ops s0 t ks s1 s2 :
  settled s0 t -> nodes_storage.index (trial_nodes s0) = -1 ->
  pool_detached (store s0) (nodes_storage.nodes (trial_nodes s0)) t ->
  (height t < fuel)%nat ->
  try_deletes fuel reqs s0 = Ok ks s1 -> try_inserts fuel ops s1 = Ok tt s2 ->
  exists k h',
    cancel_insert_impl s2
    = Ok tt (set_root (if tree_size s0 =? Z.of_nat (length reqs) then None else shape_root t)
               (set_store h' s2))
    /\ (forall b y0, b ∈ addrs t -> store s0 !! b = Some y0 ->
          exists y, h' !! b = Some y /\ same_but_flags y y0
                    /\ (delete_flag y = true -> Some b ∈ removed_nodes s2))
    /\ (forall n, n ∈ removed_nodes s2 -> exists b, n = Some b /\ b ∈ addrs t)
    /\ (forall b, b ∉ addrs t -> Some b ∉ nodes_storage.nodes (trial_nodes s0) ->
          h' !! b = store s0 !! b)
    /\ trial_nodes s2
       = nodes_storage.mk (nodes_storage.n_blocks (trial_nodes s0))
           (nodes_storage.nodes (trial_nodes s0)) (Z.of_nat k - 1)
    /\ rest_shift s2 = rest_shift s0.
Proof.
  intros S Hidx0 Hpool0 Hfuel Hdel Hins.
  pose proof (try_deletes_deleting fuel reqs s0 t s0 ks s1 S (settled_deleting _ _ S) Hfuel Hdel)
    as D.
  destruct (try_deletes_size fuel reqs s0 t s0 ks s1 S (settled_deleting _ _ S) Hfuel Hdel)
    as (Hsz1 & Hleaf).
  destruct (deleting_tree _ _ _ S D) as (Hroot1 & Ht1 & _).
  pose proof (dl_rest _ _ _ D) as Hrest1. unfold rest_delete in Hrest1.
  injection Hrest1 as Hna Hun Hmd Hnb Hdm Har Haz Han _ Htn1 _ Hbn.
  assert (Hpool1 : pool_detached (store s1) (nodes_storage.nodes (trial_nodes s1)) t).
  { rewrite Htn1. destruct Hpool0 as (Hnd & Hp). split; [exact Hnd|].
    intros n Hn. destruct (Hp n Hn) as (a & x & -> & Hx & Hl & Hr & Ha).
    exists a, x. rewrite (dl_off _ _ _ D a Ha). auto. }
  pose proof (pending_init s1 t Hroot1 Ht1 (st_nodup _ _ S) ltac:(rewrite Htn1; exact Hidx0)
                Hpool1) as P0.
  destruct (try_inserts_pending_gen fuel ops s1 t s1 t 0 s2 Hpool1 P0 Hins) as (t2 & k & P).
  destruct (cancel_insert_impl_pending s1 t s2 t2 k P) as (h' & Hrun & Horig & Hframe).
  pose proof (p_rest _ _ _ _ _ P) as Hrest2. unfold rest in Hrest2.
  injection Hrest2 as Hna2 Hun2 Hmd2 Hnb2 Hdm2 Har2 Haz2 Han2 Hrn2 Hrk2 Hbn2.
  exists k, h'. split; [|split; [|split; [|split; [|split]]]].
  - rewrite Hrun. f_equal. f_equal.
    rewrite (p_size _ _ _ _ _ P), Hsz1.
    assert (Hq : tree_size_query s0 = Ok (tree_size s0) s0) by apply (st_size _ _ S).
    destruct t as [|tl ta tr].
    + assert (reqs = []) as -> by (destruct reqs; [reflexivity|exfalso; apply Hleaf; congruence]).
      unfold tree_size_query in Hq. rewrite bind_gets, (st_root _ _ S) in Hq. simpl in Hq.
      unfold ret in Hq. apply Ok_inj in Hq as [<- _]. simpl.
      match goal with
      | |- (if ?c then _ else _) = _ =>
        replace c with true by (symmetry; apply Z.eqb_eq; simpl; lia)
      end.
      reflexivity.
    + destruct (tree_size s0 =? Z.of_nat (length reqs)) eqn:E.
      * apply Z.eqb_eq in E.
        replace (_ =? _) with true by (symmetry; apply Z.eqb_eq; lia). reflexivity.
      * apply Z.eqb_neq in E.
        replace (_ =? _) with false by (symmetry; apply Z.eqb_neq; lia).
        rewrite (p_root _ _ _ _ _ P). apply (p_root0 _ _ _ _ _ P). discriminate.
  - intros b y0 Hb Hy0.
    destruct (dl_on _ _ _ D b y0 Hb Hy0) as (y1 & Hy1 & Hsame & Hflag).
    destruct (Horig b y1 Hb Hy1) as (x' & Hx' & Hp & Hl & Hr).
    exists x'. split; [exact Hx'|]. unfold payload in Hp.
    injection Hp as Hop Hca Hke Hco HN Hdf.
    destruct Hsame as (? & ? & ? & ? & ? & ? & ?).
    split; [repeat split; congruence|].
    rewrite Hrn2, Hdf. exact Hflag.
  - intros n Hn. rewrite Hrn2 in Hn. apply (dl_removed _ _ _ D n Hn).
  - intros b Hb Hnp. rewrite <- (dl_off _ _ _ D b Hb).
    apply Hframe; [exact Hb|]. rewrite Htn1. exact Hnp.
  - rewrite (p_pool _ _ _ _ _ P), Htn1. reflexivity.
  - unfold rest_shift. congruence.
Qed.


(** X10.  [cancel_shift] when every node has been flagged.  Under the
    conditions of X9, when the tree is not empty and as many [try_delete]
    calls have returned as [tree_size] counted nodes (one deletion in a tree
    of a single node, for example), [cancel_insert_impl] finds [tree_size]
    equal to [index() + 1] and [cancel_shift] returns with the root set to
    [nullptr] and [tree_size] 0: the nodes of the tree are no longer linked
    from the root. *)
Theorem cancel_shift_drops_tree fuel reqs ops s0 t ks s1 s2 :
  settled s0 t -> nodes_storage.index (trial_nodes s0) = -1 ->
  pool_detached (store s0) (nodes_storage.nodes (trial_nodes s0)) t ->
  (height t < fuel)%nat ->
  try_deletes fuel reqs s0 = Ok ks s1 -> try_inserts fuel ops s1 = Ok tt s2 ->
  t <> Leaf -> tree_size s0 = Z.of_nat (length reqs) ->
  exists s3,
    cancel_shift fuel s2 = Ok tt s3
    /\ root (tree s0) <> None
    /\ root (tree s3) = None
    /\ tree_size s3 = 0.
Proof.
  intros S Hidx0 Hpool0 Hfuel Hdel Hins Hne Hall.
  destruct (shift_setup fuel reqs ops s0 t ks s1 s2 S Hidx0 Hpool0 Hfuel Hdel Hins)
    as (k & h' & Hrun & Hon & Hrem & Hframe & Htn & Hrest).
  replace (tree_size s0 =? Z.of_nat (length reqs)) with true in Hrun
    by (symmetry; apply Z.eqb_eq; exact Hall).
  set (sa := set_trial_nodes
               (snd (nodes_storage.reset_index (trial_nodes (set_root None (set_store h' s2)))))
               (set_root None (set_store h' s2))).
  assert (Hloop : for_each (removed_nodes sa) (fun n => assign n (set_delete_flag false)) sa
                  = Ok tt (set_store (unflag_store (removed_nodes sa) (store sa)) sa)).
  { apply unflag_loop. intros n Hn. destruct (Hrem n Hn) as (b & -> & Hb).
    exists b. split; [reflexivity|].
    destruct (tree_at_lookup _ _ _ (st_tree _ _ S) Hb) as (y0 & Hy0).
    destruct (Hon b y0 Hb Hy0) as (y & Hy & _). exists y. exact Hy. }
  eexists. split.
  { rewrite cancel_shift_unfold. rewrite (bind_eval _ _ _ _ _ Hrun). rewrite bind_modify.
    fold sa. unfold cancel_delete. rewrite bind_gets.
    rewrite (bind_eval _ _ _ _ _ Hloop). rewrite !bind_modify.
    match goal with
    | |- bind tree_size_query _ ?st = _ =>
      assert (Hsz : tree_size_query st = Ok 0 st) by reflexivity;
      rewrite (bind_eval _ _ _ _ _ Hsz)
    end.
    rewrite bind_modify.
    match goal with
    | |- bind (clear_modified fuel) _ ?st = _ =>
      assert (Hcl : clear_modified fuel st = Ok tt st)
        by (destruct fuel; [lia|reflexivity]);
      rewrite (bind_eval _ _ _ _ _ Hcl)
    end.
    reflexivity. }
  cbn [root tree tree_size set_tree_size set_removed_keys set_removed_nodes set_store].
  split; [rewrite (st_root _ _ S); destruct t; [congruence|discriminate]|].
  split; reflexivity.
Qed.

Lemma ex_single_settled : settled ex_single ex_single_shape.
Proof.
  split.
  - reflexivity.
  - exact ex_single_tree.
  - simpl. repeat constructor; set_solver.
  - exact ex_single_bst.
  - intros a x Ha Hx. simpl in Ha. set_unfold in Ha.
    destruct Ha as [->|[]]; vm_compute in Hx; injection Hx as <-; split; reflexivity.
  - reflexivity.
  - reflexivity.
  - reflexivity.
Qed.

Lemma ex_single_pool :
  pool_detached (store ex_single) (nodes_storage.nodes (trial_nodes ex_single)) ex_single_shape.
Proof.
  split.
  - simpl. repeat constructor; set_solver.
  - intros n Hn. simpl in Hn. set_unfold in Hn.
    destruct Hn as [->|[->|[->|[->|[]]]]]; eexists _, _;
      (split; [reflexivity|]); (split; [vm_compute; reflexivity|]);
      (split; [reflexivity|]); (split; [reflexivity|]); simpl; set_solver.
Qed.


Lemma cancel_shift_drops_tree_witness :
  exists s3,
    cancel_shift 10 (ex_shift ex_single) = Ok tt s3
    /\ root (tree ex_single) <> None
    /\ root (tree s3) = None
    /\ tree_size s3 = 0.
Proof.
  refine (cancel_shift_drops_tree 10 [(0, 0, true)] [(25, mk_op_desc 0 true 0)] ex_single
            ex_single_shape [20]
            (state_after (try_deletes 10 [(0, 0, true)] ex_single) ex_single)
            (ex_shift ex_single) ex_single_settled eq_refl ex_single_pool _ _ _ _ _).
  - simpl. lia.
  - vm_compute. reflexivity.
  - vm_compute. reflexivity.
  - discriminate.
  - reflexivity.
Defined.

(** ** The destructor after trial insertions *)

(** X11.  The destructor unlinks the trial nodes.  From a state with no
    transaction pending, after any sequence of [try_insert] calls that all
    return, the destructor returns; the root is then the root before the
    first [try_insert], and the nodes of the tree it had then are linked as
    they were and carry what they carried (operator, key, cache entries,
    colour, count, delete flag): no trial node is reachable from the root
    any more.  The destructor resets neither the index of the trial pool nor
    [tree_size], and it writes to no node object outside the tree and the
    trial pool. *)
Theorem destructor_unlinks_trials fuel ops s0 t0 s1 :
  quiescent s0 t0 ->
  try_inserts fuel ops s0 = Ok tt s1 ->
  exists s2,
    destructor s1 = Ok tt s2
    /\ root (tree s2) = root (tree s0)
    /\ tree_at (store s2) t0
    /\ (forall b x0, b ∈ addrs t0 -> store s0 !! b = Some x0 ->
          exists x', store s2 !! b = Some x' /\ payload x' = payload x0
                     /\ left x' = left x0 /\ right x' = right x0)
    /\ (forall b, b ∉ addrs t0 -> Some b ∉ nodes_storage.nodes (trial_nodes s0) ->
          store s2 !! b = store s0 !! b)
    /\ tree_size s2 = tree_size s1
    /\ trial_nodes s2 = trial_nodes s1.
Proof.
  intros Q Hrun.
  destruct (try_inserts_pending fuel ops s0 t0 s0 t0 0 s1 Q (quiescent_pending _ _ Q) Hrun)
    as (t1 & k & P).
  destruct (cancel_insert_impl_pending s0 t0 s1 t1 k P) as (h' & Hd & Horig & Hframe).
  eexists. split; [exact Hd|].
  cbn [root tree store tree_size trial_nodes set_root set_store].
  split; [|split; [|split; [exact Horig|split; [exact Hframe|split; reflexivity]]]].
  - rewrite (p_size _ _ _ _ _ P), (q_size _ _ Q), (q_root _ _ Q).
    destruct t0 as [|l0 a0 r0].
    + replace (_ =? _) with true by (symmetry; apply Z.eqb_eq; simpl; lia). reflexivity.
    + pose proof (length_addrs_br l0 a0 r0).
      replace (_ =? _) with false by (symmetry; apply Z.eqb_neq; lia).
      rewrite (p_root _ _ _ _ _ P). apply (p_root0 _ _ _ _ _ P). discriminate.
  - eapply tree_at_links; [|apply (q_tree _ _ Q)].
    intros b Hb x0 Hx0. destruct (Horig b x0 Hb Hx0) as (x' & Hx' & _ & Hl & Hr). eauto.
Qed.

Lemma destructor_unlinks_trials_witness :
  exists s2,
    destructor ex_four_trials = Ok tt s2
    /\ root (tree s2) = root (tree ex_state)
    /\ tree_at (store s2) ex_shape
    /\ (forall b x0, b ∈ addrs ex_shape -> store ex_state !! b = Some x0 ->
          exists x', store s2 !! b = Some x' /\ payload x' = payload x0
                     /\ left x' = left x0 /\ right x' = right x0)
    /\ (forall b, b ∉ addrs ex_shape ->
                  Some b ∉ nodes_storage.nodes (trial_nodes ex_state) ->
                  store s2 !! b = store ex_state !! b)
    /\ tree_size s2 = tree_size ex_four_trials
    /\ trial_nodes s2 = trial_nodes ex_four_trials.
Proof.
  refine (destructor_unlinks_trials 10
            [(25, mk_op_desc 0 true 0); (5, mk_op_desc 0 false 0);
             (15, mk_op_desc 0 true 0); (35, mk_op_desc 0 false 0)]
            ex_state ex_shape ex_four_trials ex_state_quiescent _).
  vm_compute. reflexivity.
Defined.

(** ** [try_replace] and the size of the tables *)





(** ** Two trial insertions at the same time into the empty tree *)

(** X13.  [cancel_insert] after an exception in the empty tree.  With the
    tree empty ([tree_size] 0, no trial insertion pending), a [try_insert]
    at time [tau] returns and makes the first node of the trial pool the
    root; a second [try_insert] at the same time throws [rbt_insert_error]
    after it has advanced the index of the pool to 1, so that [tree_size]
    (1) is no longer [index() + 1] (2).  The [cancel_insert] that follows
    returns, but it does not empty the tree: the root is still the first
    node of the trial pool, and [tree_size] is the count of that node,
    while the index of the pool is reset, so that the node is both in the
    tree and free in the pool. *)
Theorem cancel_insert_after_throw_in_empty_tree fuel tau o1 o2 s n0 n1 x0 x1 r0 r1 :
  root (tree s) = None -> tree_size s = 0 ->
  nodes_storage.index (trial_nodes s) = -1 ->
  nodes_storage.nodes (trial_nodes s) !! 0%nat = Some (Some n0) ->
  nodes_storage.nodes (trial_nodes s) !! 1%nat = Some (Some n1) ->
  n0 <> n1 ->
  store s !! n0 = Some x0 -> left x0 = None -> right x0 = None ->
  store s !! n1 = Some x1 ->
  inserted_nodes s !! 0%nat = Some r0 -> inserted_nodes s !! 1%nat = Some r1 ->
  (1 < fuel)%nat ->
  exists s1 s2 s3,
    try_insert fuel tau o1 s = Ok tt s1
    /\ root (tree s1) = Some n0 /\ tree_size s1 = 1
    /\ try_insert fuel tau o2 s1 = Throw rbt_insert_error s2
    /\ cancel_insert fuel s2 = Ok tt s3
    /\ root (tree s3) = Some n0
    /\ tree_size s3 = N x0
    /\ nodes_storage.index (trial_nodes s3) = -1
    /\ nodes_storage.nodes (trial_nodes s3) !! 0%nat = Some (Some n0).
Proof.
  intros Hroot Hts Hidx Hn0 Hn1 Hne Hx0 Hl0 Hr0 Hx1 He0 He1 Hfuel.
  destruct fuel as [|fuel]; [lia|].
  set (y0 := set_op o1 (set_key tau x0)).
  set (s1 := set_tree_size (tree_size s + 1)
               (set_root (Some n0)
                  (set_store (<[n0 := y0]> (store s))
                     (set_inserted_nodes (<[0%nat := (None, false)]> (inserted_nodes s))
                        (set_trial_nodes
                           (nodes_storage.mk (nodes_storage.n_blocks (trial_nodes s))
                              (nodes_storage.nodes (trial_nodes s)) 0) s))))).
  assert (Hrun1 : try_insert (S fuel) tau o1 s = Ok tt s1).
  { unfold try_insert, trial_index. rewrite bind_gets, Hidx.
    change (3 <? -1) with false. cbv beta iota.
    assert (Htake : trial_call nodes_storage.take_next s
                    = Ok (Some n0)
                        (set_trial_nodes
                           (nodes_storage.mk (nodes_storage.n_blocks (trial_nodes s))
                              (nodes_storage.nodes (trial_nodes s)) 0) s)).
    { unfold trial_call, nodes_storage.take_next, nodes_storage.at_.
      unfold nodes_storage.index in Hidx. rewrite Hidx.
      change (-1 + 1) with 0. change (0 <? 0) with false. cbv beta iota.
      change (Z.to_nat 0) with 0%nat. unfold node in *. rewrite Hn0. reflexivity. }
    rewrite (bind_eval _ _ _ _ _ Htake). rewrite bind_gets.
    cbn [nodes_storage.index nodes_storage.i trial_nodes set_trial_nodes].
    rewrite (bind_eval _ _ _ _ _
               (inserted_nodes_set_Some
                  (set_trial_nodes
                     (nodes_storage.mk (nodes_storage.n_blocks (trial_nodes s))
                        (nodes_storage.nodes (trial_nodes s)) 0) s)
                  0 r0 (None, false) ltac:(lia) He0)).
    unfold reset. rewrite (assign_run _ _ _ n0 x0) by exact Hx0.
    rewrite bind_gets. cbn [root tree set_store set_inserted_nodes set_trial_nodes].
    rewrite Hroot. cbn [try_insert_impl]. rewrite bind_ret. rewrite !bind_modify.
    reflexivity. }
  set (t1 := Br Leaf n0 Leaf).
  assert (Hy0l : left y0 = None) by (unfold y0; destruct x0; exact Hl0).
  assert (Hy0r : right y0 = None) by (unfold y0; destruct x0; exact Hr0).
  assert (Hy0k : key y0 = tau) by (unfold y0; destruct x0; reflexivity).
  assert (Hs1n0 : store s1 !! n0 = Some y0) by (simpl; apply lookup_insert_eq).
  assert (Ht1 : tree_at (store s1) t1).
  { simpl. split; [|tauto]. exists y0. split; [apply lookup_insert_eq|]. auto. }
  assert (Hbst1 : bst (store s1) t1).
  { simpl. split; [|tauto]. exists y0. split; [apply lookup_insert_eq|].
    split; intros b y Hb; set_solver. }
  pose proof (try_insert_throw_run (S fuel) tau o2 s1 t1 n0 y0 n1 x1 r1
                eq_refl Ht1 Hbst1 ltac:(simpl; lia) ltac:(simpl; set_solver) Hs1n0 Hy0k
                ltac:(simpl; lia)) as Hrun2.
  change (nodes_storage.index (trial_nodes s1)) with 0 in Hrun2.
  change (Z.to_nat (0 + 1)) with 1%nat in Hrun2. change (0 + 1) with 1 in Hrun2.
  specialize (Hrun2 Hn1).
  assert (Hs1n1 : store s1 !! n1 = Some x1).
  { simpl. rewrite lookup_insert_ne by congruence. exact Hx1. }
  specialize (Hrun2 Hs1n1 ltac:(simpl; set_solver)).
  assert (He1' : inserted_nodes s1 !! 1%nat = Some r1).
  { simpl. rewrite list_lookup_insert_ne by lia. exact He1. }
  specialize (Hrun2 He1').
  match type of Hrun2 with _ = Throw _ ?st => set (s2 := st) in * end.
  (* [cancel_insert] *)
  assert (Hat0 : inserted_nodes_at 0 s2 = Ok (None, false) s2).
  { apply inserted_nodes_at_Some; [lia|]. simpl.
    rewrite list_lookup_insert_ne by lia.
    apply list_lookup_insert_eq. eapply lookup_lt_Some; eauto. }
  assert (Hat1 : inserted_nodes_at 1 s2 = Ok (None, false) s2).
  { apply inserted_nodes_at_Some; [lia|]. simpl.
    apply list_lookup_insert_eq. rewrite length_insert. eapply lookup_lt_Some; eauto. }
  assert (Himpl : cancel_insert_impl s2 = Ok tt s2).
  { unfold cancel_insert_impl, trial_index. rewrite bind_gets.
    change (nodes_storage.index (trial_nodes s2)) with 1.
    change (Z.to_nat (1 + 1)) with 2%nat. cbn [for_loop]. change (0 + 1) with 1.
    unfold bind. rewrite Hat0. cbn [fst]. unfold ret at 1. rewrite Hat1. cbn [fst].
    unfold ret, gets.
    change (tree_size s2) with (tree_size s + 1). rewrite Hts. reflexivity. }
  set (s2r := set_trial_nodes (snd (nodes_storage.reset_index (trial_nodes s2))) s2).
  assert (Hs2n0 : store s2r !! n0 = Some y0).
  { simpl. rewrite lookup_insert_ne by congruence. apply lookup_insert_eq. }
  assert (Hq : tree_size_query s2r = Ok (N x0) s2r).
  { unfold tree_size_query. rewrite bind_gets. change (root (tree s2r)) with (Some n0).
    cbv beta iota.
    rewrite (field_Some N s2r n0 y0 Hs2n0). unfold y0. destruct x0; reflexivity. }
  assert (Ht2 : tree_at (store (set_tree_size (N x0) s2r)) t1).
  { simpl. split; [|tauto]. exists y0. split; [exact Hs2n0|]. auto. }
  assert (Hcl : clear_modified (S fuel) (set_tree_size (N x0) s2r)
                = Ok tt (set_store (clear_store t1 (store s2r)) (set_tree_size (N x0) s2r))).
  { unfold clear_modified. rewrite bind_gets.
    apply (clear_modified_impl_run t1 (S fuel) (set_tree_size (N x0) s2r) Ht2).
    simpl. lia. }
  exists s1, s2. eexists.
  split; [exact Hrun1|]. split; [reflexivity|]. split; [simpl; lia|].
  split; [exact Hrun2|]. split.
  { unfold cancel_insert. rewrite (bind_eval _ _ _ _ _ Himpl). rewrite bind_modify.
    fold s2r. rewrite (bind_eval _ _ _ _ _ Hq). rewrite bind_modify.
    rewrite (bind_eval _ _ _ _ _ Hcl). reflexivity. }
  cbn [root tree tree_size trial_nodes set_store set_tree_size].
  split; [reflexivity|]. split; [reflexivity|]. split; [reflexivity|].
  simpl. exact Hn0.
Qed.

Lemma cancel_insert_after_throw_in_empty_tree_witness :
  exists s1 s2 s3,
    try_insert 10 7 (mk_op_desc 0 true 0) ex_empty = Ok tt s1
    /\ root (tree s1) = Some 11%positive /\ tree_size s1 = 1
    /\ try_insert 10 7 (mk_op_desc 0 false 0) s1 = Throw rbt_insert_error s2
    /\ cancel_insert 10 s2 = Ok tt s3
    /\ root (tree s3) = Some 11%positive
    /\ tree_size s3 = N ex_pool_node
    /\ nodes_storage.index (trial_nodes s3) = -1
    /\ nodes_storage.nodes (trial_nodes s3) !! 0%nat = Some (Some 11%positive).
Proof.
  refine (cancel_insert_after_throw_in_empty_tree 10 7 (mk_op_desc 0 true 0)
            (mk_op_desc 0 false 0) ex_empty 11%positive 12%positive ex_pool_node ex_pool_node
            (None, false) (None, false) eq_refl eq_refl eq_refl eq_refl eq_refl _ _
            eq_refl eq_refl _ eq_refl eq_refl _).
  - discriminate.
  - vm_compute. reflexivity.
  - vm_compute. reflexivity.
  - lia.
Defined.

(** ** A trial insertion at the time of a node flagged for deletion *)

(** X14.  A node flagged for deletion still occupies its time.  In a search
    tree, after [try_delete] has returned the key [k], a [try_insert] at the
    time [k] throws [rbt_insert_error], as it would for any other node of
    the tree: the flagged node is still linked in and [try_insert_impl]
    compares keys only.  The throw leaves the root and the nodes of the tree
    as [try_delete] left them, and [tree_size] one below its value before
    the [try_delete]. *)
Theorem try_insert_at_flagged_time fuel n block_idx dag o s t k s1 na xa r0 :
  root (tree s) = shape_root t -> tree_at (store s) t -> NoDup (addrs t) ->
  bst (store s) t -> (height t < fuel)%nat ->
  try_delete fuel n block_idx dag s = Ok k s1 ->
  -1 <= nodes_storage.index (trial_nodes s) < 3 ->
  nodes_storage.nodes (trial_nodes s) !! Z.to_nat (nodes_storage.index (trial_nodes s) + 1)
    = Some (Some na) ->
  store s !! na = Some xa -> na ∉ addrs t ->
  inserted_nodes s !! Z.to_nat (nodes_storage.index (trial_nodes s) + 1) = Some r0 ->
  exists s2,
    try_insert fuel k o s1 = Throw rbt_insert_error s2
    /\ root (tree s2) = root (tree s)
    /\ (forall c, c ∈ addrs t -> store s2 !! c = store s1 !! c)
    /\ tree_size s2 = tree_size s - 1.
Proof.
  intros Hroot Ht Hnd Hbst Hfuel Hdel Hidx Hslot Hxa Hna Hr0.
  destruct (try_delete_inv fuel n block_idx dag s t k s1 Hroot Ht Hnd Hbst Hfuel Hdel)
    as (x & xn & Hin & Hx & -> & ->).
  destruct (delete_post_tree s t x xn Ht Hnd Hbst Hin Hx) as (Ht1 & Hbst1 & _ & Hkey).
  set (s1 := delete_post t x (key xn) s).
  assert (Hx1 : exists x1, store s1 !! x = Some x1 /\ key x1 = key xn).
  { pose proof (Hkey x) as E. unfold s1. cbn [delete_post store set_store set_tree_size].
    rewrite Hx in E. destruct (delete_store t x (store s) !! x) as [y|]; [|discriminate].
    injection E as E. eauto. }
  destruct Hx1 as (x1 & Hx1 & Ek).
  assert (Hxa1 : store s1 !! na = Some xa).
  { unfold s1. cbn [delete_post store set_store set_tree_size].
    rewrite (delete_store_lookup (store s) t x xn na Ht Hnd Hbst Hin Hx).
    destruct (decide (na = x)) as [->|_]; [contradiction|].
    destruct (decide (na ∈ path_to t x)) as [Hp|_]; [|exact Hxa].
    exfalso. apply Hna. eapply path_to_in. exact Hp. }
  pose proof (try_insert_throw_run fuel (key xn) o s1 t x x1 na xa r0 Hroot Ht1 Hbst1 Hfuel
                Hin Hx1 Ek Hidx Hslot Hxa1 Hna Hr0) as Hrun.
  eexists. split; [exact Hrun|].
  cbn [root tree store tree_size set_store set_inserted_nodes set_trial_nodes].
  split; [reflexivity|]. split; [|reflexivity].
  intros c Hc. apply lookup_insert_ne. intros <-. contradiction.
Qed.

Lemma try_insert_at_flagged_time_witness :
  exists s2,
    try_insert 10 20 (mk_op_desc 0 true 0) ex_pending_delete = Throw rbt_insert_error s2
    /\ root (tree s2) = root (tree ex_state)
    /\ (forall c, c ∈ addrs ex_shape -> store s2 !! c = store ex_pending_delete !! c)
    /\ tree_size s2 = tree_size ex_state - 1.
Proof.
  refine (try_insert_at_flagged_time 10 0 0 true (mk_op_desc 0 true 0) ex_state ex_shape 20
            ex_pending_delete 11%positive ex_pool_node (None, false) eq_refl
            (q_tree _ _ ex_state_quiescent) (q_nodup _ _ ex_state_quiescent) ex_state_bst
            _ _ _ eq_refl _ _ eq_refl).
  - simpl. lia.
  - vm_compute. reflexivity.
  - simpl. lia.
  - vm_compute. reflexivity.
  - simpl. set_solver.
Defined.
